(** * ShAI: the local pickup-line history of [static/js/app.js]

    The browser client keeps the history of past generations in
    [localStorage] under the single key ["shai-pickup-history"], as the JSON
    text of an array of records.  This development embeds

    - the JSON values the client manipulates, with [JSON.stringify] and
      [JSON.parse] over 8-bit code units ([Module JSON]);
    - the storage cell, the part of the page the history methods touch, and
      the methods [getLocalHistory], [saveLocalHistory], [addToLocalHistory],
      [deleteHistoryItem], [loadHistory], [displayHistory] and
      [clearHistory] of class [ShAIApp], in a state-and-exception monad;
    - the methods around them: [generatePickupLines], [displayResults],
      [setLoadingState], [escapeHtml] and the [onresult] handler of the
      speech recogniser ([Module Client]);

    and proves the properties of the history store and of the page around
    it. *)

From Stdlib Require Import String Ascii List Bool Arith Lia NArith DecimalString.
Import ListNotations.

Set Warnings "-register-all".

Local Open Scope list_scope.
Local Open Scope string_scope.

(** ** Characters and small string helpers *)

Definition dquote : ascii := "034"%char.
Definition backslash : ascii := "\"%char.

Definition is_digit (c : ascii) : bool :=
  (48 <=? nat_of_ascii c)%nat && (nat_of_ascii c <=? 57)%nat.

Definition is_ws (c : ascii) : bool :=
  match c with
  | " "%char | "009"%char | "010"%char | "013"%char => true
  | _ => false
  end.

Fixpoint skip_ws (s : string) : string :=
  match s with
  | String c r => if is_ws c then skip_ws r else s
  | EmptyString => s
  end.

Definition is_empty (s : string) : bool :=
  match s with EmptyString => true | _ => false end.

(** [strip_prefix p s] is the rest of [s] after its prefix [p]. *)
Fixpoint strip_prefix (p s : string) : option string :=
  match p, s with
  | EmptyString, _ => Some s
  | String a p', String b s' => if (a =? b)%char then strip_prefix p' s' else None
  | String _ _, EmptyString => None
  end.

(** [starts_with c s] is the rest of [s] after its first code unit [c]. *)
Definition starts_with (c : ascii) (s : string) : option string :=
  match s with
  | String c' r => if (c' =? c)%char then Some r else None
  | EmptyString => None
  end.

Module JSON.

(** ** Values

    [Undefined] is a JavaScript value, not a JSON one: it is what reading a
    missing property gives and what a function without [return] returns.
    A number is kept as its literal (floating-point evaluation is outside
    this embedding); an object is the list of its members as written, and
    reading a property takes the last member of that name (an engine keeps
    one member for each name; what a property reads is the same). *)
Inductive value : Type :=
| Undefined
| Null
| Bool (b : bool)
| Num (lit : string)
| Str (s : string)
| Arr (elems : list value)
| Obj (members : list (string * value)).

Section value_induction.
Variable P : value -> Prop.
Hypothesis HUndefined : P Undefined.
Hypothesis HNull : P Null.
Hypothesis HBool : forall b, P (Bool b).
Hypothesis HNum : forall lit, P (Num lit).
Hypothesis HStr : forall s, P (Str s).
Hypothesis HArr : forall vs, Forall P vs -> P (Arr vs).
Hypothesis HObj : forall ms, Forall (fun m => P (snd m)) ms -> P (Obj ms).

Fixpoint value_nested_ind (v : value) : P v :=
  match v with
  | Undefined => HUndefined
  | Null => HNull
  | Bool b => HBool b
  | Num lit => HNum lit
  | Str s => HStr s
  | Arr vs =>
      HArr vs ((fix go (l : list value) : Forall P l :=
                  match l with
                  | [] => Forall_nil _
                  | x :: l' => Forall_cons _ (value_nested_ind x) (go l')
                  end) vs)
  | Obj ms =>
      HObj ms ((fix go (l : list (string * value)) : Forall (fun m => P (snd m)) l :=
                  match l with
                  | [] => Forall_nil _
                  | m :: l' => Forall_cons _ (value_nested_ind (snd m)) (go l')
                  end) ms)
  end.
End value_induction.

Definition is_undefined (v : value) : bool :=
  match v with Undefined => true | _ => false end.

(** ** Number literals: the JSON grammar as an automaton

    An optional minus sign; then a single zero, or a non-zero digit followed
    by digits; then optionally a dot and one digit or more; then optionally
    an exponent: e or E, an optional sign, one digit or more. *)
Inductive nstate : Type :=
| NStart | NMinus | NZero | NInt | NDot | NFrac | NE | NESign | NExp.

Definition is_e (c : ascii) : bool := (c =? "e")%char || (c =? "E")%char.

Definition nstep (st : nstate) (c : ascii) : option nstate :=
  match st with
  | NStart =>
      if (c =? "-")%char then Some NMinus
      else if (c =? "0")%char then Some NZero
      else if is_digit c then Some NInt else None
  | NMinus =>
      if (c =? "0")%char then Some NZero
      else if is_digit c then Some NInt else None
  | NZero =>
      if (c =? ".")%char then Some NDot
      else if is_e c then Some NE else None
  | NInt =>
      if is_digit c then Some NInt
      else if (c =? ".")%char then Some NDot
      else if is_e c then Some NE else None
  | NDot => if is_digit c then Some NFrac else None
  | NFrac =>
      if is_digit c then Some NFrac
      else if is_e c then Some NE else None
  | NE =>
      if (c =? "+")%char || (c =? "-")%char then Some NESign
      else if is_digit c then Some NExp else None
  | NESign => if is_digit c then Some NExp else None
  | NExp => if is_digit c then Some NExp else None
  end.

Definition naccept (st : nstate) : bool :=
  match st with
  | NZero | NInt | NFrac | NExp => true
  | _ => false
  end.

(** Longest run of the automaton: final state, text consumed, rest. *)
Fixpoint nrun (st : nstate) (s : string) : nstate * string * string :=
  match s with
  | EmptyString => (st, EmptyString, EmptyString)
  | String c r =>
      match nstep st c with
      | Some st' =>
          let '(st'', lit, rest) := nrun st' r in (st'', String c lit, rest)
      | None => (st, EmptyString, s)
      end
  end.

Definition scan_number (s : string) : option (string * string) :=
  let '(st, lit, rest) := nrun NStart s in
  if naccept st then Some (lit, rest) else None.

Definition valid_number (lit : string) : bool :=
  let '(st, _, rest) := nrun NStart lit in naccept st && is_empty rest.

(** ** String literals *)

Definition hex_digit (n : nat) : ascii :=
  ascii_of_nat (if (n <? 10)%nat then 48 + n else 87 + n).

Definition hex_value (c : ascii) : option nat :=
  let n := nat_of_ascii c in
  if ((48 <=? n) && (n <=? 57))%nat then Some (n - 48)
  else if ((97 <=? n) && (n <=? 102))%nat then Some (n - 87)
  else if ((65 <=? n) && (n <=? 70))%nat then Some (n - 55)
  else None.

Definition hex4 (a b c d : ascii) : option nat :=
  match hex_value a, hex_value b, hex_value c, hex_value d with
  | Some x, Some y, Some z, Some w => Some (((x * 16 + y) * 16 + z) * 16 + w)
  | _, _, _, _ => None
  end.

(** What [JSON.stringify] writes for one code unit of a string. *)
Definition escape_char (c : ascii) : string :=
  if (c =? dquote)%char then String backslash (String dquote EmptyString)
  else if (c =? backslash)%char then String backslash (String backslash EmptyString)
  else if (c =? "008")%char then "\b"
  else if (c =? "012")%char then "\f"
  else if (c =? "010")%char then "\n"
  else if (c =? "013")%char then "\r"
  else if (c =? "009")%char then "\t"
  else if (nat_of_ascii c <? 32)%nat then
    "\u00" ++ String (hex_digit (nat_of_ascii c / 16))
                (String (hex_digit (nat_of_ascii c mod 16)) EmptyString)
  else String c EmptyString.

Fixpoint escape (s : string) : string :=
  match s with
  | EmptyString => EmptyString
  | String c r => escape_char c ++ escape r
  end.

Definition quote (s : string) : string :=
  String dquote (escape s ++ String dquote EmptyString).

(** The code unit a one-letter escape stands for. *)
Definition unescape (e : ascii) : option ascii :=
  if (e =? dquote)%char then Some dquote
  else if (e =? backslash)%char then Some backslash
  else if (e =? "/")%char then Some "/"%char
  else if (e =? "b")%char then Some "008"%char
  else if (e =? "f")%char then Some "012"%char
  else if (e =? "n")%char then Some "010"%char
  else if (e =? "r")%char then Some "013"%char
  else if (e =? "t")%char then Some "009"%char
  else None.

Definition cons_char (c : ascii) (r : option (string * string)) : option (string * string) :=
  match r with
  | Some (str, rest) => Some (String c str, rest)
  | None => None
  end.

(** The body of a string literal, after the opening quote: the decoded
    string and the text after the closing quote.  Code units beyond 8 bits
    ([\uXXXX] from 0100 on) are outside this embedding. *)
Fixpoint parse_chars (s : string) : option (string * string) :=
  match s with
  | EmptyString => None
  | String c r =>
      if (c =? dquote)%char then Some (EmptyString, r)
      else if (c =? backslash)%char then
        match r with
        | String e r1 =>
            if (e =? "u")%char then
              match r1 with
              | String h1 (String h2 (String h3 (String h4 r5))) =>
                  match hex4 h1 h2 h3 h4 with
                  | Some n =>
                      if (n <? 256)%nat then cons_char (ascii_of_nat n) (parse_chars r5)
                      else None
                  | None => None
                  end
              | _ => None
              end
            else
              match unescape e with
              | Some c' => cons_char c' (parse_chars r1)
              | None => None
              end
        | EmptyString => None
        end
      else if (nat_of_ascii c <? 32)%nat then None
      else cons_char c (parse_chars r)
  end.

(** ** [JSON.stringify] *)

(** What survives serialisation: a member whose value is [undefined] is
    dropped, an [undefined] array element is written as [null]. *)
Fixpoint clean (v : value) : value :=
  match v with
  | Arr vs => Arr (map (fun e => if is_undefined e then Null else clean e) vs)
  | Obj ms =>
      Obj (fold_right
             (fun m acc => if is_undefined (snd m) then acc
                           else (fst m, clean (snd m)) :: acc) [] ms)
  | _ => v
  end.

Fixpoint print (v : value) : string :=
  match v with
  | Undefined => "null"
  | Null => "null"
  | Bool true => "true"
  | Bool false => "false"
  | Num lit => lit
  | Str s => quote s
  | Arr vs =>
      "[" ++ (fix elems (l : list value) : string :=
                match l with
                | [] => EmptyString
                | x :: l' =>
                    print x ++ match l' with
                               | [] => EmptyString
                               | _ :: _ => "," ++ elems l'
                               end
                end) vs ++ "]"
  | Obj ms =>
      "{" ++ (fix mems (l : list (string * value)) : string :=
                match l with
                | [] => EmptyString
                | m :: l' =>
                    quote (fst m) ++ ":" ++ print (snd m)
                      ++ match l' with
                         | [] => EmptyString
                         | _ :: _ => "," ++ mems l'
                         end
                end) ms ++ "}"
  end.

(** [JSON.stringify(v)] as [localStorage.setItem] receives it: the argument
    of [setItem] is converted to a string, so the [undefined] that
    [JSON.stringify(undefined)] returns is stored as that word. *)
Definition stringify (v : value) : string :=
  if is_undefined v then "undefined" else print (clean v).

(** ** [JSON.parse] *)

Fixpoint parse_value (fuel : nat) (s : string) : option (value * string) :=
  match fuel with
  | O => None
  | S f =>
      match skip_ws s with
      | EmptyString => None
      | String c r =>
          if (c =? "[")%char then
            match starts_with "]" (skip_ws r) with
            | Some r' => Some (Arr [], r')
            | None =>
                match parse_elems f r with
                | Some (vs, r') => Some (Arr vs, r')
                | None => None
                end
            end
          else if (c =? "{")%char then
            match starts_with "}" (skip_ws r) with
            | Some r' => Some (Obj [], r')
            | None =>
                match parse_members f r with
                | Some (ms, r') => Some (Obj ms, r')
                | None => None
                end
            end
          else if (c =? dquote)%char then
            match parse_chars r with
            | Some (str, r') => Some (Str str, r')
            | None => None
            end
          else if (c =? "n")%char then
            match strip_prefix "ull" r with
            | Some r' => Some (Null, r')
            | None => None
            end
          else if (c =? "t")%char then
            match strip_prefix "rue" r with
            | Some r' => Some (Bool true, r')
            | None => None
            end
          else if (c =? "f")%char then
            match strip_prefix "alse" r with
            | Some r' => Some (Bool false, r')
            | None => None
            end
          else
            match scan_number (String c r) with
            | Some (lit, r') => Some (Num lit, r')
            | None => None
            end
      end
  end

with parse_elems (fuel : nat) (s : string) : option (list value * string) :=
  match fuel with
  | O => None
  | S f =>
      match parse_value f s with
      | Some (v, r) =>
          match skip_ws r with
          | String c r' =>
              if (c =? ",")%char then
                match parse_elems f r' with
                | Some (vs, r'') => Some (v :: vs, r'')
                | None => None
                end
              else if (c =? "]")%char then Some ([v], r')
              else None
          | EmptyString => None
          end
      | None => None
      end
  end

with parse_members (fuel : nat) (s : string) : option (list (string * value) * string) :=
  match fuel with
  | O => None
  | S f =>
      match skip_ws s with
      | String c r =>
          if (c =? dquote)%char then
            match parse_chars r with
            | Some (key, r1) =>
                match skip_ws r1 with
                | String c1 r2 =>
                    if (c1 =? ":")%char then
                      match parse_value f r2 with
                      | Some (v, r3) =>
                          match skip_ws r3 with
                          | String c3 r4 =>
                              if (c3 =? ",")%char then
                                match parse_members f r4 with
                                | Some (ms, r5) => Some ((key, v) :: ms, r5)
                                | None => None
                                end
                              else if (c3 =? "}")%char then Some ([(key, v)], r4)
                              else None
                          | EmptyString => None
                          end
                      | None => None
                      end
                    else None
                | EmptyString => None
                end
            | None => None
            end
          else None
      | EmptyString => None
      end
  end.

(** Every call of the parser on a sub-text comes after one code unit at
    least has been read, and costs at most two units of fuel. *)
Definition parse_fuel (s : string) : nat := 2 * String.length s + 2.

Definition parse (s : string) : option value :=
  match parse_value (parse_fuel s) s with
  | Some (v, rest) => if is_empty (skip_ws rest) then Some v else None
  | None => None
  end.

(** [JSON.parse] produces JSON values only: nothing undefined, and every
    number a literal of the grammar. *)
Fixpoint json_value (v : value) : bool :=
  match v with
  | Undefined => false
  | Null | Bool _ | Str _ => true
  | Num lit => valid_number lit
  | Arr vs => forallb json_value vs
  | Obj ms => forallb (fun m => json_value (snd m)) ms
  end.

(** A value the program can build: as [json_value], but [undefined] may
    occur in it. *)
Fixpoint well_formed (v : value) : bool :=
  match v with
  | Undefined | Null | Bool _ | Str _ => true
  | Num lit => valid_number lit
  | Arr vs => forallb well_formed vs
  | Obj ms => forallb (fun m => well_formed (snd m)) ms
  end.

Fixpoint print_elems (l : list value) : string :=
  match l with
  | [] => EmptyString
  | x :: l' =>
      print x ++ match l' with
                 | [] => EmptyString
                 | _ :: _ => "," ++ print_elems l'
                 end
  end.

Fixpoint print_members (l : list (string * value)) : string :=
  match l with
  | [] => EmptyString
  | m :: l' =>
      quote (fst m) ++ ":" ++ print (snd m)
        ++ match l' with
           | [] => EmptyString
           | _ :: _ => "," ++ print_members l'
           end
  end.

(** Fuel the parser uses on the text of a value. *)
Fixpoint need (v : value) : nat :=
  match v with
  | Arr vs => 1 + fold_right (fun x n => 1 + need x + n) 0 vs
  | Obj ms => 1 + fold_right (fun m n => 1 + need (snd m) + n) 0 ms
  | _ => 1
  end.

(** What may follow a value in a JSON text. *)
Definition is_delim (s : string) : bool :=
  match s with
  | EmptyString => true
  | String c _ => (c =? ",")%char || (c =? "]")%char || (c =? "}")%char
  end.

(** The first code unit of a number. *)
Definition number_head (c : ascii) : bool := (c =? "-")%char || is_digit c.

(** The first code unit of the text of a value is neither white space nor
    a closing bracket. *)
Definition value_head (c : ascii) : bool :=
  negb (is_ws c) && negb (c =? "]")%char && negb (c =? "}")%char.

Definition needs (l : list value) : nat :=
  fold_right (fun x n => 1 + need x + n) 0 l.

Definition needs_members (l : list (string * value)) : nat :=
  fold_right (fun m n => 1 + need (snd m) + n) 0 l.

(** ** Where the embedding is exact

    A number is kept as its literal, and a string holds 8-bit code units.
    The literal is what JavaScript itself writes for the number, and its
    digits decide whether the number is zero, for the literals below; a
    text is read as the engine reads it when none of its escapes names a
    wider code unit.  The statements that depend on the text of a number,
    or on a text being rejected, are made for these. *)

Fixpoint all_digits (s : string) : bool :=
  match s with
  | EmptyString => true
  | String c r => is_digit c && all_digits r
  end.

(** [0], or up to 15 digits that do not start with [0]. *)
Definition exact_digits (s : string) : bool :=
  match s with
  | EmptyString => false
  | String c r =>
      if (c =? "0")%char then is_empty r
      else is_digit c && all_digits r && (String.length r <? 15)%nat
  end.

(** An integer of at most 15 digits, written in decimal without a leading
    zero, and not [-0]: [JSON.parse] reads it without rounding, and
    [JSON.stringify] and [String] write it back digit for digit. *)
Definition exact_number (lit : string) : bool :=
  match lit with
  | String "-" r => exact_digits r && negb (r =? "0")%string
  | _ => exact_digits lit
  end.

(** Every number in [v] is an [exact_number]. *)
Fixpoint exact (v : value) : bool :=
  match v with
  | Num lit => exact_number lit
  | Arr vs => forallb exact vs
  | Obj ms => forallb (fun m => exact (snd m)) ms
  | _ => true
  end.

(** Every [\u] in the text is followed by [00]: no escape names a code
    unit beyond 8 bits. *)
Fixpoint narrow (s : string) : bool :=
  match s with
  | EmptyString => true
  | String c r =>
      (if (c =? backslash)%char
       then match r with
            | String "u" (String a (String b _)) => (a =? "0")%char && (b =? "0")%char
            | String "u" _ => false
            | _ => true
            end
       else true)
      && narrow r
  end.

(** The statement proved of each value by induction on it. *)
Definition reads_back (v : value) : Prop :=
  json_value v = true ->
  forall f rest, need v <= f -> is_delim rest = true ->
  parse_value f (print v ++ rest) = Some (v, rest).

End JSON.

Import JSON.

(** * The history methods of class [ShAIApp] *)

Module ShAIApp.

(** ** JavaScript operations the methods use *)

(** The last member named [k]. *)
Fixpoint find_member (k : string) (ms : list (string * value)) : option value :=
  match ms with
  | [] => None
  | (k', v) :: ms' =>
      match find_member k ms' with
      | Some w => Some w
      | None => if (k' =? k)%string then Some v else None
      end
  end.

Definition lookup (k : string) (ms : list (string * value)) : value :=
  match find_member k ms with
  | Some v => v
  | None => Undefined
  end.

(** [n.toString()] for a natural number [n] *)
Definition decimal (n : N) : string := NilEmpty.string_of_uint (N.to_uint n).

(** [v.k]: [undefined] when [v] has no property [k]; reading a property of
    [null] or [undefined] is a [TypeError] ([None]).  The names the program
    reads are never array indices. *)
Definition get_prop (v : value) (k : string) : option value :=
  match v with
  | Undefined | Null => None
  | Obj ms => Some (lookup k ms)
  | Arr l =>
      Some (if (k =? "length")%string
            then Num (decimal (N.of_nat (List.length l))) else Undefined)
  | Str s =>
      Some (if (k =? "length")%string
            then Num (decimal (N.of_nat (String.length s))) else Undefined)
  | Bool _ | Num _ => Some Undefined
  end.

(** A number literal denotes zero when its mantissa has no other digit
    (a literal too small for a floating-point number is not looked at: the
    digits decide for the literals of [exact_number]). *)
Fixpoint num_is_zero (lit : string) : bool :=
  match lit with
  | EmptyString => true
  | String c r =>
      if is_e c then true
      else if is_digit c && negb (c =? "0")%char then false
      else num_is_zero r
  end.

(** [!v] *)
Definition falsy (v : value) : bool :=
  match v with
  | Undefined | Null | Bool false => true
  | Num lit => num_is_zero lit
  | Str s => is_empty s
  | _ => false
  end.

(** [v.length === 0], for a [v] that is neither [null] nor [undefined] *)
Definition length_is_zero (v : value) : bool :=
  match v with
  | Arr [] => true
  | Str EmptyString => true
  | Obj ms => match lookup "length" ms with
              | Num lit => num_is_zero lit
              | _ => false
              end
  | _ => false
  end.

(** [v !== id] for a string [id] *)
Definition differs_from (v : value) (id : string) : bool :=
  match v with
  | Str s => negb (s =? id)%string
  | _ => true
  end.

(** Every property of [v] can be read. *)
Definition readable (v : value) : bool :=
  match v with
  | Undefined | Null => false
  | _ => true
  end.

(** [String(v)]: the text of a value: what [new Error(v)] takes for its message, what a
    template literal and [textContent] write.  [None]: the conversion
    throws a [TypeError], as it does for an object with a member named
    [toString], which hides the method of the prototype.  An array is
    joined with commas, [null] and [undefined] elements as the empty text;
    a number is written as its literal, which is what JavaScript writes
    for the literals of [exact_number]. *)
Fixpoint to_string (v : value) : option string :=
  match v with
  | Undefined => Some "undefined"
  | Null => Some "null"
  | Bool true => Some "true"
  | Bool false => Some "false"
  | Num lit => Some lit
  | Str s => Some s
  | Arr l =>
      (fix join (l : list value) : option string :=
         match l with
         | [] => Some EmptyString
         | x :: l' =>
             match (if readable x then to_string x else Some EmptyString) with
             | Some a =>
                 match l' with
                 | [] => Some a
                 | _ :: _ =>
                     match join l' with
                     | Some b => Some (a ++ "," ++ b)
                     | None => None
                     end
                 end
             | None => None
             end
         end) l
  | Obj ms =>
      match find_member "toString" ms with
      | Some _ => None
      | None => Some "[object Object]"
      end
  end.

(** ** State: the storage cell and the page *)

Inductive exn : Type := SecurityError | QuotaExceededError | SyntaxError | TypeError.

(** The entry of [localStorage] under ["shai-pickup-history"], the only key
    the program uses.  [blocked]: the page is denied access to storage, and
    every call throws; [quota]: the longest text the entry can hold, when
    there is a limit. *)
Record Storage : Type := {
  cell : option string;
  blocked : bool;
  quota : option nat
}.

(** The elements of the page the history methods write.  A row of a list is
    identified with the record it shows; the mobile list exists only when
    the page has its container. *)
Record Page : Type := {
  historyList : list value;
  mobileHistory : option (list value);
  noHistory_hidden : bool;
  results_hidden : bool;
  userInput_value : string;
  currentHistoryId : value;
  errorMessage : option string;
  toasts : list (string * string);
  console : list string
}.

Record State : Type := { storage : Storage; page : Page }.

Definition with_cell (c : option string) (s : Storage) : Storage :=
  {| cell := c; blocked := blocked s; quota := quota s |}.

(** ** A state-and-exception monad

    A statement runs from a state and ends normally with a value or by
    throwing; what it wrote before throwing stays written. *)
Inductive result (A : Type) : Type :=
| Ok (a : A)
| Throw (e : exn).
Arguments Ok {A} a.
Arguments Throw {A} e.

Definition M (A : Type) : Type := State -> result A * State.

Definition ret {A} (a : A) : M A := fun st => (Ok a, st).
Definition throw {A} (e : exn) : M A := fun st => (Throw e, st).

Definition bind {A B} (m : M A) (k : A -> M B) : M B :=
  fun st =>
    match m st with
    | (Ok a, st') => k a st'
    | (Throw e, st') => (Throw e, st')
    end.

(** [try { m } catch (error) { h error }] *)
Definition try_catch {A} (m : M A) (h : exn -> M A) : M A :=
  fun st =>
    match m st with
    | (Ok a, st') => (Ok a, st')
    | (Throw e, st') => h e st'
    end.

Notation "x <- m ;; k" := (bind m (fun x => k))
  (at level 61, m at next level, right associativity).
Notation "m ;; k" := (bind m (fun _ => k))
  (at level 61, right associativity).

Definition update_page (f : Page -> Page) : M unit :=
  fun st => (Ok tt, {| storage := storage st; page := f (page st) |}).

Definition lift {A} (r : option A) (e : exn) : M A :=
  match r with Some a => ret a | None => throw e end.

(** *** [localStorage] *)

Definition fits (s : string) (sto : Storage) : bool :=
  match quota sto with
  | Some q => (String.length s <=? q)%nat
  | None => true
  end.

Definition localStorage_getItem : M (option string) :=
  fun st => if blocked (storage st) then (Throw SecurityError, st)
            else (Ok (cell (storage st)), st).

Definition localStorage_setItem (s : string) : M unit :=
  fun st =>
    if blocked (storage st) then (Throw SecurityError, st)
    else if fits s (storage st)
         then (Ok tt, {| storage := with_cell (Some s) (storage st); page := page st |})
         else (Throw QuotaExceededError, st).

Definition localStorage_removeItem : M unit :=
  fun st =>
    if blocked (storage st) then (Throw SecurityError, st)
    else (Ok tt, {| storage := with_cell None (storage st); page := page st |}).

(** *** [JSON], [console] and the message helpers *)

Definition JSON_parse (s : string) : M value := lift (parse s) SyntaxError.

Definition set_console (x : list string) (p : Page) : Page :=
  {| historyList := historyList p; mobileHistory := mobileHistory p;
     noHistory_hidden := noHistory_hidden p; results_hidden := results_hidden p;
     userInput_value := userInput_value p; currentHistoryId := currentHistoryId p;
     errorMessage := errorMessage p; toasts := toasts p; console := x |}.

Definition set_errorMessage (x : option string) (p : Page) : Page :=
  {| historyList := historyList p; mobileHistory := mobileHistory p;
     noHistory_hidden := noHistory_hidden p; results_hidden := results_hidden p;
     userInput_value := userInput_value p; currentHistoryId := currentHistoryId p;
     errorMessage := x; toasts := toasts p; console := console p |}.

Definition set_toasts (x : list (string * string)) (p : Page) : Page :=
  {| historyList := historyList p; mobileHistory := mobileHistory p;
     noHistory_hidden := noHistory_hidden p; results_hidden := results_hidden p;
     userInput_value := userInput_value p; currentHistoryId := currentHistoryId p;
     errorMessage := errorMessage p; toasts := x; console := console p |}.

Definition set_historyList (x : list value) (p : Page) : Page :=
  {| historyList := x; mobileHistory := mobileHistory p;
     noHistory_hidden := noHistory_hidden p; results_hidden := results_hidden p;
     userInput_value := userInput_value p; currentHistoryId := currentHistoryId p;
     errorMessage := errorMessage p; toasts := toasts p; console := console p |}.

Definition set_mobileHistory (x : option (list value)) (p : Page) : Page :=
  {| historyList := historyList p; mobileHistory := x;
     noHistory_hidden := noHistory_hidden p; results_hidden := results_hidden p;
     userInput_value := userInput_value p; currentHistoryId := currentHistoryId p;
     errorMessage := errorMessage p; toasts := toasts p; console := console p |}.

Definition set_noHistory_hidden (x : bool) (p : Page) : Page :=
  {| historyList := historyList p; mobileHistory := mobileHistory p;
     noHistory_hidden := x; results_hidden := results_hidden p;
     userInput_value := userInput_value p; currentHistoryId := currentHistoryId p;
     errorMessage := errorMessage p; toasts := toasts p; console := console p |}.

Definition set_results_hidden (x : bool) (p : Page) : Page :=
  {| historyList := historyList p; mobileHistory := mobileHistory p;
     noHistory_hidden := noHistory_hidden p; results_hidden := x;
     userInput_value := userInput_value p; currentHistoryId := currentHistoryId p;
     errorMessage := errorMessage p; toasts := toasts p; console := console p |}.

Definition set_userInput_value (x : string) (p : Page) : Page :=
  {| historyList := historyList p; mobileHistory := mobileHistory p;
     noHistory_hidden := noHistory_hidden p; results_hidden := results_hidden p;
     userInput_value := x; currentHistoryId := currentHistoryId p;
     errorMessage := errorMessage p; toasts := toasts p; console := console p |}.

Definition set_currentHistoryId (x : value) (p : Page) : Page :=
  {| historyList := historyList p; mobileHistory := mobileHistory p;
     noHistory_hidden := noHistory_hidden p; results_hidden := results_hidden p;
     userInput_value := userInput_value p; currentHistoryId := x;
     errorMessage := errorMessage p; toasts := toasts p; console := console p |}.

Definition console_error (label : string) : M unit :=
  update_page (fun p => set_console (console p ++ [label])%list p).

(** [showError(message)]: the text is put in the error banner and the
    banner is shown (the timer that hides it again is not modelled). *)
Definition showError (message : string) : M unit :=
  update_page (set_errorMessage (Some message)).

(** [showTemporaryMessage(message, type)]: a toast is added to the page. *)
Definition showTemporaryMessage (message type : string) : M unit :=
  update_page (fun p => set_toasts (toasts p ++ [(message, type)])%list p).

(** [error.message], as one browser words it; the wording is the engine's,
    and the statements refer to it through [error_message] only. *)
Definition error_message (e : exn) : string :=
  match e with
  | SecurityError => "The operation is insecure."
  | QuotaExceededError => "The quota has been exceeded."
  | SyntaxError => "JSON.parse: unexpected character"
  | TypeError => "not a function"
  end.

(** *** Arrays *)

(** [l.forEach(f)] *)
Fixpoint forEach (f : value -> M unit) (l : list value) : M unit :=
  match l with
  | [] => ret tt
  | x :: l' => f x ;; forEach f l'
  end.

(** [l.filter(keep)] *)
Fixpoint filterM (keep : value -> M bool) (l : list value) : M (list value) :=
  match l with
  | [] => ret []
  | x :: l' =>
      b <- keep x ;;
      r <- filterM keep l' ;;
      ret (if b then x :: r else r)
  end.

(** A method of arrays called on a value that is not one is a
    [TypeError]: no other value of a JSON text has it. *)
Definition as_array (v : value) : M (list value) :=
  match v with
  | Arr l => ret l
  | _ => throw TypeError
  end.

(** ** The methods *)

(** [createHistoryItem(item)] and [createMobileHistoryItem(item)]: the
    row reads [item.id], [item.timestamp], [item.pickup_lines.length] and
    [item.user_input], and writes each of them as text ([dataset], [new
    Date], the template literal, [escapeHtml]). *)
Definition createHistoryItem (item : value) : M value :=
  id <- lift (get_prop item "id") TypeError ;;
  _ <- lift (to_string id) TypeError ;;
  timestamp <- lift (get_prop item "timestamp") TypeError ;;
  _ <- lift (to_string timestamp) TypeError ;;
  pickup_lines <- lift (get_prop item "pickup_lines") TypeError ;;
  linesCount <- lift (get_prop pickup_lines "length") TypeError ;;
  user_input <- lift (get_prop item "user_input") TypeError ;;
  _ <- lift (to_string user_input) TypeError ;;
  _ <- lift (to_string linesCount) TypeError ;;
  ret item.

Definition createMobileHistoryItem (item : value) : M value :=
  createHistoryItem item.

Definition syncMobileHistory (history : value) : M unit :=
  fun st =>
    match mobileHistory (page st) with
    | None => ret tt st
    | Some _ =>
        (update_page (set_mobileHistory (Some [])) ;;
         if falsy history || length_is_zero history then ret tt
         else
           l <- as_array history ;;
           forEach (fun item =>
                      row <- createMobileHistoryItem item ;;
                      update_page (fun p =>
                        set_mobileHistory
                          (option_map (fun rows => rows ++ [row])%list (mobileHistory p)) p))
                   l) st
    end.

Definition displayHistory (history : value) : M unit :=
  update_page (set_historyList []) ;;
  if falsy history || length_is_zero history then
    update_page (set_noHistory_hidden false) ;;
    syncMobileHistory (Arr [])
  else
    update_page (set_noHistory_hidden true) ;;
    l <- as_array history ;;
    forEach (fun item =>
               row <- createHistoryItem item ;;
               update_page (fun p => set_historyList (historyList p ++ [row])%list p))
            l ;;
    syncMobileHistory history.

Definition getLocalHistory : M value :=
  try_catch
    (history <- localStorage_getItem ;;
     match history with
     | Some text => if is_empty text then ret (Arr []) else JSON_parse text
     | None => ret (Arr [])
     end)
    (fun error =>
       console_error "Failed to load local history:" ;;
       ret (Arr [])).

Definition saveLocalHistory (history : value) : M unit :=
  try_catch
    (localStorage_setItem (stringify history))
    (fun error => console_error "Failed to save local history:").

Definition loadHistory : M unit :=
  try_catch
    (history <- getLocalHistory ;;
     displayHistory history)
    (fun error => console_error "Error loading local history:").

(** The id of a new record: [Date.now().toString()] followed by
    [Math.random().toString(36).substr(2, 9)]; [now] is the clock reading
    and [random] the base-36 text of the random draw. *)
Definition new_id (now : N) (random : string) : string :=
  decimal now ++ substring 2 9 random.

Definition historyItem (data : value) (now : N) (random : string) : M value :=
  input <- lift (get_prop data "input") TypeError ;;
  pickup_lines <- lift (get_prop data "pickup_lines") TypeError ;;
  timestamp <- lift (get_prop data "timestamp") TypeError ;;
  using_local <- lift (get_prop data "using_local") TypeError ;;
  ret (Obj [("id", Str (new_id now random));
            ("user_input", input);
            ("pickup_lines", pickup_lines);
            ("timestamp", timestamp);
            ("using_local", using_local)]).

Definition addToLocalHistory (data : value) (now : N) (random : string) : M value :=
  try_catch
    (history <- getLocalHistory ;;
     item <- historyItem data now random ;;
     l <- as_array history ;;
     let history := item :: l in
     let history := if (50 <? List.length history)%nat then firstn 50 history else history in
     saveLocalHistory (Arr history) ;;
     loadHistory)
    (fun error => console_error "Failed to add to local history:") ;;
  ret Undefined.

Definition deleteHistoryItem (id : string) : M value :=
  try_catch
    (history <- getLocalHistory ;;
     l <- as_array history ;;
     filteredHistory <-
       filterM (fun item =>
                  item_id <- lift (get_prop item "id") TypeError ;;
                  ret (differs_from item_id id)) l ;;
     saveLocalHistory (Arr filteredHistory) ;;
     loadHistory ;;
     showTemporaryMessage "History item deleted!" "success")
    (fun error =>
       console_error "Failed to delete history item:" ;;
       showError "Failed to delete history item") ;;
  ret Undefined.

(** [confirmed] is the answer to the [confirm] dialog. *)
Definition clearHistory (confirmed : bool) : M value :=
  if negb confirmed then ret Undefined
  else
    try_catch
      (localStorage_removeItem ;;
       update_page (set_historyList []) ;;
       update_page (set_noHistory_hidden false) ;;
       update_page (set_results_hidden true) ;;
       update_page (set_userInput_value EmptyString) ;;
       update_page (set_currentHistoryId Null) ;;
       syncMobileHistory (Arr []) ;;
       showTemporaryMessage "History cleared successfully!" "success")
      (fun error =>
         console_error "Error clearing history:" ;;
         showError ("Failed to clear history: " ++ error_message error)) ;;
    ret Undefined.

(** ** Reading the model *)

(** What [load()] gives in a state. *)
Definition load (st : State) : result value := fst (getLocalHistory st).

(** The value of a property, [undefined] where reading it throws. *)
Definition prop (v : value) (k : string) : value :=
  match get_prop v k with
  | Some x => x
  | None => Undefined
  end.

(** The record [addToLocalHistory] builds from a response, and the record
    as it is read back from storage. *)
Definition item_of (data : value) (now : N) (random : string) : value :=
  Obj [("id", Str (new_id now random));
       ("user_input", prop data "input");
       ("pickup_lines", prop data "pickup_lines");
       ("timestamp", prop data "timestamp");
       ("using_local", prop data "using_local")].

Definition record (data : value) (now : N) (random : string) : value :=
  clean (item_of data now random).

(** The array [addToLocalHistory] saves when the one it loaded is [items]. *)
Definition added (data : value) (now : N) (random : string) (items : list value) : value :=
  Arr (firstn 50 (item_of data now random :: items)).

(** [item.id !== id], as the callback of [filter] computes it. *)
Definition keep_other (id : string) (item : value) : bool :=
  differs_from (prop item "id") id.

(** The array [deleteHistoryItem] saves when the one it loaded is [items]. *)
Definition removed (id : string) (items : list value) : value :=
  Arr (filter (keep_other id) items).

(** A response of the server, as [response.json()] gives it: a JSON
    object. *)
Definition json_object (data : value) : bool :=
  match data with
  | Obj _ => json_value data
  | _ => false
  end.

(** Some record of [items] has the id [id]. *)
Definition has_id (id : string) (items : list value) : bool :=
  existsb (fun r => negb (differs_from (prop r "id") id)) items.

(** The ids of [items] are pairwise different. *)
Definition unique_ids (items : list value) : Prop :=
  NoDup (map (fun r => prop r "id") items).

(** The storage takes the text of [history]. *)
Definition accepts (sto : Storage) (history : value) : bool :=
  negb (blocked sto) && fits (stringify history) sto.

Definition empty_page : Page :=
  {| historyList := []; mobileHistory := Some []; noHistory_hidden := false;
     results_hidden := true; userInput_value := EmptyString;
     currentHistoryId := Null; errorMessage := None; toasts := [];
     console := [] |}.

(** A fresh browser profile: nothing stored, storage available and
    unlimited. *)
Definition empty_state : State :=
  {| storage := {| cell := None; blocked := false; quota := None |};
     page := empty_page |}.

(** ** The methods, read from the storage alone *)

Definition logged (label : string) (st : State) : State :=
  {| storage := storage st;
     page := set_console (console (page st) ++ [label])%list (page st) |}.

(** The value [getLocalHistory] returns, from the storage alone. *)
Definition load_value (sto : Storage) : value :=
  if blocked sto then Arr []
  else match cell sto with
       | Some text =>
           if is_empty text then Arr []
           else match parse text with
                | Some v => v
                | None => Arr []
                end
       | None => Arr []
       end.

(** [getLocalHistory] goes through its [catch]. *)
Definition load_fails (sto : Storage) : bool :=
  if blocked sto then true
  else match cell sto with
       | Some text =>
           if is_empty text then false
           else match parse text with
                | Some _ => false
                | None => true
                end
       | None => false
       end.

Definition keeps_storage {A} (m : M A) : Prop :=
  forall st, storage (snd (m st)) = storage st.

(** The storage after [addToLocalHistory], whatever the state. *)
Definition add_storage (data : value) (now : N) (random : string) (sto : Storage) : Storage :=
  match load_value sto with
  | Arr items =>
      if readable data && accepts sto (added data now random items)
      then with_cell (Some (stringify (added data now random items))) sto
      else sto
  | _ => sto
  end.

Definition delete_storage (id : string) (sto : Storage) : Storage :=
  match load_value sto with
  | Arr items =>
      if forallb readable items && accepts sto (removed id items)
      then with_cell (Some (stringify (removed id items))) sto
      else sto
  | _ => sto
  end.

Definition clear_storage (confirmed : bool) (sto : Storage) : Storage :=
  if confirmed && negb (blocked sto) then with_cell None sto else sto.

End ShAIApp.

Import ShAIApp.

(** * The store of the specification, in terms of the methods

    [load] is [getLocalHistory], [add] is [addToLocalHistory], [remove] is
    [deleteHistoryItem] and [clear] is [clearHistory] with the dialog
    confirmed. *)

Module Store.

(** One call of [add]: the response, and what [Date.now()] and
    [Math.random()] give during the call. *)
Record call : Type := {
  call_data : value;
  call_now : N;
  call_random : string
}.

Definition add (c : call) : M value :=
  addToLocalHistory (call_data c) (call_now c) (call_random c).

Definition record_of (c : call) : value :=
  record (call_data c) (call_now c) (call_random c).

Definition id_of (c : call) : string := new_id (call_now c) (call_random c).

(** The sequence [load()] returns, empty when it is not an array. *)
Definition loaded (st : State) : list value :=
  match load st with
  | Ok (Arr l) => l
  | _ => []
  end.

Definition size (st : State) : nat := List.length (loaded st).

(** The state after a sequence of [add] calls. *)
Fixpoint adds (calls : list call) (st : State) : State :=
  match calls with
  | [] => st
  | c :: calls' => adds calls' (snd (add c st))
  end.

(** Every call of the sequence is given a JSON object. *)
Definition responses (calls : list call) : bool :=
  forallb (fun c => json_object (call_data c)) calls.

(** The storage takes the write of every call of the sequence. *)
Fixpoint accepted (calls : list call) (st : State) : bool :=
  match calls with
  | [] => true
  | c :: calls' =>
      accepts (storage st) (added (call_data c) (call_now c) (call_random c) (loaded st))
      && accepted calls' (snd (add c st))
  end.

(** Some record with the id [id] is in the store. *)
Definition present (id : string) (st : State) : bool := has_id id (loaded st).

Inductive op : Type :=
| Add (c : call)
| Remove (id : string)
| Clear (confirmed : bool).

Definition step (o : op) (st : State) : State :=
  match o with
  | Add c => snd (add c st)
  | Remove id => snd (deleteHistoryItem id st)
  | Clear confirmed => snd (clearHistory confirmed st)
  end.

Fixpoint run (ops : list op) (st : State) : State :=
  match ops with
  | [] => st
  | o :: ops' => run ops' (step o st)
  end.

(** Every [add] of the sequence is given a JSON object and generates an id
    that no record of the store has at that time. *)
Fixpoint fresh_ids (ops : list op) (st : State) : bool :=
  match ops with
  | [] => true
  | o :: ops' =>
      match o with
      | Add c => json_object (call_data c) && negb (present (id_of c) st)
      | _ => true
      end && fresh_ids ops' (step o st)
  end.

(** Nothing is stored, or what is stored is not JSON. *)
Definition nothing_usable (sto : Storage) : bool :=
  match cell sto with
  | None => true
  | Some text => match parse text with
                 | None => true
                 | Some _ => false
                 end
  end.

(** [loaded], from the storage alone. *)
Definition loaded_of (sto : Storage) : list value :=
  match load_value sto with
  | Arr l => l
  | _ => []
  end.

(** ** Sample calls and stores *)

Definition coffee : value :=
  Obj [("success", Bool true);
       ("input", Str "coffee shop");
       ("pickup_lines", Arr [Str "line1"; Str "line2"]);
       ("timestamp", Str "2024-01-01T10:00:00");
       ("using_local", Bool true)].

Definition library : value :=
  Obj [("success", Bool true);
       ("input", Str "at the library");
       ("pickup_lines", Arr [Str "line3"]);
       ("timestamp", Str "2024-01-01T10:05:00");
       ("using_local", Bool false)].

Definition gym : value :=
  Obj [("success", Bool true);
       ("input", Str "at the gym");
       ("pickup_lines", Arr []);
       ("timestamp", Num "1704103800")].

Definition call1 : call :=
  {| call_data := coffee; call_now := 1704103200000; call_random := "0.4fzyo82mvyr" |}.

Definition call2 : call :=
  {| call_data := library; call_now := 1704103500000; call_random := "0.i" |}.

Definition call3 : call :=
  {| call_data := gym; call_now := 1704103800000; call_random := "0.9x2k" |}.

(** A store of three records. *)
Definition three_records : State := adds [call1; call2; call3] empty_state.

(** The same call made [n] times, a millisecond apart. *)
Fixpoint ticks (n : nat) (now : N) : list call :=
  match n with
  | O => []
  | S n' =>
      {| call_data := library; call_now := now; call_random := "0.i" |}
        :: ticks n' (N.succ now)
  end.

(** A store whose text was cut short. *)
Definition corrupt : State :=
  {| storage := {| cell := Some "[{"; blocked := false; quota := None |};
     page := empty_page |}.

(** A store whose text is a JSON object, not an array. *)
Definition not_an_array : State :=
  {| storage := {| cell := Some "{ }"; blocked := false; quota := None |};
     page := empty_page |}.

(** A sequence of operations from the empty store. *)
Definition busy_day : list op :=
  [Add call1; Add call2; Remove (id_of call1); Add call3; Clear false;
   Remove "nonexistent-id"; Add call1].

End Store.

Import Store.

(** * The rest of the page: results, generation, escaping, voice input

    The methods of class [ShAIApp] around the history: those that call the
    history methods and those that show what they return. *)

Module Client.

(** ** Rendering a record *)

(** [createHistoryItem(item)] can read what it needs: [item] and
    [item.pickup_lines] are neither [null] nor [undefined]. *)
Definition renderable (item : value) : bool :=
  readable item && readable (prop item "pickup_lines").

(** ** [escapeHtml]

    [div.textContent = text; return div.innerHTML]: the text of the element
    is written back as HTML, each code unit by the rule of the serialiser
    for text. *)
Definition escapeHtml_unit (c : ascii) : string :=
  if (c =? "&")%char then "&amp;"
  else if (c =? "<")%char then "&lt;"
  else if (c =? ">")%char then "&gt;"
  else if (c =? "160")%char then "&nbsp;"
  else String c EmptyString.

Fixpoint escapeHtml (text : string) : string :=
  match text with
  | EmptyString => EmptyString
  | String c r => escapeHtml_unit c ++ escapeHtml r
  end.

(** The code unit [c] occurs in [s]. *)
Fixpoint occurs (c : ascii) (s : string) : bool :=
  match s with
  | EmptyString => false
  | String x r => (x =? c)%char || occurs c r
  end.

(** ** [trim]

    [s.trim()]: white space and line ends are taken off both ends. *)
Definition is_space (c : ascii) : bool :=
  match c with
  | "009"%char | "010"%char | "011"%char | "012"%char | "013"%char
  | " "%char | "160"%char => true
  | _ => false
  end.

Fixpoint trim_start (s : string) : string :=
  match s with
  | String c r => if is_space c then trim_start r else s
  | EmptyString => s
  end.

Fixpoint trim_end (s : string) : string :=
  match s with
  | String c r =>
      match trim_end r with
      | EmptyString => if is_space c then EmptyString else String c EmptyString
      | r' => String c r'
      end
  | EmptyString => s
  end.

Definition trim (s : string) : string := trim_end (trim_start s).

(** Every code unit of [s] is white space. *)
Fixpoint blank (s : string) : bool :=
  match s with
  | EmptyString => true
  | String c r => is_space c && blank r
  end.

(** The conversion of [v] to text does not throw. *)
Definition converts (v : value) : bool :=
  match to_string v with
  | Some _ => true
  | None => false
  end.

(** [createHistoryItem(item)] ends normally: [item] renders, and what the
    row writes as text ([item.id], [item.timestamp],
    [item.pickup_lines.length] and [item.user_input]) converts to text. *)
Definition shown (item : value) : bool :=
  renderable item
  && converts (prop item "id")
  && converts (prop item "timestamp")
  && converts (prop (prop item "pickup_lines") "length")
  && converts (prop item "user_input").

(** ** State of the whole page *)

(** The elements outside the history lists. *)
Record Controls : Type := {
  loading_hidden : bool;
  generateBtn_disabled : bool;
  generateBtn_innerHTML : string;
  pickupLinesList : list value;
  userInput_focused : bool;
  userInput_height : string;
  voiceStatusText : string
}.

Record Screen : Type := { app : State; controls : Controls }.

(** What is thrown: an error of the engine, or an [Error] made by the
    program or by [fetch], with its message. *)
Inductive raised : Type :=
| Native (e : exn)
| Failed (message : string).

(** [error.message] *)
Definition message_of (r : raised) : string :=
  match r with
  | Native e => error_message e
  | Failed message => message
  end.

Inductive outcome (A : Type) : Type :=
| Done (a : A)
| Raise (r : raised).
Arguments Done {A} a.
Arguments Raise {A} r.

Definition G (A : Type) : Type := Screen -> outcome A * Screen.

Definition gret {A} (a : A) : G A := fun s => (Done a, s).
Definition gthrow {A} (r : raised) : G A := fun s => (Raise r, s).

Definition gbind {A B} (m : G A) (k : A -> G B) : G B :=
  fun s =>
    match m s with
    | (Done a, s') => k a s'
    | (Raise r, s') => (Raise r, s')
    end.

Notation "x <~ m ;; k" := (gbind m (fun x => k))
  (at level 61, m at next level, right associativity).
Notation "m ;;; k" := (gbind m (fun _ => k))
  (at level 61, right associativity).

(** [try { m } catch (error) { h error } finally { f }] *)
Definition try_catch_finally {A} (m : G A) (h : raised -> G A) (f : G unit) : G A :=
  fun s =>
    let '(r, s1) :=
      match m s with
      | (Done a, s') => (Done a, s')
      | (Raise e, s') => h e s'
      end in
    match f s1 with
    | (Done _, s2) => (r, s2)
    | (Raise e, s2) => (Raise e, s2)
    end.

(** A history method, run on the page. *)
Definition in_app {A} (m : M A) : G A :=
  fun s =>
    match m (app s) with
    | (Ok a, st) => (Done a, {| app := st; controls := controls s |})
    | (Throw e, st) => (Raise (Native e), {| app := st; controls := controls s |})
    end.

Definition update_controls (f : Controls -> Controls) : G unit :=
  fun s => (Done tt, {| app := app s; controls := f (controls s) |}).

Definition set_loading_hidden (x : bool) (c : Controls) : Controls :=
  {| loading_hidden := x; generateBtn_disabled := generateBtn_disabled c;
     generateBtn_innerHTML := generateBtn_innerHTML c;
     pickupLinesList := pickupLinesList c; userInput_focused := userInput_focused c;
     userInput_height := userInput_height c;
     voiceStatusText := voiceStatusText c |}.

Definition set_generateBtn (disabled : bool) (innerHTML : string) (c : Controls) : Controls :=
  {| loading_hidden := loading_hidden c; generateBtn_disabled := disabled;
     generateBtn_innerHTML := innerHTML;
     pickupLinesList := pickupLinesList c; userInput_focused := userInput_focused c;
     userInput_height := userInput_height c;
     voiceStatusText := voiceStatusText c |}.

Definition set_pickupLinesList (x : list value) (c : Controls) : Controls :=
  {| loading_hidden := loading_hidden c; generateBtn_disabled := generateBtn_disabled c;
     generateBtn_innerHTML := generateBtn_innerHTML c;
     pickupLinesList := x; userInput_focused := userInput_focused c;
     userInput_height := userInput_height c;
     voiceStatusText := voiceStatusText c |}.

Definition set_userInput_focused (x : bool) (c : Controls) : Controls :=
  {| loading_hidden := loading_hidden c; generateBtn_disabled := generateBtn_disabled c;
     generateBtn_innerHTML := generateBtn_innerHTML c;
     pickupLinesList := pickupLinesList c; userInput_focused := x;
     userInput_height := userInput_height c;
     voiceStatusText := voiceStatusText c |}.

Definition set_userInput_height (x : string) (c : Controls) : Controls :=
  {| loading_hidden := loading_hidden c; generateBtn_disabled := generateBtn_disabled c;
     generateBtn_innerHTML := generateBtn_innerHTML c;
     pickupLinesList := pickupLinesList c; userInput_focused := userInput_focused c;
     userInput_height := x;
     voiceStatusText := voiceStatusText c |}.

Definition set_voiceStatusText (x : string) (c : Controls) : Controls :=
  {| loading_hidden := loading_hidden c; generateBtn_disabled := generateBtn_disabled c;
     generateBtn_innerHTML := generateBtn_innerHTML c;
     pickupLinesList := pickupLinesList c; userInput_focused := userInput_focused c;
     userInput_height := userInput_height c;
     voiceStatusText := x |}.

(** ** Showing results *)

Definition q : string := String dquote EmptyString.

Definition generating_label : string :=
  "<i class=" ++ q ++ "fas fa-heart animate-pulse" ++ q ++ "></i> Generating...".

Definition idle_label : string :=
  "<i class=" ++ q ++ "fas fa-heart" ++ q ++ "></i> Get some lines blud".

Definition setLoadingState (loading : bool) : G unit :=
  if loading then
    update_controls (set_loading_hidden false) ;;;
    in_app (update_page (set_results_hidden true)) ;;;
    update_controls (set_generateBtn true generating_label)
  else
    update_controls (set_loading_hidden true) ;;;
    update_controls (set_generateBtn false idle_label).

(** [hideError()]: the banner is hidden. *)
Definition hideError : G unit := in_app (update_page (set_errorMessage None)).

(** The row of a line is identified with the line; [escapeHtml(line)]
    takes the text of the line. *)
Definition createPickupLineElement (line : value) (index : nat) : G value :=
  match to_string line with
  | Some _ => gret line
  | None => gthrow (Native TypeError)
  end.

(** [l.forEach((x, index) => f(x, index))], from [index] on *)
Fixpoint forEach_from (f : value -> nat -> G unit) (l : list value) (index : nat) : G unit :=
  match l with
  | [] => gret tt
  | x :: l' => f x index ;;; forEach_from f l' (S index)
  end.

Definition displayResults (data : value) : G unit :=
  update_controls (set_pickupLinesList []) ;;;
  pickup_lines <~ in_app (lift (get_prop data "pickup_lines") TypeError) ;;
  l <~ in_app (as_array pickup_lines) ;;
  forEach_from (fun line index =>
                  listItem <~ createPickupLineElement line index ;;
                  update_controls (fun c =>
                    set_pickupLinesList (pickupLinesList c ++ [listItem])%list c))
               l 0 ;;;
  in_app (update_page (set_results_hidden false)).

(** [displayResults(data)] ends normally: [data.pickup_lines] is an array
    of lines that convert to text. *)
Definition displayable (data : value) : bool :=
  match get_prop data "pickup_lines" with
  | Some (Arr lines) => forallb converts lines
  | _ => false
  end.

(** ** [generatePickupLines]

    The method is asynchronous: it runs up to [await fetch(...)], and
    resumes when the answer arrives; in between, other handlers run, and a
    second generation too.  Its two parts are two steps: [generate_request]
    and [generate_response]. *)

(** What [fetch] settles with: a rejection and its message, or a response
    with its status, status text and body. *)
Inductive fetched : Type :=
| Rejected (message : string)
| Responded (status : N) (statusText : string) (body : string).

(** [response.ok] *)
Definition ok (status : N) : bool := (200 <=? status)%N && (status <=? 299)%N.

(** The body of the request for the text [input]. *)
Definition request_body (input : string) : string :=
  stringify (Obj [("input", Str input)]).

(** The method up to [await fetch(...)]: the body of the request it
    sends, [None] when it returns without sending one. *)
Definition generate_request : G (option string) :=
  fun s =>
    let input := trim (userInput_value (page (app s))) in
    if is_empty input then
      (in_app (showError "Please enter some text or use voice input first!") ;;;
       update_controls (set_userInput_focused true) ;;;
       gret None) s
    else
      (setLoadingState true ;;;
       hideError ;;;
       gret (Some (request_body input))) s.

(** [await response.json()] *)
Definition response_json (body : string) : G value :=
  match parse body with
  | Some data => gret data
  | None => gthrow (Native SyntaxError)
  end.

(** The method from the answer of [fetch] on; [now] and [random] are what
    [Date.now()] and [Math.random()] give to [addToLocalHistory]. *)
Definition generate_response (answer : fetched) (now : N) (random : string) : G value :=
  try_catch_finally
    (match answer with
     | Rejected message => gthrow (Failed message)
     | Responded status statusText body =>
         (if negb (ok status)
          then gthrow (Failed ("HTTP " ++ decimal status ++ ": " ++ statusText))
          else gret tt) ;;;
         data <~ response_json body ;;
         success <~ in_app (lift (get_prop data "success") TypeError) ;;
         (if falsy success
          then error <~ in_app (lift (get_prop data "error") TypeError) ;;
               if falsy error then gthrow (Failed "Failed to generate pickup lines")
               else match to_string error with
                    | Some message => gthrow (Failed message)
                    | None => gthrow (Native TypeError)
                    end
          else gret tt) ;;;
         displayResults data ;;;
         in_app (addToLocalHistory data now random) ;;;
         gret tt
     end)
    (fun error =>
       in_app (console_error "Error generating pickup lines:") ;;;
       in_app (showError ("Failed to generate pickup lines: " ++ message_of error)))
    (setLoadingState false) ;;;
  gret Undefined.

(** The response the history takes a record from: the status is ok, the
    body is JSON, [success] is truthy and [pickup_lines] is an array of
    lines that convert to text. *)
Definition usable (answer : fetched) : option value :=
  match answer with
  | Rejected _ => None
  | Responded status _ body =>
      if ok status then
        match parse body with
        | Some data =>
            if readable data && negb (falsy (prop data "success")) then
              match prop data "pickup_lines" with
              | Arr lines => if forallb converts lines then Some data else None
              | _ => None
              end
            else None
        | None => None
        end
      else None
  end.

(** An answer within the embedding: no escape of its body names a code
    unit beyond 8 bits, and the numbers of the body are integers of at most
    15 digits. *)
Definition in_reach (answer : fetched) : bool :=
  match answer with
  | Rejected _ => true
  | Responded _ _ body =>
      narrow body
      && match parse body with
         | Some data => exact data
         | None => true
         end
  end.

(** ** Voice input: [recognition.onresult] *)

(** A result of the recogniser: the transcript of its first alternative,
    and whether it is final. *)
Record spoken : Type := { transcript : string; isFinal : bool }.

Record SpeechRecognitionEvent : Type := {
  resultIndex : nat;
  results : list spoken
}.

(** The [for] loop of the handler, [count] rounds from index [i]: the
    final and the interim transcript. *)
Fixpoint transcripts (results : list spoken) (count i : nat)
         (finalTranscript interimTranscript : string) : string * string :=
  match count with
  | O => (finalTranscript, interimTranscript)
  | S count' =>
      match nth_error results i with
      | Some r =>
          if isFinal r
          then transcripts results count' (S i)
                 (finalTranscript ++ transcript r) interimTranscript
          else transcripts results count' (S i)
                 finalTranscript (interimTranscript ++ transcript r)
      | None => (finalTranscript, interimTranscript)
      end
  end.

(** The transcripts of the results of [l] that are final ([final]), or
    not, one after the other. *)
Fixpoint said (final : bool) (l : list spoken) : string :=
  match l with
  | [] => EmptyString
  | r :: l' =>
      if Bool.eqb (isFinal r) final then transcript r ++ said final l'
      else said final l'
  end.

(** [Math.max(120, scrollHeight) + "px"] *)
Definition autoResizeTextarea (scrollHeight : N) : G unit :=
  update_controls (set_userInput_height "auto") ;;;
  update_controls (set_userInput_height (decimal (N.max 120 scrollHeight) ++ "px")).

(** [scrollHeight] is the height the text area reports after the text is
    added. *)
Definition onresult (event : SpeechRecognitionEvent) (scrollHeight : N) : G unit :=
  let '(finalTranscript, interimTranscript) :=
    transcripts (results event)
                (List.length (results event) - resultIndex event)
                (resultIndex event) EmptyString EmptyString in
  (if is_empty finalTranscript then gret tt
   else
     in_app (fun st =>
               update_page
                 (set_userInput_value (userInput_value (page st) ++ finalTranscript)) st) ;;;
     autoResizeTextarea scrollHeight) ;;;
  if is_empty interimTranscript
  then update_controls (set_voiceStatusText "Listening for your voice...")
  else update_controls
         (set_voiceStatusText ("Listening: " ++ q ++ interimTranscript ++ q)).

(** ** What the user does *)

(** The events of a visit: the user types, presses the button (the method
    runs up to its request), the answer of a request arrives (the method
    runs to its end), the user deletes a record or clears the history.
    Other events may come between a request and its answer. *)
Inductive action : Type :=
| Typed (text : string) (scrollHeight : N)
| Requested
| Answered (answer : fetched) (now : N) (random : string)
| Deleted (id : string)
| Cleared (confirmed : bool).

Definition perform (a : action) (s : Screen) : Screen :=
  match a with
  | Typed text scrollHeight =>
      snd ((in_app (update_page (set_userInput_value text)) ;;;
            autoResizeTextarea scrollHeight) s)
  | Requested => snd (generate_request s)
  | Answered answer now random => snd (generate_response answer now random s)
  | Deleted id => snd (in_app (deleteHistoryItem id) s)
  | Cleared confirmed => snd (in_app (clearHistory confirmed) s)
  end.

Fixpoint session (actions : list action) (s : Screen) : Screen :=
  match actions with
  | [] => s
  | a :: actions' => session actions' (perform a s)
  end.

(** An action that does not show the results: any but the answer of a
    generation that succeeds. *)
Definition shows_nothing (a : action) : bool :=
  match a with
  | Answered answer _ _ =>
      match usable answer with
      | Some _ => false
      | None => true
      end
  | _ => true
  end.

(** The answer of the action, if it is one, is within the embedding. *)
Definition within (a : action) : bool :=
  match a with
  | Answered answer _ _ => in_reach answer
  | _ => true
  end.

(** The method leaves the visibility of the results as it is. *)
Definition keeps_results {A} (m : M A) : Prop :=
  forall st, results_hidden (page (snd (m st))) = results_hidden (page st).

(** The history lists of the page are the sequence in the store. *)
Definition in_sync (st : State) : Prop :=
  historyList (page st) = loaded st /\
  (mobileHistory (page st) = None \/ mobileHistory (page st) = Some (loaded st)).

Definition idle_controls : Controls :=
  {| loading_hidden := true; generateBtn_disabled := false;
     generateBtn_innerHTML := idle_label; pickupLinesList := [];
     userInput_focused := false; userInput_height := "auto";
     voiceStatusText := EmptyString |}.

(** What the user sees outside the history lists: whether the results are
    hidden, the input, the selected record, the banner and the toasts. *)
Definition rest_of_page (p : Page) :
  bool * string * value * option string * list (string * string) :=
  (results_hidden p, userInput_value p, currentHistoryId p, errorMessage p, toasts p).

Definition keeps_rest {A} (m : M A) : Prop :=
  forall st, rest_of_page (page (snd (m st))) = rest_of_page (page st).

(** The store holds an array of records whose rows can be built, and the
    history lists of the page show it. *)
Definition well_kept (st : State) : Prop :=
  load_value (storage st) = Arr (loaded st) /\
  forallb shown (loaded st) = true /\
  in_sync st.

(** An answer whose record, if the history takes one, has a row that can
    be built: [input] and [timestamp] convert to text. *)
Definition presentable (a : action) : bool :=
  match a with
  | Answered answer now random =>
      match usable answer with
      | Some data => converts (prop data "input") && converts (prop data "timestamp")
      | None => true
      end
  | _ => true
  end.

(** The page after [displayHistory] of an array of records that all
    render. *)
Definition display (items : list value) (p : Page) : Page :=
  {| historyList := items;
     mobileHistory := match mobileHistory p with
                      | Some _ => Some items
                      | None => None
                      end;
     noHistory_hidden := match items with [] => false | _ :: _ => true end;
     results_hidden := results_hidden p;
     userInput_value := userInput_value p;
     currentHistoryId := currentHistoryId p;
     errorMessage := errorMessage p;
     toasts := toasts p;
     console := console p |}.

(** A fresh page in which the user has typed [text]. *)
Definition typed (text : string) : Screen :=
  {| app := {| storage := storage empty_state;
               page := set_userInput_value text empty_page |};
     controls := idle_controls |}.

(** The answer of the server with the body [data]. *)
Definition answer_of (data : value) : fetched :=
  Responded 200 "OK" (stringify data).

Definition unavailable : fetched :=
  Responded 503 "Service Unavailable" EmptyString.

Definition refused : fetched :=
  answer_of (Obj [("success", Bool false); ("error", Str "Rate limit exceeded")]).

(** A visit: two generations that succeed and one that fails, a record
    deleted, a clearing called off. *)
Definition a_visit : list action :=
  [Typed "coffee shop" 80; Requested;
   Answered (answer_of coffee) 1704103200000 "0.4fzyo82mvyr";
   Typed "at the library" 96; Requested;
   Answered unavailable 1704103300000 "0.i";
   Requested;
   Answered (answer_of library) 1704103500000 "0.i";
   Deleted (id_of call1); Cleared false].

(** ** Sequences of operations on the store *)

(** Every [add] of the sequence is given a value of the language: its
    numbers are number literals. *)
Definition well_called (ops : list op) : bool :=
  forallb (fun o => match o with
                    | Add c => well_formed (call_data c)
                    | _ => true
                    end) ops.

(** A store with a [null] among its records. *)
Definition with_null : State :=
  {| storage := {| cell := Some "[null]"; blocked := false; quota := None |};
     page := empty_page |}.

(** A store whose text is a number. *)
Definition a_number : State :=
  {| storage := {| cell := Some "42"; blocked := false; quota := None |};
     page := empty_page |}.

(** A storage that takes twenty code units at most. *)
Definition nearly_full : State :=
  {| storage := {| cell := None; blocked := false; quota := Some 20 |};
     page := empty_page |}.

(** A store whose second element has no [pickup_lines]. *)
Definition half_good : State :=
  {| storage := {| cell := Some (stringify (Arr [record_of call1; Obj []; record_of call2]));
                   blocked := false; quota := None |};
     page := empty_page |}.

End Client.

Import Client.

(** * Properties of the JSON codec *)

Section StringFacts.

Lemma append_assoc (a b c : string) : (a ++ b) ++ c = a ++ (b ++ c).
Proof. induction a as [|x a IH]; simpl; [reflexivity | now rewrite IH]. Qed.

Lemma append_empty_r (a : string) : a ++ EmptyString = a.
Proof. induction a as [|x a IH]; simpl; [reflexivity | now rewrite IH]. Qed.

Lemma length_append (a b : string) :
  String.length (a ++ b) = String.length a + String.length b.
Proof. induction a as [|x a IH]; simpl; [reflexivity | now rewrite IH]. Qed.

End StringFacts.

Module JSONFacts.

Ltac all_chars c := destruct c as [[] [] [] [] [] [] [] []].

Lemma nstep_delim (c : ascii) (st : nstate) :
  ((c =? ",")%char || (c =? "]")%char || (c =? "}")%char) = true ->
  nstep st c = None.
Proof.
  intros H. apply orb_true_iff in H. destruct H as [H | H].
  - apply orb_true_iff in H. destruct H as [H | H];
      apply Ascii.eqb_eq in H; subst c; destruct st; reflexivity.
  - apply Ascii.eqb_eq in H; subst c; destruct st; reflexivity.
Qed.

Lemma nrun_app : forall lit st st' rest,
  nrun st lit = (st', lit, EmptyString) -> is_delim rest = true ->
  nrun st (lit ++ rest) = (st', lit, rest).
Proof.
  induction lit as [|a l IH]; simpl; intros st st' rest H D.
  - inversion H; subst. destruct rest as [|c r]; [reflexivity|].
    simpl. now rewrite (nstep_delim c st' D).
  - destruct (nstep st a) as [st1|]; [|discriminate].
    destruct (nrun st1 l) as [[st2 lit2] rest2] eqn:E.
    inversion H; subst. now rewrite (IH _ _ _ E D).
Qed.

Lemma nrun_split : forall s st st' lit r,
  nrun st s = (st', lit, r) -> s = lit ++ r.
Proof.
  induction s as [|a s IH]; simpl; intros st st' lit r H.
  - now inversion H.
  - destruct (nstep st a) as [st1|].
    + destruct (nrun st1 s) as [[st2 lit2] rest2] eqn:E.
      inversion H; subst. simpl. f_equal. eapply IH; eauto.
    + now inversion H.
Qed.

Lemma nrun_consumed : forall s st st' lit r,
  nrun st s = (st', lit, r) -> nrun st lit = (st', lit, EmptyString).
Proof.
  induction s as [|a s IH]; simpl; intros st st' lit r H.
  - now inversion H.
  - destruct (nstep st a) as [st1|] eqn:N.
    + destruct (nrun st1 s) as [[st2 lit2] rest2] eqn:E.
      inversion H; subst. simpl. rewrite N.
      now rewrite (IH _ _ _ _ E).
    + now inversion H.
Qed.

Lemma scan_number_valid (s lit r : string) :
  scan_number s = Some (lit, r) -> valid_number lit = true.
Proof.
  unfold scan_number, valid_number.
  destruct (nrun NStart s) as [[st l] rest] eqn:E.
  destruct (naccept st) eqn:A; [|discriminate].
  intros H; inversion H; subst.
  now rewrite (nrun_consumed _ _ _ _ _ E), A.
Qed.

Lemma scan_number_app (lit rest : string) :
  valid_number lit = true -> is_delim rest = true ->
  scan_number (lit ++ rest) = Some (lit, rest).
Proof.
  unfold scan_number, valid_number. intros V D.
  destruct (nrun NStart lit) as [[st l] r] eqn:E.
  apply andb_true_iff in V. destruct V as [A R].
  destruct r; [|discriminate].
  pose proof (nrun_split _ _ _ _ _ E) as S. rewrite append_empty_r in S. subst l.
  now rewrite (nrun_app _ _ _ _ E D), A.
Qed.

Lemma valid_number_head (lit : string) :
  valid_number lit = true ->
  exists c l, lit = String c l /\ number_head c = true.
Proof.
  unfold valid_number. destruct lit as [|c l]; simpl; [discriminate|].
  intros H. exists c, l. split; [reflexivity|].
  unfold number_head. unfold nstep in H.
  destruct (c =? "-")%char; [reflexivity|].
  destruct (c =? "0")%char eqn:Z.
  - apply Ascii.eqb_eq in Z. now subst c.
  - destruct (is_digit c); [reflexivity | discriminate].
Qed.

Lemma parse_chars_escape_char (c : ascii) (t : string) :
  parse_chars (escape_char c ++ t) = cons_char c (parse_chars t).
Proof. all_chars c; reflexivity. Qed.

Lemma parse_chars_escape : forall s rest,
  parse_chars (escape s ++ String dquote rest) = Some (s, rest).
Proof.
  induction s as [|c s IH]; intros rest.
  - reflexivity.
  - simpl escape. rewrite append_assoc, parse_chars_escape_char, IH.
    reflexivity.
Qed.

Lemma print_Arr (vs : list value) : print (Arr vs) = "[" ++ print_elems vs ++ "]".
Proof. reflexivity. Qed.

Lemma print_Obj (ms : list (string * value)) :
  print (Obj ms) = "{" ++ print_members ms ++ "}".
Proof. reflexivity. Qed.

Lemma number_head_spec (c : ascii) :
  number_head c = true ->
  is_ws c = false /\ (c =? "[")%char = false /\ (c =? "{")%char = false /\
  (c =? dquote)%char = false /\ (c =? "n")%char = false /\
  (c =? "t")%char = false /\ (c =? "f")%char = false /\ value_head c = true.
Proof.
  all_chars c; intros H; try discriminate H; repeat split.
Qed.

Lemma print_head (v : value) :
  json_value v = true ->
  exists c r, print v = String c r /\ value_head c = true.
Proof.
  destruct v as [| |[]|lit|s|vs|ms]; simpl json_value; intros H;
    try discriminate H;
    try (rewrite ?print_Arr, ?print_Obj; eexists _, _; split; reflexivity).
  destruct (valid_number_head lit H) as (c & l & -> & Hc).
  exists c, l. split; [reflexivity|]. now apply number_head_spec.
Qed.

Lemma skip_ws_head (c : ascii) (r : string) :
  value_head c = true -> skip_ws (String c r) = String c r.
Proof.
  unfold value_head. intros H. simpl.
  destruct (is_ws c); [discriminate | reflexivity].
Qed.

Lemma parse_value_unfold (f : nat) (s : string) :
  parse_value (S f) s =
  match skip_ws s with
  | EmptyString => None
  | String c r =>
      if (c =? "[")%char then
        match starts_with "]" (skip_ws r) with
        | Some r' => Some (Arr [], r')
        | None =>
            match parse_elems f r with
            | Some (vs, r') => Some (Arr vs, r')
            | None => None
            end
        end
      else if (c =? "{")%char then
        match starts_with "}" (skip_ws r) with
        | Some r' => Some (Obj [], r')
        | None =>
            match parse_members f r with
            | Some (ms, r') => Some (Obj ms, r')
            | None => None
            end
        end
      else if (c =? dquote)%char then
        match parse_chars r with
        | Some (str, r') => Some (Str str, r')
        | None => None
        end
      else if (c =? "n")%char then
        match strip_prefix "ull" r with
        | Some r' => Some (Null, r')
        | None => None
        end
      else if (c =? "t")%char then
        match strip_prefix "rue" r with
        | Some r' => Some (Bool true, r')
        | None => None
        end
      else if (c =? "f")%char then
        match strip_prefix "alse" r with
        | Some r' => Some (Bool false, r')
        | None => None
        end
      else
        match scan_number (String c r) with
        | Some (lit, r') => Some (Num lit, r')
        | None => None
        end
  end.
Proof. reflexivity. Qed.

Lemma parse_elems_unfold (f : nat) (s : string) :
  parse_elems (S f) s =
  match parse_value f s with
  | Some (v, r) =>
      match skip_ws r with
      | String c r' =>
          if (c =? ",")%char then
            match parse_elems f r' with
            | Some (vs, r'') => Some (v :: vs, r'')
            | None => None
            end
          else if (c =? "]")%char then Some ([v], r')
          else None
      | EmptyString => None
      end
  | None => None
  end.
Proof. reflexivity. Qed.

Lemma parse_members_unfold (f : nat) (s : string) :
  parse_members (S f) s =
  match skip_ws s with
  | String c r =>
      if (c =? dquote)%char then
        match parse_chars r with
        | Some (key, r1) =>
            match skip_ws r1 with
            | String c1 r2 =>
                if (c1 =? ":")%char then
                  match parse_value f r2 with
                  | Some (v, r3) =>
                      match skip_ws r3 with
                      | String c3 r4 =>
                          if (c3 =? ",")%char then
                            match parse_members f r4 with
                            | Some (ms, r5) => Some ((key, v) :: ms, r5)
                            | None => None
                            end
                          else if (c3 =? "}")%char then Some ([(key, v)], r4)
                          else None
                      | EmptyString => None
                      end
                  | None => None
                  end
                else None
            | EmptyString => None
            end
        | None => None
        end
      else None
  | EmptyString => None
  end.
Proof. reflexivity. Qed.

Lemma starts_with_head (c d : ascii) (r : string) :
  value_head c = true -> (d =? "]")%char || (d =? "}")%char = true ->
  starts_with d (skip_ws (String c r)) = None.
Proof.
  intros H D. rewrite (skip_ws_head _ _ H). unfold value_head in H. simpl.
  destruct (Ascii.eqb_spec c d) as [->|]; [|reflexivity].
  apply andb_true_iff in H. destruct H as [H H3].
  apply andb_true_iff in H. destruct H as [H1 H2].
  destruct (d =? "]")%char; [discriminate|].
  destruct (d =? "}")%char; discriminate.
Qed.

Lemma reads_back_elems : forall l,
  Forall reads_back l -> forallb json_value l = true -> l <> [] ->
  forall f rest, needs l <= f ->
  parse_elems f (print_elems l ++ String "]" rest) = Some (l, rest).
Proof.
  induction l as [|x l IH]; intros HF HJ HN f rest Hf; [congruence|].
  inversion HF as [|? ? Hx HF']; subst.
  simpl in HJ. apply andb_true_iff in HJ. destruct HJ as [Jx Jl].
  change (needs (x :: l)) with (1 + need x + needs l) in Hf.
  destruct f as [|f]; [lia|]. rewrite parse_elems_unfold.
  simpl print_elems. rewrite append_assoc.
  destruct l as [|y l'].
  - simpl append at 2. rewrite (Hx Jx f (String "]" rest)) by (reflexivity || lia).
    reflexivity.
  - change (print x ++ String "," (print_elems (y :: l')) ++ String "]" rest)
      with (print x ++ String "," (print_elems (y :: l') ++ String "]" rest)).
    rewrite (Hx Jx f (String "," (print_elems (y :: l') ++ String "]" rest)))
      by (reflexivity || lia).
    change (skip_ws (String "," ?t)) with (String ","%char t).
    cbv beta iota. change ("," =? ",")%char with true. cbv iota.
    rewrite (IH HF' Jl) by (congruence || lia). reflexivity.
Qed.

Lemma reads_back_members : forall l,
  Forall (fun m => reads_back (snd m)) l ->
  forallb (fun m => json_value (snd m)) l = true -> l <> [] ->
  forall f rest, needs_members l <= f ->
  parse_members f (print_members l ++ String "}" rest) = Some (l, rest).
Proof.
  induction l as [|[k x] l IH]; intros HF HJ HN f rest Hf; [congruence|].
  inversion HF as [|? ? Hx HF']; subst. simpl in Hx.
  simpl in HJ. apply andb_true_iff in HJ. destruct HJ as [Jx Jl].
  change (needs_members ((k, x) :: l)) with (1 + need x + needs_members l) in Hf.
  destruct f as [|f]; [lia|]. rewrite parse_members_unfold.
  simpl print_members. unfold quote.
  change (skip_ws (String dquote ?t ++ ?u)) with (String dquote (t ++ u)).
  cbv beta iota. change (dquote =? dquote)%char with true. cbv iota.
  rewrite !append_assoc. simpl append at 2.
  rewrite parse_chars_escape.
  change (skip_ws (String ":" ?t)) with (String ":"%char t).
  cbv beta iota. change (":" =? ":")%char with true. cbv iota.
  rewrite append_assoc.
  destruct l as [|y l'].
  - change (EmptyString ++ String "}" rest) with (String "}" rest).
    rewrite (Hx Jx f (String "}" rest)) by (reflexivity || lia).
    reflexivity.
  - change (print x ++ String "," (print_members (y :: l')) ++ String "}" rest)
      with (print x ++ String "," (print_members (y :: l') ++ String "}" rest)).
    rewrite (Hx Jx f (String "," (print_members (y :: l') ++ String "}" rest)))
      by (reflexivity || lia).
    change (skip_ws (String "," ?t)) with (String ","%char t).
    cbv beta iota. change ("," =? ",")%char with true. cbv iota.
    rewrite (IH HF' Jl) by (congruence || lia). reflexivity.
Qed.

Lemma reads_back_all (v : value) : reads_back v.
Proof.
  induction v as [| |b|lit|s|vs IH|ms IH] using value_nested_ind;
    unfold reads_back; intros J f rest Hf D; simpl in J;
    try discriminate J; (destruct f as [|f]; [simpl in Hf; lia|]).
  - reflexivity.
  - destruct b; reflexivity.
  - destruct (valid_number_head lit J) as (c & l & -> & Hc).
    destruct (number_head_spec c Hc) as (W & H1 & H2 & H3 & H4 & H5 & H6 & H7).
    rewrite parse_value_unfold. simpl print. simpl append.
    rewrite (skip_ws_head _ _ H7), H1, H2, H3, H4, H5, H6.
    change (String c (l ++ rest)) with (String c l ++ rest).
    now rewrite (scan_number_app _ _ J D).
  - rewrite parse_value_unfold. simpl print. unfold quote.
    change (skip_ws (String dquote ?t ++ ?u)) with (String dquote (t ++ u)).
    cbv beta iota.
    change (dquote =? "[")%char with false.
    change (dquote =? "{")%char with false.
    change (dquote =? dquote)%char with true. cbv iota.
    rewrite append_assoc. simpl append at 2.
    now rewrite parse_chars_escape.
  - rewrite parse_value_unfold, print_Arr.
    change (skip_ws (("[" ++ ?t) ++ ?u)) with (String "["%char (t ++ u)).
    cbv beta iota. change ("[" =? "[")%char with true. cbv iota.
    rewrite append_assoc. simpl append at 2.
    destruct vs as [|x l]; [reflexivity|].
    assert (Hh : starts_with "]" (skip_ws (print_elems (x :: l) ++ String "]" rest)) = None).
    { simpl in J. apply andb_true_iff in J. destruct J as [Jx _].
      destruct (print_head x Jx) as (c & r & E & Hc).
      simpl print_elems. rewrite E. simpl append.
      now apply starts_with_head. }
    rewrite Hh. change ("]" ++ rest) with (String "]" rest).
    rewrite (reads_back_elems _ IH J) by (congruence || (change (need (Arr (x :: l))) with (1 + needs (x :: l)) in Hf; lia)).
    reflexivity.
  - rewrite parse_value_unfold, print_Obj.
    change (skip_ws (("{" ++ ?t) ++ ?u)) with (String "{"%char (t ++ u)).
    cbv beta iota.
    change ("{" =? "[")%char with false.
    change ("{" =? "{")%char with true. cbv iota.
    rewrite append_assoc. simpl append at 2.
    destruct ms as [|x l]; [reflexivity|].
    change ("}" ++ rest) with (String "}" rest).
    rewrite (reads_back_members _ IH J)
      by (congruence || (change (need (Obj (x :: l))) with (1 + needs_members (x :: l)) in Hf; lia)).
    reflexivity.
Qed.

(** *** The parser yields JSON values *)

Ltac split_match :=
  match goal with
  | |- context [match ?x with _ => _ end] =>
      let E := fresh "E" in destruct x eqn:E
  | |- context [if ?b then _ else _] =>
      let E := fresh "E" in destruct b eqn:E
  end.

Lemma parse_json_value_fuel (f : nat) :
  (forall s v r, parse_value f s = Some (v, r) -> json_value v = true) /\
  (forall s vs r, parse_elems f s = Some (vs, r) -> forallb json_value vs = true) /\
  (forall s ms r, parse_members f s = Some (ms, r) ->
                  forallb (fun m => json_value (snd m)) ms = true).
Proof.
  induction f as [|f (IHv & IHe & IHm)].
  - repeat split; intros; discriminate.
  - repeat split.
    + intros s v r. rewrite parse_value_unfold.
      repeat split_match; intros H; inversion H; subst; try reflexivity; simpl.
      * eapply IHe; eauto.
      * eapply IHm; eauto.
      * eapply scan_number_valid; eauto.
    + intros s vs r. rewrite parse_elems_unfold.
      repeat split_match; intros H; inversion H; subst; simpl;
        rewrite ?andb_true_r; try apply andb_true_iff; try split; eauto.
    + intros s ms r. rewrite parse_members_unfold.
      repeat split_match; intros H; inversion H; subst; simpl;
        rewrite ?andb_true_r; try apply andb_true_iff; try split; eauto.
Qed.

(** *** What [clean] does *)

Lemma json_value_well_formed (v : value) : json_value v = true -> well_formed v = true.
Proof.
  induction v as [| |b|lit|s|vs IH|ms IH] using value_nested_ind; simpl;
    try easy.
  - intros H. rewrite forallb_forall in *. rewrite Forall_forall in IH. auto.
  - intros H. rewrite forallb_forall in *. rewrite Forall_forall in IH. auto.
Qed.

Lemma clean_json_value (v : value) : json_value v = true -> clean v = v.
Proof.
  induction v as [| |b|lit|s|vs IH|ms IH] using value_nested_ind; simpl;
    try easy; intros H; f_equal.
  - induction vs as [|x l IHl]; [reflexivity|].
    inversion IH as [|? ? Hx Hl]; subst. simpl in H.
    apply andb_true_iff in H. destruct H as [Jx Jl].
    simpl. rewrite (Hx Jx), (IHl Hl Jl).
    destruct x; try reflexivity; discriminate.
  - induction ms as [|[k x] l IHl]; [reflexivity|].
    inversion IH as [|? ? Hx Hl]; subst. simpl in H, Hx.
    apply andb_true_iff in H. destruct H as [Jx Jl].
    simpl. rewrite (Hx Jx), (IHl Hl Jl).
    destruct x; try reflexivity; discriminate.
Qed.

Lemma json_value_clean (v : value) :
  well_formed v = true -> is_undefined v = false -> json_value (clean v) = true.
Proof.
  induction v as [| |b|lit|s|vs IH|ms IH] using value_nested_ind; simpl;
    try easy; intros H _.
  - induction vs as [|x l IHl]; [reflexivity|].
    inversion IH as [|? ? Hx Hl]; subst. simpl in H.
    apply andb_true_iff in H. destruct H as [Wx Wl].
    simpl. rewrite (IHl Hl Wl), andb_true_r.
    destruct (is_undefined x) eqn:U; [reflexivity | auto].
  - induction ms as [|[k x] l IHl]; [reflexivity|].
    inversion IH as [|? ? Hx Hl]; subst. simpl in H, Hx.
    apply andb_true_iff in H. destruct H as [Wx Wl].
    simpl. destruct (is_undefined x) eqn:U; [auto|].
    simpl. rewrite (IHl Hl Wl), andb_true_r. auto.
Qed.

(** *** The fuel of [parse] is enough for the text of any value *)

Lemma needs_le_print_elems : forall l,
  Forall (fun v => json_value v = true -> need v <= String.length (print v)) l ->
  forallb json_value l = true ->
  needs l <= String.length (print_elems l) + 1.
Proof.
  induction l as [|x l IH]; intros HF HJ; [simpl; lia|].
  inversion HF as [|? ? Hx Hl]; subst. simpl in HJ.
  apply andb_true_iff in HJ. destruct HJ as [Jx Jl].
  specialize (Hx Jx). specialize (IH Hl Jl).
  change (needs (x :: l)) with (1 + need x + needs l).
  simpl print_elems. rewrite length_append.
  destruct l as [|y l']; [simpl; lia|].
  change (String.length (String "," (print_elems (y :: l'))))
    with (S (String.length (print_elems (y :: l')))).
  lia.
Qed.

Lemma needs_le_print_members : forall l,
  Forall (fun m => json_value (snd m) = true ->
                   need (snd m) <= String.length (print (snd m))) l ->
  forallb (fun m => json_value (snd m)) l = true ->
  needs_members l <= String.length (print_members l) + 1.
Proof.
  induction l as [|[k x] l IH]; intros HF HJ; [simpl; lia|].
  inversion HF as [|? ? Hx Hl]; subst. simpl in HJ, Hx.
  apply andb_true_iff in HJ. destruct HJ as [Jx Jl].
  specialize (Hx Jx). specialize (IH Hl Jl).
  change (needs_members ((k, x) :: l)) with (1 + need x + needs_members l).
  change (print_members ((k, x) :: l))
    with (quote k ++ String ":" (print x ++ match l with
                                            | [] => EmptyString
                                            | _ :: _ => String "," (print_members l)
                                            end)).
  rewrite length_append.
  change (String.length (String ":" ?t)) with (S (String.length t)).
  rewrite length_append.
  destruct l as [|y l']; [simpl; lia|].
  change (String.length (String "," (print_members (y :: l'))))
    with (S (String.length (print_members (y :: l')))).
  lia.
Qed.

Lemma need_le_print (v : value) :
  json_value v = true -> need v <= String.length (print v).
Proof.
  induction v as [| |b|lit|s|vs IH|ms IH] using value_nested_ind;
    intros J; try (simpl; lia).
  - destruct b; simpl; lia.
  - destruct (valid_number_head lit J) as (c & l & -> & _). simpl. lia.
  - rewrite print_Arr. change (need (Arr vs)) with (1 + needs vs).
    pose proof (needs_le_print_elems vs IH J).
    simpl String.length. rewrite length_append. simpl. lia.
  - rewrite print_Obj. change (need (Obj ms)) with (1 + needs_members ms).
    pose proof (needs_le_print_members ms IH J).
    simpl String.length. rewrite length_append. simpl. lia.
Qed.

(** *** Round trip *)

Theorem parse_print (v : value) : json_value v = true -> parse (print v) = Some v.
Proof.
  intros J. unfold parse.
  pose proof (need_le_print v J) as Hn.
  assert (Hp : parse_value (parse_fuel (print v)) (print v) = Some (v, EmptyString)).
  { rewrite <- (append_empty_r (print v)) at 2.
    apply reads_back_all; [exact J | unfold parse_fuel; lia | reflexivity]. }
  now rewrite Hp.
Qed.

Theorem parse_stringify (v : value) :
  well_formed v = true -> is_undefined v = false ->
  parse (stringify v) = Some (clean v).
Proof.
  intros W U. unfold stringify. rewrite U.
  apply parse_print. now apply json_value_clean.
Qed.

Theorem parse_json_value (s : string) (v : value) :
  parse s = Some v -> json_value v = true.
Proof.
  unfold parse.
  destruct (parse_value (parse_fuel s) s) as [[w r]|] eqn:E; [|discriminate].
  destruct (is_empty (skip_ws r)); [|discriminate].
  intros H; inversion H; subst.
  eapply (proj1 (parse_json_value_fuel _)); eauto.
Qed.

Lemma parse_empty : parse EmptyString = None.
Proof. reflexivity. Qed.

(** *** The fuel of [parse] is enough for any text

    More fuel than [parse_fuel] never changes the outcome: when [parse]
    fails, the text is not JSON. *)

Lemma skip_ws_length (s : string) : String.length (skip_ws s) <= String.length s.
Proof.
  induction s as [|c s IH]; simpl; [lia|].
  destruct (is_ws c); simpl; lia.
Qed.

Lemma skip_ws_cons_length (s r : string) (c : ascii) :
  skip_ws s = String c r -> String.length r < String.length s.
Proof.
  intros E. pose proof (skip_ws_length s) as H. rewrite E in H. simpl in H. lia.
Qed.

Lemma starts_with_length (c : ascii) (s r : string) :
  starts_with c s = Some r -> String.length r < String.length s.
Proof.
  destruct s as [|c' s]; simpl; [discriminate|].
  destruct (c' =? c)%char; [|discriminate].
  intros H; inversion H; subst. lia.
Qed.

Lemma strip_prefix_length : forall p s r,
  strip_prefix p s = Some r -> String.length r <= String.length s.
Proof.
  induction p as [|a p IH]; intros s r; simpl.
  - intros H; inversion H; subst. lia.
  - destruct s as [|b s]; [discriminate|].
    destruct (a =? b)%char; [|discriminate].
    intros H. apply IH in H. simpl. lia.
Qed.

Lemma cons_char_length (c : ascii) (o : option (string * string)) (x r : string) (n : nat) :
  (forall x' r', o = Some (x', r') -> String.length r' < n) ->
  cons_char c o = Some (x, r) -> String.length r < n.
Proof.
  intros H. destruct o as [[x' r']|]; simpl; [|discriminate].
  intros E; inversion E; subst. eapply H; eauto.
Qed.

Lemma parse_chars_length : forall n s x r,
  String.length s <= n ->
  parse_chars s = Some (x, r) -> String.length r < String.length s.
Proof.
  induction n as [|n IH]; intros s x r Hn.
  - destruct s; [discriminate | simpl in Hn; lia].
  - destruct s as [|c s]; [discriminate|]. simpl in Hn.
    simpl parse_chars.
    destruct (c =? dquote)%char.
    { intros H; inversion H; subst. simpl. lia. }
    destruct (c =? backslash)%char.
    + destruct s as [|e s1]; [discriminate|].
      destruct (e =? "u")%char.
      * destruct s1 as [|h1 [|h2 [|h3 [|h4 s5]]]]; try discriminate.
        destruct (hex4 h1 h2 h3 h4) as [k|]; [|discriminate].
        destruct (k <? 256)%nat; [|discriminate].
        intros H. simpl in *.
        apply (cons_char_length _ _ _ _ (S (S (S (S (S (S (String.length s5)))))))) in H;
          [exact H|].
        intros x' r' E. apply IH in E; [lia | lia].
      * destruct (unescape e) as [c'|]; [|discriminate].
        intros H. simpl in *.
        apply (cons_char_length _ _ _ _ (S (S (String.length s1)))) in H; [exact H|].
        intros x' r' E. apply IH in E; [lia | lia].
    + destruct (nat_of_ascii c <? 32)%nat; [discriminate|].
      intros H. simpl.
      apply (cons_char_length _ _ _ _ (S (String.length s))) in H; [exact H|].
      intros x' r' E. apply IH in E; [lia | lia].
Qed.

Lemma scan_number_length (s lit r : string) :
  scan_number s = Some (lit, r) -> String.length r <= String.length s.
Proof.
  unfold scan_number.
  destruct (nrun NStart s) as [[st l] rest] eqn:E.
  destruct (naccept st); [|discriminate].
  intros H; inversion H; subst.
  rewrite (nrun_split _ _ _ _ _ E), length_append. lia.
Qed.

(** What the parser leaves is never longer than what it was given. *)
Lemma parse_rest_length (f : nat) :
  (forall s v r, parse_value f s = Some (v, r) -> String.length r <= String.length s) /\
  (forall s vs r, parse_elems f s = Some (vs, r) -> String.length r <= String.length s) /\
  (forall s ms r, parse_members f s = Some (ms, r) -> String.length r <= String.length s).
Proof.
  induction f as [|f (IHv & IHe & IHm)].
  - repeat split; intros; discriminate.
  - repeat split.
    + intros s v r. rewrite parse_value_unfold.
      destruct (skip_ws s) as [|c r0] eqn:W; [discriminate|].
      apply skip_ws_cons_length in W.
      repeat split_match; intros H; inversion H; subst;
        repeat match goal with
               | E : starts_with _ (skip_ws ?t) = Some _ |- _ =>
                   apply starts_with_length in E; pose proof (skip_ws_length t)
               | E : parse_elems f _ = Some _ |- _ => apply IHe in E
               | E : parse_members f _ = Some _ |- _ => apply IHm in E
               | E : parse_chars _ = Some _ |- _ =>
                   eapply parse_chars_length in E; [|apply Nat.le_refl]
               | E : strip_prefix _ _ = Some _ |- _ => apply strip_prefix_length in E
               | E : scan_number _ = Some _ |- _ =>
                   apply scan_number_length in E; simpl in E
               end; lia.
    + intros s vs r. rewrite parse_elems_unfold.
      destruct (parse_value f s) as [[v r0]|] eqn:V; [|discriminate].
      apply IHv in V.
      destruct (skip_ws r0) as [|c r1] eqn:W; [discriminate|].
      apply skip_ws_cons_length in W.
      repeat split_match; intros H; inversion H; subst;
        repeat match goal with
               | E : parse_elems f _ = Some _ |- _ => apply IHe in E
               end; lia.
    + intros s ms r. rewrite parse_members_unfold.
      destruct (skip_ws s) as [|c r0] eqn:W; [discriminate|].
      apply skip_ws_cons_length in W.
      destruct (c =? dquote)%char; [|discriminate].
      destruct (parse_chars r0) as [[key r1]|] eqn:K; [|discriminate].
      eapply parse_chars_length in K; [|apply Nat.le_refl].
      destruct (skip_ws r1) as [|c1 r2] eqn:W1; [discriminate|].
      apply skip_ws_cons_length in W1.
      destruct (c1 =? ":")%char; [|discriminate].
      destruct (parse_value f r2) as [[v r3]|] eqn:V; [|discriminate].
      apply IHv in V.
      destruct (skip_ws r3) as [|c3 r4] eqn:W3; [discriminate|].
      apply skip_ws_cons_length in W3.
      repeat split_match; intros H; inversion H; subst;
        repeat match goal with
               | E : parse_members f _ = Some _ |- _ => apply IHm in E
               end; lia.
Qed.

(** One more unit of fuel changes nothing once there is enough. *)
Lemma parse_fuel_step (f : nat) :
  (forall s, 2 * String.length s + 1 <= f -> parse_value (S f) s = parse_value f s) /\
  (forall s, 2 * String.length s + 2 <= f -> parse_elems (S f) s = parse_elems f s) /\
  (forall s, 2 * String.length s + 2 <= f -> parse_members (S f) s = parse_members f s).
Proof.
  induction f as [|f (IHv & IHe & IHm)].
  - repeat split; intros; lia.
  - repeat split.
    + intros s Hf. rewrite (parse_value_unfold (S f)), (parse_value_unfold f).
      destruct (skip_ws s) as [|c r] eqn:W; [reflexivity|].
      apply skip_ws_cons_length in W.
      rewrite (IHe r) by lia. rewrite (IHm r) by lia. reflexivity.
    + intros s Hf. rewrite (parse_elems_unfold (S f)), (parse_elems_unfold f).
      rewrite (IHv s) by lia.
      destruct (parse_value f s) as [[v r]|] eqn:V; [|reflexivity].
      apply (proj1 (parse_rest_length f)) in V.
      destruct (skip_ws r) as [|c r'] eqn:W; [reflexivity|].
      apply skip_ws_cons_length in W.
      rewrite (IHe r') by lia. reflexivity.
    + intros s Hf. rewrite (parse_members_unfold (S f)), (parse_members_unfold f).
      destruct (skip_ws s) as [|c r0] eqn:W; [reflexivity|].
      apply skip_ws_cons_length in W.
      destruct (c =? dquote)%char; [|reflexivity].
      destruct (parse_chars r0) as [[key r1]|] eqn:K; [|reflexivity].
      eapply parse_chars_length in K; [|apply Nat.le_refl].
      destruct (skip_ws r1) as [|c1 r2] eqn:W1; [reflexivity|].
      apply skip_ws_cons_length in W1.
      destruct (c1 =? ":")%char; [|reflexivity].
      rewrite (IHv r2) by lia.
      destruct (parse_value f r2) as [[v r3]|] eqn:V; [|reflexivity].
      apply (proj1 (parse_rest_length f)) in V.
      destruct (skip_ws r3) as [|c3 r4] eqn:W3; [reflexivity|].
      apply skip_ws_cons_length in W3.
      rewrite (IHm r4) by lia. reflexivity.
Qed.

Theorem parse_fuel_enough (s : string) (f : nat) :
  parse_fuel s <= f -> parse_value f s = parse_value (parse_fuel s) s.
Proof.
  intros H. induction H as [|f H IH]; [reflexivity|].
  rewrite <- IH. apply (proj1 (parse_fuel_step f)).
  unfold parse_fuel in H. lia.
Qed.

End JSONFacts.

(** * Properties of the methods *)

Module ShAIAppFacts.

Import JSONFacts.

(** ** What each method does to the state *)

Lemma getLocalHistory_run (st : State) :
  getLocalHistory st =
  (Ok (load_value (storage st)),
   if load_fails (storage st) then logged "Failed to load local history:" st else st).
Proof.
  unfold getLocalHistory, try_catch, bind, localStorage_getItem, load_value, load_fails.
  destruct (blocked (storage st)); [reflexivity|].
  destruct (cell (storage st)) as [text|]; [|reflexivity].
  destruct (is_empty text); [reflexivity|].
  unfold JSON_parse, lift. destruct (parse text); reflexivity.
Qed.

Lemma load_run (st : State) : load st = Ok (load_value (storage st)).
Proof. unfold load. now rewrite getLocalHistory_run. Qed.

Lemma load_value_json (sto : Storage) : json_value (load_value sto) = true.
Proof.
  unfold load_value. destruct (blocked sto); [reflexivity|].
  destruct (cell sto) as [text|]; [|reflexivity].
  destruct (is_empty text); [reflexivity|].
  destruct (parse text) as [v|] eqn:E; [|reflexivity].
  now apply parse_json_value in E.
Qed.

Lemma saveLocalHistory_run (history : value) (st : State) :
  saveLocalHistory history st =
  (Ok tt,
   if accepts (storage st) history
   then {| storage := with_cell (Some (stringify history)) (storage st);
           page := page st |}
   else logged "Failed to save local history:" st).
Proof.
  unfold saveLocalHistory, try_catch, localStorage_setItem, accepts.
  destruct (blocked (storage st)); [reflexivity|].
  simpl. destruct (fits (stringify history) (storage st)); reflexivity.
Qed.

(** *** Methods that write the page only *)

Lemma keeps_ret {A} (a : A) : keeps_storage (ret a).
Proof. intros st; reflexivity. Qed.

Lemma keeps_throw {A} (e : exn) : keeps_storage (@throw A e).
Proof. intros st; reflexivity. Qed.

Lemma keeps_lift {A} (r : option A) (e : exn) : keeps_storage (lift r e).
Proof. destruct r; intros st; reflexivity. Qed.

Lemma keeps_update_page (f : Page -> Page) : keeps_storage (update_page f).
Proof. intros st; reflexivity. Qed.

Lemma keeps_bind {A B} (m : M A) (k : A -> M B) :
  keeps_storage m -> (forall a, keeps_storage (k a)) -> keeps_storage (bind m k).
Proof.
  intros Hm Hk st. unfold bind. specialize (Hm st).
  destruct (m st) as [[a|e] st']; simpl in *; [|exact Hm].
  now rewrite Hk.
Qed.

Lemma keeps_try_catch {A} (m : M A) (h : exn -> M A) :
  keeps_storage m -> (forall e, keeps_storage (h e)) -> keeps_storage (try_catch m h).
Proof.
  intros Hm Hh st. unfold try_catch. specialize (Hm st).
  destruct (m st) as [[a|e] st']; simpl in *; [exact Hm|].
  now rewrite Hh.
Qed.

Lemma keeps_forEach (f : value -> M unit) (l : list value) :
  (forall x, keeps_storage (f x)) -> keeps_storage (forEach f l).
Proof.
  intros Hf. induction l as [|x l IH]; simpl.
  - apply keeps_ret.
  - apply keeps_bind; auto.
Qed.

Lemma keeps_as_array (v : value) : keeps_storage (as_array v).
Proof. destruct v; intros st; reflexivity. Qed.

Create HintDb keeps.
#[local] Hint Resolve keeps_ret keeps_throw keeps_lift keeps_update_page
  keeps_as_array : keeps.

Ltac keeps :=
  repeat first
    [ solve [auto with keeps]
    | apply keeps_bind; [|intros ?]
    | apply keeps_try_catch; [|intros ?]
    | apply keeps_forEach; intros ? ].

Lemma keeps_createHistoryItem (item : value) : keeps_storage (createHistoryItem item).
Proof. unfold createHistoryItem. keeps. Qed.
#[local] Hint Resolve keeps_createHistoryItem : keeps.

Lemma keeps_syncMobileHistory (history : value) :
  keeps_storage (syncMobileHistory history).
Proof.
  intros st. unfold syncMobileHistory.
  destruct (mobileHistory (page st)); [|reflexivity].
  revert st. fold (keeps_storage
    (update_page (set_mobileHistory (Some [])) ;;
     (if falsy history || length_is_zero history then ret tt
      else l <- as_array history ;;
           forEach (fun item =>
                      row <- createMobileHistoryItem item ;;
                      update_page (fun p =>
                        set_mobileHistory
                          (option_map (fun rows => rows ++ [row])%list (mobileHistory p)) p))
                   l))).
  keeps. destruct (falsy history || length_is_zero history); keeps.
Qed.
#[local] Hint Resolve keeps_syncMobileHistory : keeps.

Lemma keeps_displayHistory (history : value) : keeps_storage (displayHistory history).
Proof.
  unfold displayHistory. keeps.
  destruct (falsy history || length_is_zero history); keeps.
Qed.

Lemma keeps_getLocalHistory : keeps_storage getLocalHistory.
Proof.
  intros st. rewrite getLocalHistory_run. simpl.
  now destruct (load_fails (storage st)).
Qed.

Lemma keeps_console_error (label : string) : keeps_storage (console_error label).
Proof. apply keeps_update_page. Qed.

Lemma keeps_showError (message : string) : keeps_storage (showError message).
Proof. apply keeps_update_page. Qed.

Lemma keeps_showTemporaryMessage (message type : string) :
  keeps_storage (showTemporaryMessage message type).
Proof. apply keeps_update_page. Qed.

#[local] Hint Resolve keeps_displayHistory keeps_getLocalHistory
  keeps_console_error keeps_showError keeps_showTemporaryMessage : keeps.

Lemma keeps_loadHistory : keeps_storage loadHistory.
Proof. unfold loadHistory. keeps. Qed.

Lemma loadHistory_ok (st : State) : fst (loadHistory st) = Ok tt.
Proof.
  unfold loadHistory, try_catch.
  destruct ((history <- getLocalHistory ;; displayHistory history) st)
    as [[[]|e] st']; reflexivity.
Qed.

Lemma loadHistory_run (st : State) :
  exists st', loadHistory st = (Ok tt, st') /\ storage st' = storage st.
Proof.
  exists (snd (loadHistory st)). split.
  - rewrite <- (loadHistory_ok st). now destruct (loadHistory st).
  - apply keeps_loadHistory.
Qed.

(** *** [addToLocalHistory] *)

Lemma historyItem_run (data : value) (now : N) (random : string) (st : State) :
  historyItem data now random st =
  (if readable data then Ok (item_of data now random) else Throw TypeError, st).
Proof. destruct data; reflexivity. Qed.

Lemma truncate_firstn {A} (l : list A) :
  (if (50 <? List.length l)%nat then firstn 50 l else l) = firstn 50 l.
Proof.
  destruct (Nat.ltb_spec 50 (List.length l)); [reflexivity|].
  symmetry. now apply firstn_all2.
Qed.

Lemma addToLocalHistory_run (data : value) (now : N) (random : string) (st : State) :
  exists st', addToLocalHistory data now random st = (Ok Undefined, st') /\
              storage st' = add_storage data now random (storage st).
Proof.
  unfold addToLocalHistory, add_storage.
  unfold bind at 1. unfold try_catch. unfold bind at 1.
  rewrite getLocalHistory_run.
  set (st1 := if load_fails (storage st) then _ else st).
  assert (S1 : storage st1 = storage st) by (subst st1; now destruct (load_fails _)).
  unfold bind at 1. rewrite historyItem_run.
  destruct (readable data); simpl andb.
  2:{ eexists; split; [reflexivity|]. simpl. rewrite S1.
      now destruct (load_value (storage st)). }
  unfold bind at 1.
  destruct (load_value (storage st)) as [| | | | |items|] eqn:L;
    try (eexists; split; [reflexivity | exact S1]).
  simpl as_array. unfold ret at 1. rewrite truncate_firstn.
  fold (added data now random items).
  unfold bind at 1. rewrite saveLocalHistory_run. rewrite S1.
  set (st2 := if accepts (storage st) _ then _ else _).
  destruct (loadHistory_run st2) as (st3 & -> & S3).
  eexists; split; [reflexivity|]. rewrite S3. subst st2.
  destruct (accepts (storage st) (added data now random items)); simpl; congruence.
Qed.

(** *** [deleteHistoryItem] *)

Lemma filterM_run (id : string) (l : list value) (st : State) :
  filterM (fun item =>
             item_id <- lift (get_prop item "id") TypeError ;;
             ret (differs_from item_id id)) l st =
  (if forallb readable l then Ok (filter (keep_other id) l) else Throw TypeError, st).
Proof.
  induction l as [|x l IH]; [reflexivity|].
  simpl filterM. unfold bind at 1. unfold bind at 1.
  destruct x; simpl; try reflexivity;
    unfold bind at 1; rewrite IH; destruct (forallb readable l); reflexivity.
Qed.

Lemma deleteHistoryItem_run (id : string) (st : State) :
  exists st', deleteHistoryItem id st = (Ok Undefined, st') /\
              storage st' = delete_storage id (storage st).
Proof.
  unfold deleteHistoryItem, delete_storage.
  unfold bind at 1. unfold try_catch. unfold bind at 1.
  rewrite getLocalHistory_run.
  set (st1 := if load_fails (storage st) then _ else st).
  assert (S1 : storage st1 = storage st) by (subst st1; now destruct (load_fails _)).
  unfold bind at 1.
  destruct (load_value (storage st)) as [| | | | |items|] eqn:L;
    try (eexists; split; [reflexivity | exact S1]).
  simpl as_array. unfold ret at 1.
  unfold bind at 1. rewrite filterM_run.
  destruct (forallb readable items); simpl andb.
  2:{ eexists; split; [reflexivity | exact S1]. }
  fold (removed id items).
  unfold bind at 1. rewrite saveLocalHistory_run. rewrite S1.
  set (st2 := if accepts (storage st) _ then _ else _).
  unfold bind at 1.
  destruct (loadHistory_run st2) as (st3 & -> & S3).
  eexists; split; [reflexivity|]. simpl. rewrite S3. subst st2.
  destruct (accepts (storage st) (removed id items)); simpl; congruence.
Qed.

(** *** [clearHistory] *)

Lemma clearHistory_run (confirmed : bool) (st : State) :
  exists st', clearHistory confirmed st = (Ok Undefined, st') /\
              storage st' = clear_storage confirmed (storage st).
Proof.
  unfold clear_storage.
  destruct confirmed; [|eexists; split; reflexivity].
  unfold clearHistory. change (negb true) with false. cbv beta iota.
  unfold bind at 1. unfold try_catch. unfold bind at 1.
  unfold localStorage_removeItem.
  destruct (blocked (storage st)); simpl andb; cbv iota.
  - eexists; split; reflexivity.
  - match goal with
    | |- context [bind ?m ?k ?s] =>
        pose proof (keeps_bind m k) as K; specialize (K ltac:(keeps) ltac:(intros; keeps) s);
        destruct (bind m k s) as [[[]|e] st'] eqn:E
    end; simpl in K; eexists; (split; [reflexivity|]); simpl; exact K.
Qed.

(** ** Reading back what was saved *)

Lemma stringify_not_empty (h : value) :
  well_formed h = true -> is_undefined h = false -> is_empty (stringify h) = false.
Proof.
  intros W U. pose proof (parse_stringify h W U) as P.
  destruct (stringify h); [|reflexivity].
  rewrite parse_empty in P. discriminate.
Qed.

Lemma load_value_saved (sto : Storage) (h : value) :
  blocked sto = false -> well_formed h = true -> is_undefined h = false ->
  load_value (with_cell (Some (stringify h)) sto) = clean h.
Proof.
  intros B W U. unfold load_value. simpl. rewrite B.
  now rewrite (stringify_not_empty h W U), (parse_stringify h W U).
Qed.

Lemma accepts_not_blocked (sto : Storage) (h : value) :
  accepts sto h = true -> blocked sto = false.
Proof.
  unfold accepts. destruct (blocked sto); [discriminate | reflexivity].
Qed.

Lemma find_member_json (k : string) (ms : list (string * value)) (v : value) :
  forallb (fun m => json_value (snd m)) ms = true ->
  find_member k ms = Some v -> json_value v = true.
Proof.
  induction ms as [|[k' x] ms IH]; simpl; intros J F; [discriminate|].
  apply andb_true_iff in J. destruct J as [Jx Jm].
  destruct (find_member k ms) as [w|].
  - inversion F; subst. now apply IH.
  - destruct (k' =? k)%string; [|discriminate]. now inversion F; subst.
Qed.

Lemma prop_well_formed (data : value) (k : string) :
  json_object data = true -> well_formed (prop data k) = true.
Proof.
  destruct data as [| | | | | |ms]; try discriminate. simpl. intros J.
  unfold prop, get_prop, lookup.
  destruct (find_member k ms) as [v|] eqn:F; [|reflexivity].
  apply json_value_well_formed. eapply find_member_json; eauto.
Qed.

Lemma item_well_formed (data : value) (now : N) (random : string) :
  json_object data = true -> well_formed (item_of data now random) = true.
Proof.
  intros J. unfold item_of. simpl.
  now rewrite !(prop_well_formed data _ J).
Qed.

Lemma record_json (data : value) (now : N) (random : string) :
  json_object data = true -> json_value (record data now random) = true.
Proof.
  intros J. apply json_value_clean; [now apply item_well_formed | reflexivity].
Qed.

Lemma forallb_firstn {A} (f : A -> bool) (n : nat) (l : list A) :
  forallb f l = true -> forallb f (firstn n l) = true.
Proof.
  revert n. induction l as [|x l IH]; intros [|n]; simpl; try reflexivity.
  intros H. apply andb_true_iff in H. destruct H as [Hx Hl].
  now rewrite Hx, IH.
Qed.

Lemma forallb_filter {A} (f p : A -> bool) (l : list A) :
  forallb f l = true -> forallb f (filter p l) = true.
Proof.
  induction l as [|x l IH]; simpl; [reflexivity|].
  intros H. apply andb_true_iff in H. destruct H as [Hx Hl].
  destruct (p x); simpl; [rewrite Hx|]; auto.
Qed.

Lemma clean_elems_json (l : list value) :
  forallb json_value l = true ->
  map (fun e => if is_undefined e then Null else clean e) l = l.
Proof.
  intros J. pose proof (clean_json_value (Arr l) J) as C.
  simpl in C. injection C as C. exact C.
Qed.

Lemma clean_added (data : value) (now : N) (random : string) (items : list value) :
  forallb json_value items = true ->
  clean (added data now random items) =
  Arr (firstn 50 (record data now random :: items)).
Proof.
  intros J. unfold added, record.
  set (f := fun e => if is_undefined e then Null else clean e).
  change (Arr (map f (firstn 50 (item_of data now random :: items))) =
          Arr (firstn 50 (f (item_of data now random) :: items))).
  rewrite <- firstn_map.
  change (map f (item_of data now random :: items))
    with (f (item_of data now random) :: map f items).
  subst f. now rewrite (clean_elems_json items J).
Qed.

Lemma added_well_formed (data : value) (now : N) (random : string) (items : list value) :
  json_object data = true -> forallb json_value items = true ->
  well_formed (added data now random items) = true.
Proof.
  intros Jd Ji. unfold added.
  change (forallb well_formed (firstn 50 (item_of data now random :: items)) = true).
  apply forallb_firstn.
  change (well_formed (item_of data now random) && forallb well_formed items = true).
  rewrite (item_well_formed data now random Jd).
  exact (json_value_well_formed (Arr items) Ji).
Qed.

Lemma load_value_items_json (sto : Storage) (items : list value) :
  load_value sto = Arr items -> forallb json_value items = true.
Proof.
  intros L. pose proof (load_value_json sto) as J. now rewrite L in J.
Qed.

(** What [load()] gives after an [add] whose write the storage takes. *)
Lemma load_after_add (data : value) (now : N) (random : string)
      (sto : Storage) (items : list value) :
  load_value sto = Arr items -> json_object data = true ->
  accepts sto (added data now random items) = true ->
  load_value (add_storage data now random sto) =
  Arr (firstn 50 (record data now random :: items)).
Proof.
  intros L J A. unfold add_storage. rewrite L, A.
  assert (R : readable data = true) by (destruct data; try discriminate; reflexivity).
  rewrite R. simpl andb. cbv iota.
  pose proof (load_value_items_json sto items L) as Ji.
  rewrite load_value_saved;
    [ now apply clean_added
    | now apply (accepts_not_blocked _ _ A)
    | now apply added_well_formed
    | reflexivity ].
Qed.

Lemma removed_well_formed (id : string) (items : list value) :
  forallb json_value items = true -> json_value (removed id items) = true.
Proof. intros J. unfold removed. simpl. now apply forallb_filter. Qed.

(** What [load()] gives after a [remove] whose write the storage takes. *)
Lemma load_after_delete (id : string) (sto : Storage) (items : list value) :
  load_value sto = Arr items -> forallb readable items = true ->
  accepts sto (removed id items) = true ->
  load_value (delete_storage id sto) = removed id items.
Proof.
  intros L R A. unfold delete_storage. rewrite L, R, A. simpl andb. cbv iota.
  pose proof (removed_well_formed id items (load_value_items_json sto items L)) as J.
  rewrite load_value_saved;
    [ now apply clean_json_value
    | now apply (accepts_not_blocked _ _ A)
    | now apply json_value_well_formed
    | reflexivity ].
Qed.

Lemma add_storage_flags (data : value) (now : N) (random : string) (sto : Storage) :
  blocked (add_storage data now random sto) = blocked sto /\
  quota (add_storage data now random sto) = quota sto.
Proof.
  unfold add_storage. destruct (load_value sto); try (split; reflexivity).
  destruct (readable data && accepts sto _); split; reflexivity.
Qed.

Lemma delete_storage_flags (id : string) (sto : Storage) :
  blocked (delete_storage id sto) = blocked sto /\
  quota (delete_storage id sto) = quota sto.
Proof.
  unfold delete_storage. destruct (load_value sto); try (split; reflexivity).
  destruct (forallb readable _ && accepts sto _); split; reflexivity.
Qed.

(** ** Sequences of calls *)

Lemma loaded_run (st : State) : loaded st = loaded_of (storage st).
Proof. unfold loaded, loaded_of. now rewrite load_run. Qed.

Lemma load_Arr (st : State) (items : list value) :
  load st = Ok (Arr items) -> load_value (storage st) = Arr items.
Proof. rewrite load_run. now intros H; inversion H. Qed.

Lemma add_storage_run (c : call) (st : State) :
  storage (snd (add c st)) =
  add_storage (call_data c) (call_now c) (call_random c) (storage st).
Proof.
  unfold add.
  destruct (addToLocalHistory_run (call_data c) (call_now c) (call_random c) st)
    as (st' & -> & S). exact S.
Qed.

Lemma firstn_app_firstn {A} (n : nat) (a b : list A) :
  firstn n (a ++ firstn n b) = firstn n (a ++ b).
Proof.
  rewrite !firstn_app, firstn_firstn. do 2 f_equal. lia.
Qed.

Lemma json_object_readable (data : value) :
  json_object data = true -> readable data = true.
Proof. destruct data; try discriminate; reflexivity. Qed.

(** What is stored after a non-empty sequence of accepted [add] calls. *)
Lemma load_adds : forall calls c st items,
  load_value (storage st) = Arr items ->
  responses (c :: calls) = true -> accepted (c :: calls) st = true ->
  load_value (storage (adds (c :: calls) st)) =
  Arr (firstn 50 (rev (map record_of (c :: calls)) ++ items)).
Proof.
  induction calls as [|c' calls IH]; intros c st items L R A.
  - simpl in *. rewrite andb_true_r in R, A.
    rewrite loaded_run in A. unfold loaded_of in A. rewrite L in A.
    rewrite add_storage_run. now apply load_after_add.
  - change (adds (c :: c' :: calls) st) with (adds (c' :: calls) (snd (add c st))).
    change (responses (c :: c' :: calls))
      with (json_object (call_data c) && responses (c' :: calls)) in R.
    change (accepted (c :: c' :: calls) st)
      with (accepts (storage st)
              (added (call_data c) (call_now c) (call_random c) (loaded st))
            && accepted (c' :: calls) (snd (add c st))) in A.
    apply andb_true_iff in R. destruct R as [Rc R].
    apply andb_true_iff in A. destruct A as [Ac A].
    rewrite loaded_run in Ac. unfold loaded_of in Ac. rewrite L in Ac.
    assert (L1 : load_value (storage (snd (add c st))) =
                 Arr (firstn 50 (record_of c :: items))).
    { rewrite add_storage_run. now apply load_after_add. }
    rewrite (IH c' _ _ L1 R A).
    rewrite firstn_app_firstn. f_equal. f_equal.
    change (map record_of (c :: c' :: calls))
      with (record_of c :: map record_of (c' :: calls)).
    change (rev (record_of c :: map record_of (c' :: calls)))
      with (rev (map record_of (c' :: calls)) ++ [record_of c])%list.
    now rewrite <- app_assoc.
Qed.

Lemma adds_app (a b : list call) (st : State) :
  adds (a ++ b) st = adds b (adds a st).
Proof. revert st. induction a as [|c a IH]; intros st; simpl; auto. Qed.

Lemma accepted_app (a b : list call) (st : State) :
  accepted (a ++ b) st = accepted a st && accepted b (adds a st).
Proof.
  revert st. induction a as [|c a IH]; intros st; simpl; [reflexivity|].
  now rewrite IH, andb_assoc.
Qed.

(** ** Ids *)

Lemma differs_from_spec (v : value) (id : string) :
  differs_from v id = false <-> v = Str id.
Proof.
  destruct v; simpl; try (split; intros; discriminate).
  destruct (String.eqb_spec s id); simpl; split; intros H;
    congruence || reflexivity.
Qed.

Lemma has_id_false (id : string) (items : list value) :
  has_id id items = false <-> ~ In (Str id) (map (fun r => prop r "id") items).
Proof.
  unfold has_id. induction items as [|r items IH]; simpl.
  - split; [intros _ [] | reflexivity].
  - rewrite orb_false_iff, IH, negb_false_iff.
    split.
    + intros [D N] [E | I]; [|now apply N].
      apply differs_from_spec in E. congruence.
    + intros N. split.
      * destruct (differs_from (prop r "id") id) eqn:D; [reflexivity|].
        apply differs_from_spec in D. exfalso. apply N. now left.
      * intros I. apply N. now right.
Qed.

Lemma has_id_firstn (id : string) (n : nat) (items : list value) :
  has_id id items = false -> has_id id (firstn n items) = false.
Proof.
  unfold has_id. revert n. induction items as [|r items IH]; intros [|n]; simpl;
    try reflexivity.
  intros H. apply orb_false_iff in H. destruct H as [Hr Hi].
  now rewrite Hr, IH.
Qed.

Lemma filter_absent (id : string) (items : list value) :
  has_id id items = false -> filter (keep_other id) items = items.
Proof.
  unfold has_id, keep_other. induction items as [|r items IH]; simpl; [reflexivity|].
  intros H. apply orb_false_iff in H. destruct H as [Hr Hi].
  apply negb_false_iff in Hr. rewrite Hr. now rewrite IH.
Qed.

Lemma In_firstn {A} (x : A) (n : nat) (l : list A) : In x (firstn n l) -> In x l.
Proof.
  revert n. induction l as [|y l IH]; intros [|n]; simpl; try tauto.
  intros [E | I]; [now left | right; eauto].
Qed.

Lemma NoDup_firstn {A} (n : nat) (l : list A) : NoDup l -> NoDup (firstn n l).
Proof.
  revert n. induction l as [|x l IH]; intros [|n] H; simpl; try constructor.
  - inversion H; subst. intros I. apply In_firstn in I. contradiction.
  - inversion H; subst. auto.
Qed.

Lemma unique_ids_firstn (n : nat) (items : list value) :
  unique_ids items -> unique_ids (firstn n items).
Proof.
  unfold unique_ids. intros H. rewrite <- firstn_map. now apply NoDup_firstn.
Qed.

Lemma unique_ids_filter (p : value -> bool) (items : list value) :
  unique_ids items -> unique_ids (filter p items).
Proof.
  unfold unique_ids. induction items as [|r items IH]; simpl; intros H; [constructor|].
  inversion H as [|? ? N H']; subst.
  destruct (p r); simpl; [|auto].
  constructor; [|auto].
  intros I. apply N. apply in_map_iff in I. destruct I as (x & E & I).
  apply filter_In in I. apply in_map_iff. exists x. tauto.
Qed.

End ShAIAppFacts.

(** * The history store *)

Module HistoryStore.

Import JSONFacts ShAIAppFacts.

Local Open Scope list_scope.

(** ** Sequences of [add] *)

Lemma load_after_adds (calls : list call) (st : State) (items : list value) :
  calls <> [] -> load st = Ok (Arr items) ->
  responses calls = true -> accepted calls st = true ->
  load (adds calls st) =
  Ok (Arr (firstn 50 (rev (map record_of calls) ++ items))).
Proof.
  intros N L R A. destruct calls as [|c calls]; [congruence|].
  rewrite load_run. f_equal. apply load_adds; auto. now apply load_Arr.
Qed.

Lemma size_after_adds (calls : list call) (st : State) (items : list value) :
  calls <> [] -> load st = Ok (Arr items) ->
  responses calls = true -> accepted calls st = true ->
  size (adds calls st) = Nat.min 50 (List.length calls + List.length items).
Proof.
  intros N L R A. unfold size, loaded.
  rewrite (load_after_adds calls st items N L R A).
  now rewrite length_firstn, length_app, length_rev, length_map.
Qed.

(** C1. When the store holds an array and the storage takes the writes,
    after each [add] of a sequence the size is [min (prior + 1) 50]; the
    store then holds the records added, newest first, followed by those it
    held before, cut to the first 50: after more than 50 calls, exactly the
    50 most recently added. *)
Theorem add_keeps_newest_50 (st : State) (items : list value)
        (calls : list call) (c : call) :
  load st = Ok (Arr items) ->
  responses (calls ++ [c]) = true ->
  accepted (calls ++ [c]) st = true ->
  size (adds (calls ++ [c]) st) = Nat.min (size (adds calls st) + 1) 50 /\
  load (adds (calls ++ [c]) st) =
    Ok (Arr (firstn 50 (rev (map record_of (calls ++ [c])) ++ items))) /\
  (50 < List.length (calls ++ [c]) ->
   load (adds (calls ++ [c]) st) =
     Ok (Arr (firstn 50 (rev (map record_of (calls ++ [c])))))).
Proof.
  intros L R A.
  assert (N : calls ++ [c] <> []) by (destruct calls; discriminate).
  pose proof (load_after_adds _ st items N L R A) as LA.
  pose proof (size_after_adds _ st items N L R A) as SA.
  repeat split.
  - rewrite SA, length_app. simpl List.length.
    destruct calls as [|c0 cs].
    + simpl adds. unfold size, loaded. rewrite L. simpl List.length. lia.
    + unfold responses in R. rewrite forallb_app in R.
      rewrite accepted_app in A.
      apply andb_true_iff in R. destruct R as [R _].
      apply andb_true_iff in A. destruct A as [A _].
      rewrite (size_after_adds (c0 :: cs) st items) by (auto; discriminate).
      lia.
  - exact LA.
  - intros Hlen. rewrite LA. do 2 f_equal.
    rewrite firstn_app.
    replace (50 - List.length (rev (map record_of (calls ++ [c])))) with 0
      by (rewrite length_rev, length_map; lia).
    simpl firstn at 2. now rewrite app_nil_r.
Qed.

Lemma add_keeps_newest_50_witness :
  load empty_state = Ok (Arr []) /\
  responses ([call1] ++ [call2]) = true /\
  accepted ([call1] ++ [call2]) empty_state = true /\
  size (adds ([call1] ++ [call2]) empty_state) =
    Nat.min (size (adds [call1] empty_state) + 1) 50.
Proof.
  assert (H1 : load empty_state = Ok (Arr [])) by reflexivity.
  assert (H2 : responses ([call1] ++ [call2]) = true) by reflexivity.
  assert (H3 : accepted ([call1] ++ [call2]) empty_state = true)
    by (vm_compute; reflexivity).
  split; [exact H1 | split; [exact H2 | split; [exact H3|]]].
  apply (add_keeps_newest_50 empty_state [] [call1] call2 H1 H2 H3).
Defined.

(** The size does not grow when the storage refuses the write (the text
    of the record is longer than the storage takes), nor when the stored
    value is not an array: the failure is caught and the store is as it
    was. *)
Lemma add_leaves_size :
  size nearly_full = 0 /\
  size (adds [call1] nearly_full) = 0 /\
  size (adds [call1] nearly_full) <> Nat.min (size nearly_full + 1) 50 /\
  size a_number = 0 /\
  size (adds [call1] a_number) = 0 /\
  size (adds [call1] a_number) <> Nat.min (size a_number + 1) 50.
Proof.
  vm_compute. repeat split; discriminate.
Qed.

(** Scenario of the specification: 51 records added one after the other;
    50 are left, and the first one added is not among them. *)
Example fifty_one_adds :
  let calls := ticks 51 1704103200000 in
  let st := adds calls empty_state in
  size st = 50 /\
  present (id_of (hd call1 calls)) st = false /\
  present (id_of (last calls call1)) st = true.
Proof. vm_compute. repeat split. Qed.

(** ** One [add] *)

Lemma load_after_addToLocalHistory (st : State) (items : list value)
      (data : value) (now : N) (random : string) :
  load st = Ok (Arr items) ->
  json_object data = true ->
  accepts (storage st) (added data now random items) = true ->
  load (snd (addToLocalHistory data now random st)) =
  Ok (Arr (record data now random :: firstn 49 items)).
Proof.
  intros L J A. rewrite load_run.
  destruct (addToLocalHistory_run data now random st) as (st' & -> & S).
  simpl snd. rewrite S. f_equal.
  now apply load_after_add; [apply load_Arr| |].
Qed.

(** C4. When the store holds an array and the storage takes the write, the
    record of an [add] is at index 0 of the next [load()], followed by the
    records held before in their order, the sequence cut at 50. *)
Theorem add_prepends (st : State) (items : list value)
        (data : value) (now : N) (random : string) :
  load st = Ok (Arr items) ->
  json_object data = true ->
  accepts (storage st) (added data now random items) = true ->
  let after := snd (addToLocalHistory data now random st) in
  nth_error (loaded after) 0 = Some (record data now random) /\
  load after = Ok (Arr (record data now random :: firstn 49 items)).
Proof.
  intros L J A after. subst after. unfold loaded.
  rewrite (load_after_addToLocalHistory st items data now random L J A).
  split; reflexivity.
Qed.

Lemma add_prepends_witness :
  load three_records = Ok (Arr (loaded three_records)) /\
  json_object coffee = true /\
  accepts (storage three_records)
          (added coffee 1704104000000 "0.abc" (loaded three_records)) = true /\
  nth_error (loaded (snd (addToLocalHistory coffee 1704104000000 "0.abc" three_records))) 0
  = Some (record coffee 1704104000000 "0.abc").
Proof.
  assert (H1 : load three_records = Ok (Arr (loaded three_records)))
    by (vm_compute; reflexivity).
  assert (H2 : json_object coffee = true) by reflexivity.
  assert (H3 : accepts (storage three_records)
                 (added coffee 1704104000000 "0.abc" (loaded three_records)) = true)
    by (vm_compute; reflexivity).
  split; [exact H1 | split; [exact H2 | split; [exact H3|]]].
  apply (add_prepends three_records (loaded three_records) coffee
           1704104000000 "0.abc" H1 H2 H3).
Defined.

(** The record is not in the sequence when the storage refuses the write,
    nor when the stored value is not an array: the next [load()] has
    nothing at index 0. *)
Lemma add_not_at_index_0 :
  fst (add call1 nearly_full) = Ok Undefined /\
  nth_error (loaded (snd (add call1 nearly_full))) 0 = None /\
  nth_error (loaded (snd (add call1 nearly_full))) 0 <> Some (record_of call1) /\
  fst (add call1 a_number) = Ok Undefined /\
  load (snd (add call1 a_number)) = Ok (Num "42") /\
  nth_error (loaded (snd (add call1 a_number))) 0 <> Some (record_of call1).
Proof.
  vm_compute. repeat split; discriminate.
Qed.

(** *** The fields of the stored record *)

Lemma prop_cases (data : value) (k : string) :
  json_object data = true ->
  prop data k = Undefined \/
  (is_undefined (prop data k) = false /\ clean (prop data k) = prop data k).
Proof.
  destruct data as [| | | | | |ms]; try discriminate. simpl. intros J.
  unfold prop, get_prop, lookup.
  destruct (find_member k ms) as [v|] eqn:F; [right | now left].
  pose proof (find_member_json k ms v J F) as Jv.
  split; [destruct v; try reflexivity; discriminate | now apply clean_json_value].
Qed.

Lemma record_fields (data : value) (now : N) (random : string) :
  json_object data = true ->
  let r := record data now random in
  prop r "id" = Str (new_id now random) /\
  prop r "user_input" = prop data "input" /\
  prop r "pickup_lines" = prop data "pickup_lines" /\
  prop r "timestamp" = prop data "timestamp" /\
  prop r "using_local" = prop data "using_local".
Proof.
  intros J r. subst r. unfold record, item_of.
  destruct (prop_cases data "input" J) as [Ea | [Ua Ca]];
  destruct (prop_cases data "pickup_lines" J) as [Eb | [Ub Cb]];
  destruct (prop_cases data "timestamp" J) as [Ec | [Uc Cc]];
  destruct (prop_cases data "using_local" J) as [Ed | [Ud Cd]];
  revert Ea || revert Ua Ca; revert Eb || revert Ub Cb;
  revert Ec || revert Uc Cc; revert Ed || revert Ud Cd;
  generalize (prop data "input") (prop data "pickup_lines")
             (prop data "timestamp") (prop data "using_local");
  intros a b c d; intros; subst; simpl clean;
  rewrite ?Ua, ?Ub, ?Uc, ?Ud, ?Ca, ?Cb, ?Cc, ?Cd;
  repeat split; reflexivity.
Qed.

(** C3. When the store holds an array, the storage takes the write and
    the numbers of the response are integers of at most 15 digits, [add]
    followed by [load()] yields, at index 0, a record whose [user_input],
    [pickup_lines], [timestamp] and [using_local] are those of the call,
    and whose [id] is the one generated for the call; no other record
    returned has that id when no record held before had it. *)
Theorem add_round_trip (st : State) (items : list value)
        (data : value) (now : N) (random : string) :
  load st = Ok (Arr items) ->
  json_object data = true ->
  exact data = true ->
  accepts (storage st) (added data now random items) = true ->
  exists r rest,
    load (snd (addToLocalHistory data now random st)) = Ok (Arr (r :: rest)) /\
    prop r "user_input" = prop data "input" /\
    prop r "pickup_lines" = prop data "pickup_lines" /\
    prop r "timestamp" = prop data "timestamp" /\
    prop r "using_local" = prop data "using_local" /\
    prop r "id" = Str (new_id now random) /\
    (has_id (new_id now random) items = false ->
     has_id (new_id now random) rest = false).
Proof.
  intros L J _ A.
  exists (record data now random), (firstn 49 items).
  destruct (record_fields data now random J) as (Fid & Fu & Fp & Ft & Fl).
  split; [now apply load_after_addToLocalHistory|].
  repeat (split; [assumption|]).
  apply has_id_firstn.
Qed.

Lemma add_round_trip_witness :
  load empty_state = Ok (Arr []) /\
  json_object gym = true /\
  exact gym = true /\
  accepts (storage empty_state) (added gym 1704103800000 "0.9x2k" []) = true /\
  exists r rest,
    load (snd (addToLocalHistory gym 1704103800000 "0.9x2k" empty_state))
      = Ok (Arr (r :: rest)) /\
    prop r "user_input" = Str "at the gym" /\
    prop r "pickup_lines" = Arr [] /\
    prop r "timestamp" = Num "1704103800" /\
    prop r "using_local" = Undefined /\
    prop r "id" = Str "17041038000009x2k" /\
    (has_id (new_id 1704103800000 "0.9x2k") [] = false ->
     has_id (new_id 1704103800000 "0.9x2k") rest = false).
Proof.
  assert (H1 : load empty_state = Ok (Arr [])) by reflexivity.
  assert (H2 : json_object gym = true) by reflexivity.
  assert (H3 : exact gym = true) by reflexivity.
  assert (H4 : accepts (storage empty_state)
                 (added gym 1704103800000 "0.9x2k" []) = true)
    by reflexivity.
  split; [exact H1 | split; [exact H2 | split; [exact H3 | split; [exact H4|]]]].
  exact (add_round_trip empty_state [] gym 1704103800000 "0.9x2k" H1 H2 H3 H4).
Defined.

(** The id is not unique when the clock and the random draw repeat: the
    same reading and the same draw, on a store that holds the record of the
    first call, give a second record with the id of the first. *)
Lemma add_repeats_id :
  let st := snd (add call1 empty_state) in
  let again := {| call_data := library;
                  call_now := call_now call1;
                  call_random := call_random call1 |} in
  exists r r0,
    load (snd (add again st)) = Ok (Arr [r; r0]) /\
    prop r "user_input" = Str "at the library" /\
    prop r0 "user_input" = Str "coffee shop" /\
    prop r "id" = prop r0 "id".
Proof.
  vm_compute. do 2 eexists. repeat split.
Qed.

(** C8. [add] returns nothing; when the store holds an array and the
    storage takes the write, the id of the record it builds is in the
    persisted sequence right after the call. *)
Theorem add_persists_id (st : State) (items : list value)
        (data : value) (now : N) (random : string) :
  load st = Ok (Arr items) ->
  json_object data = true ->
  accepts (storage st) (added data now random items) = true ->
  fst (addToLocalHistory data now random st) = Ok Undefined /\
  present (new_id now random) (snd (addToLocalHistory data now random st)) = true.
Proof.
  intros L J A. split.
  - now destruct (addToLocalHistory_run data now random st) as (st' & -> & _).
  - unfold present, loaded.
    rewrite (load_after_addToLocalHistory st items data now random L J A).
    destruct (record_fields data now random J) as (Fid & _).
    unfold has_id. simpl existsb. rewrite Fid. simpl.
    now rewrite String.eqb_refl.
Qed.

Lemma add_persists_id_witness :
  load three_records = Ok (Arr (loaded three_records)) /\
  json_object coffee = true /\
  accepts (storage three_records)
          (added coffee 1704104000000 "0.abc" (loaded three_records)) = true /\
  fst (addToLocalHistory coffee 1704104000000 "0.abc" three_records) = Ok Undefined /\
  present (new_id 1704104000000 "0.abc")
          (snd (addToLocalHistory coffee 1704104000000 "0.abc" three_records)) = true.
Proof.
  assert (H1 : load three_records = Ok (Arr (loaded three_records)))
    by (vm_compute; reflexivity).
  assert (H2 : json_object coffee = true) by reflexivity.
  assert (H3 : accepts (storage three_records)
                 (added coffee 1704104000000 "0.abc" (loaded three_records)) = true)
    by (vm_compute; reflexivity).
  split; [exact H1 | split; [exact H2 | split; [exact H3|]]].
  exact (add_persists_id three_records (loaded three_records) coffee
           1704104000000 "0.abc" H1 H2 H3).
Defined.

(** [add] does not return the record it built. *)
Lemma add_returns_nothing :
  fst (add call1 empty_state) = Ok Undefined /\
  fst (add call1 empty_state) <> Ok (record_of call1) /\
  loaded (snd (add call1 empty_state)) = [record_of call1].
Proof.
  vm_compute. repeat split. discriminate.
Qed.

(** ** [remove] *)

Lemma delete_storage_absent (id : string) (sto : Storage) :
  has_id id (loaded_of sto) = false ->
  load_value (delete_storage id sto) = load_value sto.
Proof.
  unfold loaded_of, delete_storage. intros H.
  destruct (load_value sto) as [| | | | |items|] eqn:L; try exact L.
  destruct (forallb readable items && accepts sto (removed id items)) eqn:C;
    [|exact L].
  apply andb_true_iff in C. destruct C as [R A].
  pose proof (load_value_items_json sto items L) as J.
  unfold removed in *. rewrite (filter_absent id items H) in *.
  rewrite load_value_saved;
    [ now apply (clean_json_value (Arr items))
    | now apply (accepts_not_blocked _ _ A)
    | now apply (json_value_well_formed (Arr items))
    | reflexivity ].
Qed.

(** C2. [remove(x)] returns nothing and ends normally, in every state and
    whether or not a record has the id [x]; when none has it, and the
    numbers of the stored records are integers of at most 15 digits,
    [load()] returns what it returned before. *)
Theorem remove_absent (st : State) (x : string) :
  fst (deleteHistoryItem x st) = Ok Undefined /\
  (present x st = false ->
   exact (load_value (storage st)) = true ->
   load (snd (deleteHistoryItem x st)) = load st).
Proof.
  destruct (deleteHistoryItem_run x st) as (st' & -> & S).
  split; [reflexivity|]. intros P _. simpl snd.
  unfold present in P. rewrite loaded_run in P.
  rewrite !load_run, S. f_equal. now apply delete_storage_absent.
Qed.

Lemma remove_absent_witness :
  present "nonexistent-id" three_records = false /\
  exact (load_value (storage three_records)) = true /\
  fst (deleteHistoryItem "nonexistent-id" three_records) = Ok Undefined /\
  load (snd (deleteHistoryItem "nonexistent-id" three_records)) = load three_records.
Proof.
  assert (H1 : present "nonexistent-id" three_records = false)
    by (vm_compute; reflexivity).
  assert (H2 : exact (load_value (storage three_records)) = true)
    by (vm_compute; reflexivity).
  split; [exact H1 | split; [exact H2|]].
  destruct (remove_absent three_records "nonexistent-id") as (R & L).
  split; [exact R | exact (L H1 H2)].
Defined.

(** Scenario of the specification: removing an id that is not there from a
    store of three records.  The call does not return [false]. *)
Lemma remove_absent_returns_nothing :
  size three_records = 3 /\
  present "nonexistent-id" three_records = false /\
  fst (deleteHistoryItem "nonexistent-id" three_records) = Ok Undefined /\
  fst (deleteHistoryItem "nonexistent-id" three_records) <> Ok (Bool false) /\
  size (snd (deleteHistoryItem "nonexistent-id" three_records)) = 3.
Proof.
  vm_compute. repeat split. discriminate.
Qed.

(** C5. [remove(r.id)] returns nothing; when every stored element is a
    record and the storage takes the write, the next [load()] returns the
    records whose id is not [r.id], in the order they had: [r] is not among
    them, and every record with another id is. *)
Theorem remove_present (st : State) (items : list value) (r : value) (x : string) :
  load st = Ok (Arr items) ->
  In r items ->
  prop r "id" = Str x ->
  forallb readable items = true ->
  accepts (storage st) (removed x items) = true ->
  let after := snd (deleteHistoryItem x st) in
  fst (deleteHistoryItem x st) = Ok Undefined /\
  load after = Ok (Arr (filter (keep_other x) items)) /\
  ~ In r (loaded after) /\
  present x after = false /\
  (forall r', In r' items -> prop r' "id" <> Str x -> In r' (loaded after)).
Proof.
  intros L I E R A after. subst after.
  destruct (deleteHistoryItem_run x st) as (st' & -> & S).
  simpl fst. simpl snd.
  assert (La : load st' = Ok (Arr (filter (keep_other x) items))).
  { rewrite load_run, S. f_equal.
    now apply load_after_delete; [apply load_Arr| |]. }
  unfold present, loaded. rewrite La.
  split; [reflexivity|]. split; [reflexivity|]. split; [|split].
  - intros F. apply filter_In in F. destruct F as [_ F].
    unfold keep_other in F. rewrite E in F. simpl in F.
    now rewrite String.eqb_refl in F.
  - apply has_id_false. intros F. apply in_map_iff in F.
    destruct F as (r' & E' & F). apply filter_In in F. destruct F as [_ F].
    unfold keep_other in F. rewrite E' in F. simpl in F.
    now rewrite String.eqb_refl in F.
  - intros r' I' D. apply filter_In. split; [exact I'|].
    unfold keep_other.
    destruct (differs_from (prop r' "id") x) eqn:F; [reflexivity|].
    apply differs_from_spec in F. contradiction.
Qed.

Lemma remove_present_witness :
  load three_records = Ok (Arr (loaded three_records)) /\
  In (record_of call2) (loaded three_records) /\
  prop (record_of call2) "id" = Str (id_of call2) /\
  forallb readable (loaded three_records) = true /\
  accepts (storage three_records)
          (removed (id_of call2) (loaded three_records)) = true /\
  load (snd (deleteHistoryItem (id_of call2) three_records)) =
    Ok (Arr (filter (keep_other (id_of call2)) (loaded three_records))).
Proof.
  assert (H1 : load three_records = Ok (Arr (loaded three_records)))
    by (vm_compute; reflexivity).
  assert (H2 : In (record_of call2) (loaded three_records))
    by (vm_compute; right; left; reflexivity).
  assert (H3 : prop (record_of call2) "id" = Str (id_of call2))
    by (vm_compute; reflexivity).
  assert (H4 : forallb readable (loaded three_records) = true)
    by (vm_compute; reflexivity).
  assert (H5 : accepts (storage three_records)
                 (removed (id_of call2) (loaded three_records)) = true)
    by (vm_compute; reflexivity).
  split; [exact H1 | split; [exact H2 | split; [exact H3 |
    split; [exact H4 | split; [exact H5|]]]]].
  pose proof (remove_present three_records (loaded three_records)
                (record_of call2) (id_of call2) H1 H2 H3 H4 H5) as T.
  cbv zeta in T. destruct T as (_ & La & _). exact La.
Defined.

(** [remove] of the id of a stored record does not return [true]. *)
Lemma remove_present_returns_nothing :
  In (record_of call2) (loaded three_records) /\
  prop (record_of call2) "id" = Str (id_of call2) /\
  fst (deleteHistoryItem (id_of call2) three_records) = Ok Undefined /\
  fst (deleteHistoryItem (id_of call2) three_records) <> Ok (Bool true) /\
  loaded (snd (deleteHistoryItem (id_of call2) three_records)) =
    [record_of call3; record_of call1].
Proof.
  vm_compute. repeat split; try discriminate. right; left; reflexivity.
Qed.

(** ** [load] *)

Lemma nothing_usable_load_value (sto : Storage) :
  nothing_usable sto = true -> load_value sto = Arr [].
Proof.
  unfold nothing_usable, load_value. destruct (blocked sto); [reflexivity|].
  destruct (cell sto) as [text|]; [|reflexivity].
  destruct (is_empty text); [reflexivity|].
  now destruct (parse text).
Qed.

(** C6. [load()] always ends normally and leaves the storage as it is; it
    returns the empty sequence when nothing is stored or the stored text
    is not JSON; a failure to read or to parse is written to the console
    and goes no further. *)
Theorem load_never_fails (st : State) :
  exists v st',
    getLocalHistory st = (Ok v, st') /\
    storage st' = storage st /\
    (nothing_usable (storage st) = true -> v = Arr []) /\
    (load_fails (storage st) = true ->
     v = Arr [] /\
     console (page st') = console (page st) ++ ["Failed to load local history:"%string]).
Proof.
  rewrite getLocalHistory_run. do 2 eexists. split; [reflexivity|].
  split; [now destruct (load_fails (storage st))|].
  split; [apply nothing_usable_load_value|].
  intros F. rewrite F. split; [|reflexivity].
  unfold load_fails, load_value in *.
  destruct (blocked (storage st)); [reflexivity|].
  destruct (cell (storage st)) as [text|]; [|reflexivity].
  destruct (is_empty text); [reflexivity|].
  now destruct (parse text).
Qed.

Lemma load_never_fails_witness :
  nothing_usable (storage corrupt) = true /\
  load_fails (storage corrupt) = true /\
  load corrupt = Ok (Arr []) /\
  console (page (snd (getLocalHistory corrupt))) = ["Failed to load local history:"%string].
Proof.
  assert (H1 : nothing_usable (storage corrupt) = true) by reflexivity.
  assert (H2 : load_fails (storage corrupt) = true) by reflexivity.
  split; [exact H1 | split; [exact H2|]].
  destruct (load_never_fails corrupt) as (v & st' & E & _ & N & F).
  unfold load. rewrite E. simpl fst. simpl snd.
  split; [now rewrite (N H1) | exact (proj2 (F H2))].
Defined.


(** A stored number is returned as that number. *)
Example load_of_a_number :
  load {| storage := {| cell := Some " 42 "; blocked := false; quota := None |};
          page := empty_page |} = Ok (Num "42").
Proof. reflexivity. Qed.


(** ** [clear] *)

(** C7. A confirmed [clear] ends normally.  When the storage can be
    reached the entry is gone and [load()] returns the empty sequence, also
    when called again; when it cannot, the failure is written to the
    console and shown in the error banner, and nothing else changes. *)
Theorem clear_erases (st : State) :
  let st' := snd (clearHistory true st) in
  fst (clearHistory true st) = Ok Undefined /\
  if blocked (storage st)
  then storage st' = storage st /\
       page st' =
       set_errorMessage
         (Some ("Failed to clear history: " ++ error_message SecurityError)%string)
         (set_console (console (page st) ++ ["Error clearing history:"%string]) (page st))
  else cell (storage st') = None /\
       load st' = Ok (Arr []) /\
       load (snd (getLocalHistory st')) = Ok (Arr []).
Proof.
  intros st'. subst st'.
  destruct (blocked (storage st)) eqn:B.
  - cbv [clearHistory bind try_catch localStorage_removeItem negb].
    rewrite B. repeat split.
  - destruct (clearHistory_run true st) as (st' & -> & S).
    simpl fst. simpl snd. unfold clear_storage in S. rewrite B in S. simpl in S.
    split; [reflexivity|]. split; [now rewrite S|].
    assert (L : load_value (storage st') = Arr []).
    { rewrite S. unfold load_value. simpl. now rewrite B. }
    rewrite !load_run, keeps_getLocalHistory, L. split; reflexivity.
Qed.

(** ** Ids *)

Lemma loaded_of_unchanged (sto sto' : Storage) :
  load_value sto' = load_value sto -> loaded_of sto' = loaded_of sto.
Proof. unfold loaded_of. now intros ->. Qed.

Lemma add_keeps_unique (c : call) (sto : Storage) :
  json_object (call_data c) = true ->
  has_id (id_of c) (loaded_of sto) = false ->
  unique_ids (loaded_of sto) ->
  unique_ids (loaded_of (add_storage (call_data c) (call_now c) (call_random c) sto)).
Proof.
  intros J F U.
  destruct (load_value sto) as [| | | | |items|] eqn:L;
    try (unfold add_storage; rewrite L; exact U).
  destruct (accepts sto (added (call_data c) (call_now c) (call_random c) items)) eqn:A.
  - unfold loaded_of at 1.
    rewrite (load_after_add _ _ _ sto items L J A).
    unfold loaded_of in F, U. rewrite L in F, U.
    apply unique_ids_firstn. unfold unique_ids. simpl map.
    destruct (record_fields (call_data c) (call_now c) (call_random c) J) as (Fid & _).
    rewrite Fid. constructor; [|exact U].
    now apply has_id_false.
  - unfold add_storage. rewrite L, A, andb_false_r. exact U.
Qed.

Lemma delete_keeps_unique (id : string) (sto : Storage) :
  unique_ids (loaded_of sto) -> unique_ids (loaded_of (delete_storage id sto)).
Proof.
  intros U.
  destruct (load_value sto) as [| | | | |items|] eqn:L;
    try (unfold delete_storage; rewrite L; exact U).
  destruct (forallb readable items && accepts sto (removed id items)) eqn:C.
  - apply andb_true_iff in C. destruct C as [R A].
    unfold loaded_of at 1. rewrite (load_after_delete id sto items L R A).
    unfold loaded_of in U. rewrite L in U.
    now apply unique_ids_filter.
  - unfold delete_storage. rewrite L, C. exact U.
Qed.

Lemma clear_keeps_unique (confirmed : bool) (sto : Storage) :
  unique_ids (loaded_of sto) -> unique_ids (loaded_of (clear_storage confirmed sto)).
Proof.
  intros U. unfold clear_storage.
  destruct (confirmed && negb (blocked sto)) eqn:C; [|exact U].
  apply andb_true_iff in C. destruct C as [_ B]. apply negb_true_iff in B.
  unfold loaded_of, load_value. simpl. rewrite B. constructor.
Qed.

Lemma run_keeps_unique : forall ops st,
  unique_ids (loaded st) -> fresh_ids ops st = true ->
  unique_ids (loaded (run ops st)).
Proof.
  induction ops as [|o ops IH]; intros st U F; [exact U|].
  simpl in F. apply andb_true_iff in F. destruct F as [Fo F].
  simpl run. apply IH; [|exact F].
  rewrite loaded_run in *. unfold present in Fo.
  destruct o as [c|id|confirmed]; simpl step.
  - apply andb_true_iff in Fo. destruct Fo as [J N].
    apply negb_true_iff in N. rewrite loaded_run in N.
    rewrite add_storage_run. now apply add_keeps_unique.
  - destruct (deleteHistoryItem_run id st) as (st' & -> & S).
    simpl snd. rewrite S. now apply delete_keeps_unique.
  - destruct (clearHistory_run confirmed st) as (st' & -> & S).
    simpl snd. rewrite S. now apply clear_keeps_unique.
Qed.

(** C9. From a store with nothing in it, whatever [add], [remove] and
    [clear] are called, the ids of the records held are pairwise different
    provided each [add] generates an id that no record held at that time
    has. *)
Theorem ids_stay_unique (ops : list op) (st : State) :
  cell (storage st) = None ->
  fresh_ids ops st = true ->
  unique_ids (loaded (run ops st)).
Proof.
  intros E F. apply run_keeps_unique; [|exact F].
  rewrite loaded_run. unfold loaded_of, load_value. rewrite E.
  destruct (blocked (storage st)); constructor.
Qed.

Lemma ids_stay_unique_witness :
  cell (storage empty_state) = None /\
  fresh_ids busy_day empty_state = true /\
  unique_ids (loaded (run busy_day empty_state)).
Proof.
  assert (H1 : cell (storage empty_state) = None) by reflexivity.
  assert (H2 : fresh_ids busy_day empty_state = true) by (vm_compute; reflexivity).
  split; [exact H1 | split; [exact H2|]].
  exact (ids_stay_unique busy_day empty_state H1 H2).
Defined.

(** Two calls in the same millisecond with the same random draw: the store
    reached from the empty one holds two records with one id. *)
Lemma ids_repeat :
  let again := {| call_data := library;
                  call_now := call_now call1;
                  call_random := call_random call1 |} in
  ~ unique_ids (loaded (run [Add call1; Add again] empty_state)).
Proof.
  intros again U.
  assert (E : map (fun r => prop r "id") (loaded (run [Add call1; Add again] empty_state))
              = [Str "17041032000004fzyo82mv"; Str "17041032000004fzyo82mv"])
    by (vm_compute; reflexivity).
  unfold unique_ids in U. rewrite E in U.
  inversion U as [|? ? N _]; subst. apply N. now left.
Qed.

End HistoryStore.

(** * Properties of the rest of the page *)

Module ClientFacts.

Import JSONFacts ShAIAppFacts.

Local Open Scope list_scope.

(** ** Showing the history *)

Lemma createHistoryItem_run (item : value) (st : State) :
  createHistoryItem item st =
  (if shown item then Ok item else Throw TypeError, st).
Proof.
  destruct item as [| |b|lit|s|l|ms]; try reflexivity.
  cbv [shown renderable converts prop createHistoryItem bind lift get_prop ret throw
       readable andb].
  destruct (to_string (lookup "id" ms)); [|now destruct (lookup "pickup_lines" ms)].
  destruct (to_string (lookup "timestamp" ms)); [|now destruct (lookup "pickup_lines" ms)].
  destruct (lookup "pickup_lines" ms) as [| |b|lit|t|l|ms']; try reflexivity;
    destruct (to_string (lookup "user_input" ms)); try reflexivity;
    now destruct (to_string (lookup "length" ms')).
Qed.

Lemma state_eta (st : State) : {| storage := storage st; page := page st |} = st.
Proof. now destruct st. Qed.

Lemma set_historyList_same (p : Page) : set_historyList (historyList p) p = p.
Proof. now destruct p. Qed.

(** The rows the loop adds before it meets a record that does not render. *)
Lemma forEach_rows : forall (l : list value) (st : State),
  forallb shown l = true ->
  forEach (fun item =>
             row <- createHistoryItem item ;;
             update_page (fun p => set_historyList (historyList p ++ [row]) p)) l st =
  (Ok tt, {| storage := storage st;
             page := set_historyList (historyList (page st) ++ l) (page st) |}).
Proof.
  induction l as [|x l IH]; intros st R.
  - simpl. unfold ret. now rewrite app_nil_r, set_historyList_same, state_eta.
  - simpl in R. apply andb_true_iff in R. destruct R as [Rx Rl].
    simpl forEach. unfold bind at 1. unfold bind at 1.
    rewrite createHistoryItem_run, Rx. unfold update_page at 1.
    rewrite (IH _ Rl). simpl. unfold set_historyList. simpl.
    now rewrite <- app_assoc.
Qed.

Lemma forEach_rows_stop : forall (good : list value) (bad : value) (rest : list value)
                                 (st : State),
  forallb shown good = true -> shown bad = false ->
  forEach (fun item =>
             row <- createHistoryItem item ;;
             update_page (fun p => set_historyList (historyList p ++ [row]) p))
          (good ++ bad :: rest) st =
  (Throw TypeError,
   {| storage := storage st;
      page := set_historyList (historyList (page st) ++ good) (page st) |}).
Proof.
  induction good as [|x l IH]; intros bad rest st R B.
  - simpl. unfold bind at 1. unfold bind at 1.
    rewrite createHistoryItem_run, B.
    now rewrite app_nil_r, set_historyList_same, state_eta.
  - simpl in R. apply andb_true_iff in R. destruct R as [Rx Rl].
    simpl forEach. unfold bind at 1. unfold bind at 1.
    rewrite createHistoryItem_run, Rx. unfold update_page at 1.
    rewrite (IH _ _ _ Rl B). simpl. unfold set_historyList. simpl.
    now rewrite <- app_assoc.
Qed.

Lemma forEach_mobile_rows : forall (l rows : list value) (st : State),
  forallb shown l = true ->
  mobileHistory (page st) = Some rows ->
  forEach (fun item =>
             row <- createMobileHistoryItem item ;;
             update_page (fun p =>
               set_mobileHistory
                 (option_map (fun rows => rows ++ [row]) (mobileHistory p)) p)) l st =
  (Ok tt, {| storage := storage st;
             page := set_mobileHistory (Some (rows ++ l)) (page st) |}).
Proof.
  induction l as [|x l IH]; intros rows st R E.
  - simpl. unfold ret. rewrite app_nil_r, <- E.
    destruct st as [sto p]. now destruct p.
  - simpl in R. apply andb_true_iff in R. destruct R as [Rx Rl].
    simpl forEach. unfold bind at 1. unfold bind at 1.
    unfold createMobileHistoryItem at 1.
    rewrite createHistoryItem_run, Rx. unfold update_page at 1.
    rewrite (IH (rows ++ [x])); [|exact Rl | simpl; now rewrite E].
    simpl. unfold set_mobileHistory. simpl.
    now rewrite <- app_assoc.
Qed.

Lemma syncMobileHistory_run (items : list value) (st : State) :
  forallb shown items = true ->
  syncMobileHistory (Arr items) st =
  (Ok tt, {| storage := storage st;
             page := set_mobileHistory
                       (match mobileHistory (page st) with
                        | Some _ => Some items
                        | None => None
                        end) (page st) |}).
Proof.
  intros R. unfold syncMobileHistory.
  destruct (mobileHistory (page st)) as [rows|] eqn:E.
  - unfold bind at 1. unfold update_page at 1.
    destruct items as [|x l].
    + reflexivity.
    + change (falsy (Arr (x :: l)) || length_is_zero (Arr (x :: l))) with false.
      cbv iota. unfold bind at 1. simpl as_array. unfold ret at 1.
      rewrite (forEach_mobile_rows (x :: l) []); [reflexivity | exact R | reflexivity].
  - unfold ret. rewrite <- E. destruct st as [sto p]. now destruct p.
Qed.

Lemma displayHistory_run (items : list value) (st : State) :
  forallb shown items = true ->
  displayHistory (Arr items) st =
  (Ok tt, {| storage := storage st; page := display items (page st) |}).
Proof.
  intros R. unfold displayHistory. unfold bind at 1. unfold update_page at 1.
  destruct items as [|x l].
  - change (falsy (Arr []) || length_is_zero (Arr [])) with true. cbv iota.
    unfold bind at 1. unfold update_page at 1.
    rewrite syncMobileHistory_run by reflexivity.
    destruct st as [sto p]. now destruct p.
  - change (falsy (Arr (x :: l)) || length_is_zero (Arr (x :: l))) with false.
    cbv iota. unfold bind at 1. unfold update_page at 1.
    unfold bind at 1. simpl as_array. unfold ret at 1.
    unfold bind at 1. rewrite (forEach_rows (x :: l)) by exact R.
    rewrite syncMobileHistory_run by exact R.
    destruct st as [sto p]. now destruct p.
Qed.

(** [loadHistory], when what is stored renders. *)
Lemma loadHistory_display (st : State) (items : list value) :
  load_value (storage st) = Arr items ->
  forallb shown items = true ->
  loadHistory st =
  (Ok tt,
   {| storage := storage st;
      page := display items
                (page (if load_fails (storage st)
                       then logged "Failed to load local history:" st else st)) |}).
Proof.
  intros L R. unfold loadHistory, try_catch. unfold bind at 1.
  rewrite getLocalHistory_run, L, (displayHistory_run items _ R).
  now destruct (load_fails (storage st)).
Qed.

Lemma shown_renderable (item : value) : shown item = true -> renderable item = true.
Proof.
  unfold shown. intros H.
  do 4 (apply andb_prop in H; destruct H as [H _]). exact H.
Qed.

Lemma forallb_shown_renderable (items : list value) :
  forallb shown items = true -> forallb renderable items = true.
Proof.
  rewrite !forallb_forall. intros H x I. apply shown_renderable, H, I.
Qed.

(** X1. [loadHistory] always ends normally and never writes the storage,
    whatever is stored. *)
Theorem loadHistory_is_safe (st : State) :
  fst (loadHistory st) = Ok tt /\ storage (snd (loadHistory st)) = storage st.
Proof. split; [apply loadHistory_ok | apply keeps_loadHistory]. Qed.

(** X2. When a row can be built for every stored record, [loadHistory]
    leaves the history list of the page equal to the stored sequence, the
    mobile list too where the page has one, and shows the "no history" note
    exactly when the sequence is empty. *)
Theorem loadHistory_shows_store (st : State) (items : list value) :
  load st = Ok (Arr items) ->
  forallb shown items = true ->
  let p := page (snd (loadHistory st)) in
  historyList p = items /\
  mobileHistory p = option_map (fun _ => items) (mobileHistory (page st)) /\
  noHistory_hidden p = negb (Nat.eqb (List.length items) 0).
Proof.
  intros L R p. subst p. apply load_Arr in L.
  rewrite (loadHistory_display st items L R). simpl.
  repeat split.
  - destruct (load_fails (storage st)); simpl; now destruct (mobileHistory (page st)).
  - now destruct items.
Qed.

Lemma loadHistory_shows_store_witness :
  load three_records = Ok (Arr (loaded three_records)) /\
  forallb shown (loaded three_records) = true /\
  historyList (page (snd (loadHistory three_records))) = loaded three_records.
Proof.
  assert (H1 : load three_records = Ok (Arr (loaded three_records)))
    by (vm_compute; reflexivity).
  assert (H2 : forallb shown (loaded three_records) = true)
    by (vm_compute; reflexivity).
  split; [exact H1 | split; [exact H2|]].
  exact (proj1 (loadHistory_shows_store three_records (loaded three_records) H1 H2)).
Defined.

(** X3. When a stored record does not render (it is [null], or has no
    [pickup_lines]), [loadHistory] shows the records before it and stops:
    the rest is not shown, the mobile list is not touched, the "no history"
    note is hidden, and the failure goes to the console. *)
Theorem loadHistory_stops_at_bad_record (st : State)
        (good : list value) (bad : value) (rest : list value) :
  load st = Ok (Arr (good ++ bad :: rest)) ->
  forallb shown good = true ->
  renderable bad = false ->
  let p := page (snd (loadHistory st)) in
  fst (loadHistory st) = Ok tt /\
  historyList p = good /\
  mobileHistory p = mobileHistory (page st) /\
  noHistory_hidden p = true /\
  console p = console (page st) ++ ["Error loading local history:"%string].
Proof.
  intros L R B p. subst p. apply load_Arr in L.
  assert (B' : shown bad = false) by (unfold shown; now rewrite B).
  assert (F : load_fails (storage st) = false).
  { unfold load_fails, load_value in *.
    destruct (blocked (storage st)); [destruct good; discriminate|].
    destruct (cell (storage st)) as [text|]; [|reflexivity].
    destruct (is_empty text); [reflexivity|].
    destruct (parse text); [reflexivity | destruct good; discriminate]. }
  assert (E : loadHistory st =
              (Ok tt,
               logged "Error loading local history:"
                 {| storage := storage st;
                    page := set_historyList good
                              (set_noHistory_hidden true
                                 (set_historyList [] (page st))) |})).
  { unfold loadHistory, try_catch. unfold bind at 1.
    rewrite getLocalHistory_run, L, F.
    unfold displayHistory. unfold bind at 1. unfold update_page at 1.
    replace (falsy (Arr (good ++ bad :: rest))
             || length_is_zero (Arr (good ++ bad :: rest)))
      with false by (destruct good; reflexivity).
    cbv iota. unfold bind at 1. unfold update_page at 1.
    unfold bind at 1. simpl as_array. unfold ret at 1.
    unfold bind at 1. rewrite (forEach_rows_stop good bad rest _ R B').
    reflexivity. }
  rewrite E. simpl. repeat split.
Qed.

Lemma loadHistory_stops_at_bad_record_witness :
  load half_good = Ok (Arr ([record_of call1] ++ Obj [] :: [record_of call2])) /\
  forallb shown [record_of call1] = true /\
  renderable (Obj []) = false /\
  historyList (page (snd (loadHistory half_good))) = [record_of call1].
Proof.
  assert (H1 : load half_good = Ok (Arr ([record_of call1] ++ Obj [] :: [record_of call2])))
    by (vm_compute; reflexivity).
  assert (H2 : forallb shown [record_of call1] = true) by (vm_compute; reflexivity).
  assert (H3 : renderable (Obj []) = false) by reflexivity.
  split; [exact H1 | split; [exact H2 | split; [exact H3|]]].
  destruct (loadHistory_stops_at_bad_record half_good [record_of call1] (Obj [])
              [record_of call2] H1 H2 H3) as (_ & H & _).
  exact H.
Defined.

(** ** Saving *)

(** X4. What [saveLocalHistory] writes, [getLocalHistory] reads back: a
    value the storage takes, whose numbers are integers of at most 15
    digits, is returned as it is serialised ([undefined] members dropped),
    and a JSON value unchanged. *)
Theorem save_then_load (st : State) (history : value) :
  well_formed history = true ->
  is_undefined history = false ->
  exact history = true ->
  accepts (storage st) history = true ->
  load (snd (saveLocalHistory history st)) = Ok (clean history) /\
  (json_value history = true -> load (snd (saveLocalHistory history st)) = Ok history).
Proof.
  intros W U _ A.
  assert (L : load (snd (saveLocalHistory history st)) = Ok (clean history)).
  { rewrite load_run, saveLocalHistory_run, A. simpl. f_equal.
    apply load_value_saved; auto. now apply (accepts_not_blocked _ _ A). }
  split; [exact L|]. intros J. now rewrite L, (clean_json_value history J).
Qed.

Lemma save_then_load_witness :
  well_formed (Arr [coffee; gym]) = true /\
  is_undefined (Arr [coffee; gym]) = false /\
  exact (Arr [coffee; gym]) = true /\
  accepts (storage empty_state) (Arr [coffee; gym]) = true /\
  load (snd (saveLocalHistory (Arr [coffee; gym]) empty_state)) =
    Ok (clean (Arr [coffee; gym])).
Proof.
  assert (H1 : well_formed (Arr [coffee; gym]) = true) by reflexivity.
  assert (H2 : is_undefined (Arr [coffee; gym]) = false) by reflexivity.
  assert (H3 : exact (Arr [coffee; gym]) = true) by reflexivity.
  assert (H4 : accepts (storage empty_state) (Arr [coffee; gym]) = true)
    by reflexivity.
  split; [exact H1 | split; [exact H2 | split; [exact H3 | split; [exact H4|]]]].
  exact (proj1 (save_then_load empty_state (Arr [coffee; gym]) H1 H2 H3 H4)).
Defined.

(** ** Edges of [addToLocalHistory] *)

(** X5. When the storage refuses the write (access denied, or the text is
    over the quota), [addToLocalHistory] still ends normally and the store
    is as it was: the record is lost. *)
Theorem add_refused (st : State) (data : value) (now : N) (random : string) :
  accepts (storage st) (added data now random (loaded st)) = false ->
  fst (addToLocalHistory data now random st) = Ok Undefined /\
  storage (snd (addToLocalHistory data now random st)) = storage st /\
  load (snd (addToLocalHistory data now random st)) = load st.
Proof.
  intros A. rewrite loaded_run in A. unfold loaded_of in A.
  destruct (addToLocalHistory_run data now random st) as (st' & -> & S).
  simpl fst. simpl snd.
  assert (E : storage st' = storage st).
  { rewrite S. unfold add_storage.
    destruct (load_value (storage st)); try reflexivity.
    now rewrite A, andb_false_r. }
  split; [reflexivity|]. split; [exact E|]. now rewrite !load_run, E.
Qed.

Lemma add_refused_witness :
  accepts (storage nearly_full)
          (added coffee 1704103200000 "0.4fzyo82mvyr" (loaded nearly_full)) = false /\
  load (snd (addToLocalHistory coffee 1704103200000 "0.4fzyo82mvyr" nearly_full)) =
    load nearly_full.
Proof.
  assert (H : accepts (storage nearly_full)
                (added coffee 1704103200000 "0.4fzyo82mvyr" (loaded nearly_full)) = false)
    by (vm_compute; reflexivity).
  split; [exact H|].
  destruct (add_refused nearly_full coffee 1704103200000 "0.4fzyo82mvyr" H) as (_ & _ & L).
  exact L.
Defined.

Lemma load_fails_empty (sto : Storage) :
  load_fails sto = true -> load_value sto = Arr [].
Proof.
  unfold load_fails, load_value. destruct (blocked sto); [reflexivity|].
  destruct (cell sto) as [text|]; [|discriminate].
  destruct (is_empty text); [discriminate|].
  now destruct (parse text).
Qed.

(** X6. When the stored text is JSON but not an array, [addToLocalHistory]
    writes nothing to the storage and shows nothing: it ends normally with
    one more line on the console, and the store stays as it is. *)
Theorem add_to_non_array (st : State) (v data : value) (now : N) (random : string) :
  load st = Ok v ->
  (forall l, v <> Arr l) ->
  addToLocalHistory data now random st =
  (Ok Undefined, logged "Failed to add to local history:" st).
Proof.
  intros L N. rewrite load_run in L. inversion L as [Lv]. clear L.
  assert (F : load_fails (storage st) = false).
  { destruct (load_fails (storage st)) eqn:F; [|reflexivity].
    apply load_fails_empty in F. rewrite F in Lv. now elim (N [] ). }
  unfold addToLocalHistory. unfold bind at 1. unfold try_catch.
  unfold bind at 1. rewrite getLocalHistory_run, F, Lv.
  unfold bind at 1. rewrite historyItem_run.
  destruct (readable data); [|reflexivity].
  unfold bind at 1.
  destruct v; try reflexivity. now elim (N elems).
Qed.

Lemma add_to_non_array_witness :
  load a_number = Ok (Num "42") /\
  (forall l, Num "42" <> Arr l) /\
  addToLocalHistory coffee 1704103200000 "0.4fzyo82mvyr" a_number =
  (Ok Undefined, logged "Failed to add to local history:" a_number).
Proof.
  assert (H1 : load a_number = Ok (Num "42")) by reflexivity.
  assert (H2 : forall l, Num "42" <> Arr l) by (intros l; discriminate).
  split; [exact H1 | split; [exact H2|]].
  exact (add_to_non_array a_number (Num "42") coffee 1704103200000 "0.4fzyo82mvyr" H1 H2).
Defined.

(** ** Edges of [deleteHistoryItem] *)

Lemma has_id_removed (id : string) (items : list value) :
  has_id id (filter (keep_other id) items) = false.
Proof.
  unfold has_id, keep_other. induction items as [|r items IH]; [reflexivity|].
  simpl. destruct (differs_from (prop r "id") id) eqn:D; [|exact IH].
  simpl. now rewrite D, IH.
Qed.

Lemma delete_storage_cases (id : string) (sto : Storage) :
  delete_storage id sto = sto \/
  (exists items, load_value sto = Arr items /\ forallb readable items = true /\
                 accepts sto (removed id items) = true /\
                 load_value (delete_storage id sto) = removed id items).
Proof.
  destruct (load_value sto) as [| | | | |items|] eqn:L;
    try (left; unfold delete_storage; now rewrite L).
  destruct (forallb readable items && accepts sto (removed id items)) eqn:C.
  - right. apply andb_true_iff in C. destruct C as [R A].
    exists items. repeat split; auto. now apply load_after_delete.
  - left. unfold delete_storage. now rewrite L, C.
Qed.

Lemma delete_storage_twice (id : string) (sto : Storage) :
  load_value (delete_storage id (delete_storage id sto)) =
  load_value (delete_storage id sto).
Proof.
  destruct (delete_storage_cases id sto) as [E | (items & L & R & A & L')].
  - now rewrite !E.
  - apply HistoryStore.delete_storage_absent.
    unfold loaded_of. rewrite L'. apply has_id_removed.
Qed.

(** X7. Removing an id twice is removing it once: the second
    [deleteHistoryItem] leaves [load()] as the first left it, in every
    state. *)
Theorem remove_twice (st : State) (id : string) :
  load (snd (deleteHistoryItem id (snd (deleteHistoryItem id st)))) =
  load (snd (deleteHistoryItem id st)).
Proof.
  destruct (deleteHistoryItem_run id st) as (st1 & -> & S1). simpl snd.
  destruct (deleteHistoryItem_run id st1) as (st2 & -> & S2). simpl snd.
  rewrite !load_run, S2, S1. f_equal. apply delete_storage_twice.
Qed.

(** X8. Adding a record and removing its id gives back the sequence held
    before, when the store was not full, the new id was not in it, both
    writes are taken, and the numbers of the store and of the response are
    integers of at most 15 digits. *)
Theorem add_then_remove (st : State) (items : list value)
        (data : value) (now : N) (random : string) :
  load st = Ok (Arr items) ->
  json_object data = true ->
  List.length items < 50 ->
  has_id (new_id now random) items = false ->
  forallb readable items = true ->
  forallb exact items = true ->
  exact data = true ->
  accepts (storage st) (added data now random items) = true ->
  accepts (storage (snd (addToLocalHistory data now random st)))
          (removed (new_id now random) (record data now random :: items)) = true ->
  load (snd (deleteHistoryItem (new_id now random)
               (snd (addToLocalHistory data now random st)))) = Ok (Arr items).
Proof.
  intros L J Len F R _ _ A A'.
  pose proof (HistoryStore.load_after_addToLocalHistory st items data now random L J A) as L1.
  rewrite (firstn_all2 items) in L1 by lia.
  set (st1 := snd (addToLocalHistory data now random st)) in *.
  destruct (deleteHistoryItem_run (new_id now random) st1) as (st2 & -> & S2).
  simpl snd. rewrite load_run, S2. f_equal.
  assert (R1 : forallb readable (record data now random :: items) = true).
  { simpl. now rewrite R. }
  rewrite (load_after_delete _ _ _ (load_Arr _ _ L1) R1 A').
  unfold removed. f_equal. simpl filter.
  destruct (HistoryStore.record_fields data now random J) as (Fid & _).
  unfold keep_other at 1. rewrite Fid. simpl differs_from.
  rewrite String.eqb_refl. simpl. now apply filter_absent.
Qed.

Lemma add_then_remove_witness :
  load three_records = Ok (Arr (loaded three_records)) /\
  json_object coffee = true /\
  List.length (loaded three_records) < 50 /\
  has_id (new_id 1704104000000 "0.abc") (loaded three_records) = false /\
  forallb readable (loaded three_records) = true /\
  forallb exact (loaded three_records) = true /\
  exact coffee = true /\
  accepts (storage three_records)
          (added coffee 1704104000000 "0.abc" (loaded three_records)) = true /\
  accepts (storage (snd (addToLocalHistory coffee 1704104000000 "0.abc" three_records)))
          (removed (new_id 1704104000000 "0.abc")
                   (record coffee 1704104000000 "0.abc" :: loaded three_records)) = true /\
  load (snd (deleteHistoryItem (new_id 1704104000000 "0.abc")
               (snd (addToLocalHistory coffee 1704104000000 "0.abc" three_records))))
  = Ok (Arr (loaded three_records)).
Proof.
  assert (H1 : load three_records = Ok (Arr (loaded three_records)))
    by (vm_compute; reflexivity).
  assert (H2 : json_object coffee = true) by reflexivity.
  assert (H3 : List.length (loaded three_records) < 50) by (vm_compute; lia).
  assert (H4 : has_id (new_id 1704104000000 "0.abc") (loaded three_records) = false)
    by (vm_compute; reflexivity).
  assert (H5 : forallb readable (loaded three_records) = true)
    by (vm_compute; reflexivity).
  assert (E1 : forallb exact (loaded three_records) = true)
    by (vm_compute; reflexivity).
  assert (E2 : exact coffee = true) by reflexivity.
  assert (H6 : accepts (storage three_records)
                 (added coffee 1704104000000 "0.abc" (loaded three_records)) = true)
    by (vm_compute; reflexivity).
  assert (H7 : accepts
                 (storage (snd (addToLocalHistory coffee 1704104000000 "0.abc" three_records)))
                 (removed (new_id 1704104000000 "0.abc")
                    (record coffee 1704104000000 "0.abc" :: loaded three_records)) = true)
    by (vm_compute; reflexivity).
  split; [exact H1 | split; [exact H2 | split; [exact H3 | split; [exact H4 |
    split; [exact H5 | split; [exact E1 | split; [exact E2 |
    split; [exact H6 | split; [exact H7|]]]]]]]]].
  exact (add_then_remove three_records (loaded three_records) coffee
           1704104000000 "0.abc" H1 H2 H3 H4 H5 E1 E2 H6 H7).
Defined.

(** X9. When an element of the stored array is [null], [deleteHistoryItem]
    removes nothing: the storage is untouched, the failure goes to the
    console and the error banner, and the call ends normally. *)
Theorem remove_with_null_element (st : State) (items : list value) (id : string) :
  load st = Ok (Arr items) ->
  forallb readable items = false ->
  deleteHistoryItem id st =
  (Ok Undefined,
   {| storage := storage st;
      page := set_errorMessage (Some "Failed to delete history item"%string)
                (set_console (console (page st) ++ ["Failed to delete history item:"%string])
                             (page st)) |}).
Proof.
  intros L R. apply load_Arr in L.
  assert (F : load_fails (storage st) = false).
  { destruct (load_fails (storage st)) eqn:F; [|reflexivity].
    apply load_fails_empty in F. rewrite F in L. inversion L; subst. discriminate. }
  unfold deleteHistoryItem. unfold bind at 1. unfold try_catch.
  unfold bind at 1. rewrite getLocalHistory_run, F, L.
  unfold bind at 1. simpl as_array. unfold ret at 1.
  unfold bind at 1. rewrite filterM_run, R. reflexivity.
Qed.

Lemma remove_with_null_element_witness :
  load with_null = Ok (Arr [Null]) /\
  forallb readable [Null] = false /\
  storage (snd (deleteHistoryItem "x" with_null)) = storage with_null.
Proof.
  assert (H1 : load with_null = Ok (Arr [Null])) by reflexivity.
  assert (H2 : forallb readable [Null] = false) by reflexivity.
  split; [exact H1 | split; [exact H2|]].
  now rewrite (remove_with_null_element with_null [Null] "x" H1 H2).
Defined.

(** ** The bound on the size *)

Lemma find_member_well_formed (k : string) (ms : list (string * value)) (v : value) :
  forallb (fun m => well_formed (snd m)) ms = true ->
  find_member k ms = Some v -> well_formed v = true.
Proof.
  induction ms as [|[k' x] ms IH]; simpl; intros W F; [discriminate|].
  apply andb_true_iff in W. destruct W as [Wx Wm].
  destruct (find_member k ms) as [w|].
  - inversion F; subst. now apply IH.
  - destruct (k' =? k)%string; [|discriminate]. now inversion F; subst.
Qed.

Lemma prop_well_formed_any (data : value) (k : string) :
  well_formed data = true -> (k =? "length")%string = false ->
  well_formed (prop data k) = true.
Proof.
  intros W K. unfold prop, get_prop.
  destruct data as [| | | | |l|ms]; try reflexivity; try (now rewrite K).
  unfold lookup. destruct (find_member k ms) as [v|] eqn:F; [|reflexivity].
  eapply find_member_well_formed; eauto.
Qed.

Lemma item_well_formed_any (data : value) (now : N) (random : string) :
  well_formed data = true -> well_formed (item_of data now random) = true.
Proof.
  intros W. unfold item_of. simpl.
  now rewrite !(prop_well_formed_any data _ W) by reflexivity.
Qed.

Lemma add_storage_size (data : value) (now : N) (random : string) (sto : Storage) :
  well_formed data = true ->
  List.length (loaded_of sto) <= 50 ->
  List.length (loaded_of (add_storage data now random sto)) <= 50.
Proof.
  intros W H. unfold add_storage.
  destruct (load_value sto) as [| | | | |items|] eqn:L; try exact H.
  destruct (readable data && accepts sto (added data now random items)) eqn:C;
    [|exact H].
  apply andb_true_iff in C. destruct C as [_ A].
  unfold loaded_of at 1. rewrite load_value_saved.
  - unfold added.
    change (List.length
              (map (fun e => if is_undefined e then Null else clean e)
                   (firstn 50 (item_of data now random :: items))) <= 50).
    rewrite length_map, length_firstn. lia.
  - now apply (accepts_not_blocked _ _ A).
  - unfold added.
    change (forallb well_formed (firstn 50 (item_of data now random :: items)) = true).
    apply forallb_firstn.
    change (well_formed (item_of data now random) && forallb well_formed items = true).
    rewrite (item_well_formed_any data now random W).
    exact (json_value_well_formed (Arr items) (load_value_items_json sto items L)).
  - reflexivity.
Qed.

Lemma delete_storage_size (id : string) (sto : Storage) :
  List.length (loaded_of sto) <= 50 ->
  List.length (loaded_of (delete_storage id sto)) <= 50.
Proof.
  intros H.
  destruct (delete_storage_cases id sto) as [E | (items & L & R & A & L')].
  - now rewrite E.
  - unfold loaded_of in *. rewrite L', L in *. unfold removed.
    pose proof (filter_length_le (keep_other id) items). lia.
Qed.

Lemma clear_storage_size (confirmed : bool) (sto : Storage) :
  List.length (loaded_of sto) <= 50 ->
  List.length (loaded_of (clear_storage confirmed sto)) <= 50.
Proof.
  intros H. unfold clear_storage.
  destruct (confirmed && negb (blocked sto)); [|exact H].
  unfold loaded_of, load_value. simpl. destruct (blocked sto); simpl; lia.
Qed.



(** ** Generating pickup lines *)

Lemma blank_trim_start (s : string) : blank (trim_start s) = blank s.
Proof.
  induction s as [|c r IH]; [reflexivity|].
  simpl. destruct (is_space c) eqn:E; [exact IH|].
  simpl. now rewrite E.
Qed.

Lemma is_empty_trim_end (s : string) : is_empty (trim_end s) = blank s.
Proof.
  induction s as [|c r IH]; [reflexivity|].
  simpl. rewrite <- IH.
  destruct (trim_end r); destruct (is_space c); reflexivity.
Qed.

Lemma is_empty_trim (s : string) : is_empty (trim s) = blank s.
Proof. unfold trim. now rewrite is_empty_trim_end, blank_trim_start. Qed.

(** X11. When the input holds nothing but white space, pressing the
    button sends no request: the banner asks for text, the input gets the
    focus, and nothing else on the page or in the storage changes. *)
Theorem blank_input_sends_nothing (s : Screen) :
  blank (userInput_value (page (app s))) = true ->
  generate_request s =
  (Done None,
   {| app := {| storage := storage (app s);
                page := set_errorMessage
                          (Some "Please enter some text or use voice input first!"%string)
                          (page (app s)) |};
      controls := set_userInput_focused true (controls s) |}).
Proof.
  intros B. unfold generate_request. rewrite is_empty_trim, B. reflexivity.
Qed.

Lemma blank_input_sends_nothing_witness :
  blank (userInput_value (page (app (typed "   ")))) = true /\
  fst (generate_request (typed "   ")) = Done None.
Proof.
  assert (H : blank (userInput_value (page (app (typed "   ")))) = true) by reflexivity.
  split; [exact H|].
  exact (f_equal fst (blank_input_sends_nothing (typed "   ") H)).
Defined.

(** X12. When the input holds more than white space, pressing the button
    sends a request whose body is the JSON text of an object with the one
    member [input], the trimmed text; the page shows the loading state
    with the button disabled, and hides the results and the banner. *)
Theorem request_carries_trimmed_input (s : Screen) :
  blank (userInput_value (page (app s))) = false ->
  exists body,
    fst (generate_request s) = Done (Some body) /\
    parse body = Some (Obj [("input"%string, Str (trim (userInput_value (page (app s)))))]) /\
    storage (app (snd (generate_request s))) = storage (app s) /\
    errorMessage (page (app (snd (generate_request s)))) = None /\
    results_hidden (page (app (snd (generate_request s)))) = true /\
    loading_hidden (controls (snd (generate_request s))) = false /\
    generateBtn_disabled (controls (snd (generate_request s))) = true.
Proof.
  intros B. unfold generate_request. rewrite is_empty_trim, B.
  eexists. split; [reflexivity|]. split; [|repeat split].
  unfold request_body.
  now rewrite parse_stringify.
Qed.

Lemma request_carries_trimmed_input_witness :
  blank (userInput_value (page (app (typed " coffee ")))) = false /\
  exists body,
    fst (generate_request (typed " coffee ")) = Done (Some body) /\
    parse body = Some (Obj [("input"%string, Str "coffee")]).
Proof.
  assert (H : blank (userInput_value (page (app (typed " coffee ")))) = false)
    by reflexivity.
  split; [exact H|].
  destruct (request_carries_trimmed_input (typed " coffee ") H) as (body & E & P & _).
  exists body. split; [exact E | exact P].
Defined.

(** *** The answer of the request *)

Lemma screen_eta (s : Screen) : {| app := app s; controls := controls s |} = s.
Proof. now destruct s. Qed.

Lemma set_pickupLinesList_same (c : Controls) :
  set_pickupLinesList (pickupLinesList c) c = c.
Proof. now destruct c. Qed.

Local Abbreviation add_row :=
  (fun (line : value) (index : nat) =>
     listItem <~ createPickupLineElement line index ;;
     update_controls (fun c =>
       set_pickupLinesList (pickupLinesList c ++ [listItem]) c)).

Lemma add_row_run (x : value) (i : nat) (s : Screen) :
  add_row x i s =
  if converts x
  then (Done tt,
        {| app := app s;
           controls := set_pickupLinesList (pickupLinesList (controls s) ++ [x])
                                           (controls s) |})
  else (Raise (Native TypeError), s).
Proof.
  unfold gbind, createPickupLineElement, converts.
  destruct (to_string x); reflexivity.
Qed.

Lemma forEach_from_cons (f : value -> nat -> G unit) (x : value) (l : list value)
      (i : nat) (s : Screen) :
  forEach_from f (x :: l) i s =
  match f x i s with
  | (Done _, s') => forEach_from f l (S i) s'
  | (Raise r, s') => (Raise r, s')
  end.
Proof. reflexivity. Qed.

(** The loop of [displayResults], when every line converts to text. *)
Lemma forEach_from_rows : forall (l : list value) (i : nat) (s : Screen),
  forallb converts l = true ->
  forEach_from add_row l i s =
  (Done tt,
   {| app := app s;
      controls := set_pickupLinesList (pickupLinesList (controls s) ++ l) (controls s) |}).
Proof.
  induction l as [|x l IH]; intros i s C.
  - simpl forEach_from. unfold gret.
    now rewrite app_nil_r, set_pickupLinesList_same, screen_eta.
  - simpl in C. apply andb_true_iff in C. destruct C as [Cx C].
    rewrite forEach_from_cons, add_row_run, Cx, (IH _ _ C). simpl.
    now rewrite <- app_assoc.
Qed.

(** The loop stops at the first line that does not convert. *)
Lemma forEach_from_stop : forall (l : list value) (i : nat) (s : Screen),
  forallb converts l = false ->
  exists rows,
    forEach_from add_row l i s =
    (Raise (Native TypeError),
     {| app := app s; controls := set_pickupLinesList rows (controls s) |}).
Proof.
  induction l as [|x l IH]; intros i s C; [discriminate|].
  simpl in C. rewrite forEach_from_cons, add_row_run.
  destruct (converts x).
  - simpl in C.
    destruct (IH (S i) {| app := app s;
                          controls := set_pickupLinesList
                                        (pickupLinesList (controls s) ++ [x])
                                        (controls s) |} C) as (rows & ->).
    exists rows. reflexivity.
  - exists (pickupLinesList (controls s)).
    now rewrite set_pickupLinesList_same, screen_eta.
Qed.

Lemma displayResults_ok (data : value) (lines : list value) (s : Screen) :
  get_prop data "pickup_lines" = Some (Arr lines) ->
  forallb converts lines = true ->
  displayResults data s =
  (Done tt,
   {| app := {| storage := storage (app s);
                page := set_results_hidden false (page (app s)) |};
      controls := set_pickupLinesList lines (controls s) |}).
Proof.
  intros P C. unfold displayResults.
  unfold gbind at 1. unfold update_controls at 1.
  unfold gbind at 1. unfold in_app at 1. rewrite P. simpl.
  unfold gbind at 1. unfold in_app at 1. unfold ret at 1. cbv beta iota.
  unfold gbind at 1. rewrite (forEach_from_rows lines 0 _ C). reflexivity.
Qed.

Lemma displayResults_fails (data : value) (s : Screen) :
  displayable data = false ->
  exists rows,
    displayResults data s =
    (Raise (Native TypeError),
     {| app := app s; controls := set_pickupLinesList rows (controls s) |}).
Proof.
  unfold displayable. intros D. unfold displayResults.
  unfold gbind at 1. unfold update_controls at 1.
  unfold gbind at 1. unfold in_app at 1.
  destruct (get_prop data "pickup_lines") as [v|]; [|exists []; reflexivity].
  destruct v as [| |b|lit|t|lines|ms]; try (exists []; reflexivity).
  simpl.
  unfold gbind at 1. unfold in_app at 1. unfold ret at 1. cbv beta iota.
  unfold gbind at 1.
  destruct (forEach_from_stop lines 0
              {| app := app {| app := app s;
                               controls := set_pickupLinesList [] (controls s) |};
                 controls := controls {| app := app s;
                               controls := set_pickupLinesList [] (controls s) |} |} D)
    as (rows & ->).
  exists rows. reflexivity.
Qed.

(** The page after the [catch] and the [finally] of [generatePickupLines]:
    the failure is on the console and in the banner, the loading state is
    over. *)
Local Abbreviation failed_with message c s :=
  (@Done value Undefined,
   {| app := {| storage := storage (app s);
                page := set_errorMessage
                          (Some ("Failed to generate pickup lines: " ++ message)%string)
                          (set_console
                             (console (page (app s))
                              ++ ["Error generating pickup lines:"%string])
                             (page (app s))) |};
      controls := set_generateBtn false idle_label (set_loading_hidden true c) |}).

Lemma usable_displayable (answer : fetched) (data : value) :
  usable answer = Some data ->
  exists status statusText body lines,
    answer = Responded status statusText body /\
    ok status = true /\ parse body = Some data /\
    falsy (prop data "success") = false /\
    get_prop data "success" = Some (prop data "success") /\
    get_prop data "pickup_lines" = Some (Arr lines) /\
    forallb converts lines = true.
Proof.
  unfold usable. destruct answer as [message|status statusText body]; [discriminate|].
  destruct (ok status) eqn:O; [|discriminate].
  destruct (parse body) as [d|] eqn:J; [|discriminate].
  destruct (readable d) eqn:R; [|discriminate]. simpl.
  destruct (falsy (prop d "success")) eqn:F; [discriminate|]. simpl.
  destruct (prop d "pickup_lines") as [| | | | |lines|] eqn:P; try discriminate.
  destruct (forallb converts lines) eqn:C; [|discriminate].
  intros [= <-]. exists status, statusText, body, lines.
  repeat split; auto.
  - unfold prop. now destruct d.
  - unfold prop in P. destruct d; try discriminate; simpl in *; now rewrite P.
Qed.

Lemma generate_response_usable (answer : fetched) (now : N) (random : string)
      (data : value) (lines : list value) (s : Screen) :
  usable answer = Some data ->
  get_prop data "pickup_lines" = Some (Arr lines) ->
  generate_response answer now random s =
  (Done Undefined,
   {| app := snd (addToLocalHistory data now random
                    {| storage := storage (app s);
                       page := set_results_hidden false (page (app s)) |});
      controls := set_generateBtn false idle_label
                    (set_loading_hidden true
                       (set_pickupLinesList lines (controls s))) |}).
Proof.
  intros U P.
  destruct (usable_displayable answer data U)
    as (status & statusText & body & lines' & -> & O & J & F & S & P' & C).
  rewrite P in P'. injection P' as <-.
  destruct s as [st c]. cbn [app controls].
  unfold generate_response. unfold gbind at 1. unfold try_catch_finally.
  rewrite O. simpl negb. cbv iota.
  unfold gbind at 1. unfold gret at 1.
  unfold gbind at 1. unfold response_json. rewrite J. unfold gret at 1.
  unfold gbind at 1. unfold in_app at 1. rewrite S. simpl lift. unfold ret at 1.
  cbv beta iota. cbn [app controls].
  unfold gbind at 1. rewrite F. unfold gret at 1.
  unfold gbind at 1. rewrite (displayResults_ok data lines _ P C).
  cbn [app controls].
  unfold gbind at 1. unfold in_app at 1. cbn [app controls].
  destruct (addToLocalHistory_run data now random
              {| storage := storage st;
                 page := set_results_hidden false (page st) |})
    as (st' & E & _).
  rewrite E. reflexivity.
Qed.

Lemma generate_response_unusable (answer : fetched) (now : N) (random : string)
      (s : Screen) :
  usable answer = None ->
  exists message rows,
    generate_response answer now random s =
    failed_with message (set_pickupLinesList rows (controls s)) s.
Proof.
  intros U. destruct s as [st c]. cbn [app controls].
  assert (K : forall message,
             exists message' rows,
               failed_with message c {| app := st; controls := c |} =
               failed_with message' (set_pickupLinesList rows c)
                           {| app := st; controls := c |}).
  { intros message. exists message, (pickupLinesList c).
    now rewrite set_pickupLinesList_same. }
  cbn [app controls] in K.
  unfold usable in U.
  destruct answer as [message|status statusText body]; [apply K|].
  unfold generate_response. unfold gbind at 1. unfold try_catch_finally.
  destruct (ok status); [|apply K].
  simpl negb. cbv iota.
  unfold gbind at 1. unfold gret at 1.
  unfold gbind at 1. unfold response_json.
  destruct (parse body) as [data|]; [|apply K].
  unfold gret at 1.
  unfold gbind at 1. unfold in_app at 1. cbn [app controls].
  destruct data as [| |b|lit|t|l|ms]; try apply K.
  simpl get_prop. simpl lift. unfold ret at 1. cbv beta iota.
  cbn [app controls].
  change (prop (Obj ms) "success") with (lookup "success" ms) in U.
  change (prop (Obj ms) "pickup_lines") with (lookup "pickup_lines" ms) in U.
  simpl readable in U. simpl andb in U.
  unfold gbind at 1.
  destruct (falsy (lookup "success" ms)).
  - unfold gbind at 1. unfold in_app at 1. cbn [app controls].
    simpl get_prop. simpl lift. unfold ret at 1. cbv beta iota.
    destruct (falsy (lookup "error" ms)); [apply K|].
    destruct (to_string (lookup "error" ms)); apply K.
  - simpl negb in U. cbv iota in U. unfold gret at 1.
    unfold gbind at 1.
    assert (D : displayable (Obj ms) = false).
    { unfold displayable. simpl get_prop.
      destruct (lookup "pickup_lines" ms) as [| | | | |lines|]; try reflexivity.
      destruct (forallb converts lines); [discriminate | reflexivity]. }
    destruct (displayResults_fails (Obj ms) {| app := st; controls := c |} D)
      as (rows & ->).
    exists (error_message TypeError), rows. reflexivity.
Qed.

(** ** The history lists follow the store *)

Lemma well_kept_intro (st : State) (items : list value) :
  load_value (storage st) = Arr items ->
  forallb shown items = true ->
  historyList (page st) = items ->
  mobileHistory (page st) = None \/ mobileHistory (page st) = Some items ->
  well_kept st.
Proof.
  intros L S H M. unfold well_kept, in_sync.
  rewrite loaded_run. unfold loaded_of. rewrite L. auto.
Qed.

Lemma well_kept_elim (st : State) :
  well_kept st ->
  exists items,
    load_value (storage st) = Arr items /\
    forallb shown items = true /\
    historyList (page st) = items /\
    (mobileHistory (page st) = None \/ mobileHistory (page st) = Some items).
Proof.
  intros (L & S & H & M). exists (loaded st). auto.
Qed.

(** A change of the page outside the history lists keeps the page and the
    store together. *)
Lemma well_kept_frame (st st' : State) :
  storage st' = storage st ->
  historyList (page st') = historyList (page st) ->
  mobileHistory (page st') = mobileHistory (page st) ->
  well_kept st -> well_kept st'.
Proof.
  intros S H M W. destruct (well_kept_elim st W) as (items & L & Sh & Hi & Mo).
  apply (well_kept_intro st' items); congruence.
Qed.

Lemma well_kept_loadHistory (st : State) (items : list value) :
  load_value (storage st) = Arr items ->
  forallb shown items = true ->
  well_kept (snd (loadHistory st)).
Proof.
  intros L S.
  rewrite (loadHistory_display st items L S).
  apply (well_kept_intro _ items); simpl; auto.
  destruct (mobileHistory _); auto.
Qed.

(** [addToLocalHistory] ends with the [loadHistory] of the state it saved
    in. *)
Lemma addToLocalHistory_state (data : value) (now : N) (random : string)
      (st : State) (items : list value) :
  load_value (storage st) = Arr items ->
  readable data = true ->
  exists st2,
    addToLocalHistory data now random st = (Ok Undefined, snd (loadHistory st2)) /\
    storage st2 = add_storage data now random (storage st).
Proof.
  intros L R. unfold addToLocalHistory, add_storage.
  unfold bind at 1. unfold try_catch. unfold bind at 1.
  rewrite getLocalHistory_run.
  set (st1 := if load_fails (storage st) then _ else st).
  assert (S1 : storage st1 = storage st) by (subst st1; now destruct (load_fails _)).
  unfold bind at 1. rewrite historyItem_run, R, L. simpl andb.
  unfold bind at 1. simpl as_array. unfold ret at 1. rewrite truncate_firstn.
  fold (added data now random items).
  unfold bind at 1. rewrite saveLocalHistory_run. rewrite S1.
  set (st2 := if accepts (storage st) _ then _ else _).
  exists st2. split.
  - destruct (loadHistory_run st2) as (st3 & E & _). now rewrite E.
  - subst st2. destruct (accepts (storage st) (added data now random items)); simpl; congruence.
Qed.

Lemma usable_json_object (answer : fetched) (data : value) :
  usable answer = Some data -> json_object data = true.
Proof.
  intros U.
  destruct (usable_displayable answer data U)
    as (status & statusText & body & lines & _ & _ & J & F & _ & _ & _).
  apply parse_json_value in J.
  destruct data as [| |b|lit|t|l|ms]; try discriminate. exact J.
Qed.

Lemma shown_record (data : value) (now : N) (random : string) (lines : list value) :
  json_object data = true ->
  prop data "pickup_lines" = Arr lines ->
  converts (prop data "input") && converts (prop data "timestamp") = true ->
  shown (record data now random) = true.
Proof.
  intros J P C. apply andb_true_iff in C. destruct C as [Ci Ct].
  destruct (HistoryStore.record_fields data now random J) as (Fi & Fu & Fp & Ft & _).
  unfold shown, renderable. rewrite Fi, Fu, Fp, Ft, P, Ci, Ct.
  assert (R : readable (record data now random) = true).
  { unfold record. now destruct data. }
  rewrite R. reflexivity.
Qed.

Lemma well_kept_add (st : State) (answer : fetched) (data : value)
      (now : N) (random : string) :
  well_kept st ->
  usable answer = Some data ->
  converts (prop data "input") && converts (prop data "timestamp") = true ->
  well_kept (snd (addToLocalHistory data now random st)).
Proof.
  intros W U C.
  destruct (well_kept_elim st W) as (items & L & Sh & _).
  pose proof (usable_json_object answer data U) as J.
  destruct (usable_displayable answer data U)
    as (status & statusText & body & lines & _ & _ & _ & _ & _ & P & _).
  assert (P' : prop data "pickup_lines" = Arr lines) by (unfold prop; now rewrite P).
  destruct (addToLocalHistory_state data now random st items L
              (json_object_readable data J)) as (st2 & -> & S2).
  simpl snd.
  destruct (accepts (storage st) (added data now random items)) eqn:A.
  - apply (well_kept_loadHistory st2 (firstn 50 (record data now random :: items))).
    + rewrite S2. now apply load_after_add.
    + apply forallb_firstn. simpl forallb.
      now rewrite (shown_record data now random lines J P' C).
  - apply (well_kept_loadHistory st2 items); [|exact Sh].
    rewrite S2. unfold add_storage. rewrite L, A, andb_false_r. exact L.
Qed.

(** [deleteHistoryItem] ends with the [loadHistory] of the state it saved
    in, and a toast. *)
Lemma deleteHistoryItem_state (id : string) (st : State) (items : list value) :
  load_value (storage st) = Arr items ->
  forallb readable items = true ->
  exists st2,
    deleteHistoryItem id st =
    (Ok Undefined,
     snd (showTemporaryMessage "History item deleted!" "success"
            (snd (loadHistory st2)))) /\
    storage st2 = delete_storage id (storage st) /\
    rest_of_page (page st2) = rest_of_page (page st).
Proof.
  intros L R. unfold deleteHistoryItem, delete_storage.
  unfold bind at 1. unfold try_catch. unfold bind at 1.
  rewrite getLocalHistory_run.
  set (st1 := if load_fails (storage st) then _ else st).
  assert (S1 : storage st1 = storage st) by (subst st1; now destruct (load_fails _)).
  assert (P1 : rest_of_page (page st1) = rest_of_page (page st))
    by (subst st1; now destruct (load_fails _)).
  unfold bind at 1. rewrite L.
  simpl as_array. unfold ret at 1.
  unfold bind at 1. rewrite filterM_run, R. simpl andb.
  fold (removed id items).
  unfold bind at 1. rewrite saveLocalHistory_run. rewrite S1.
  set (st2 := if accepts (storage st) _ then _ else _).
  exists st2. split; [|split].
  - unfold bind at 1.
    destruct (loadHistory_run st2) as (st3 & E & _). now rewrite E.
  - subst st2. destruct (accepts (storage st) (removed id items)); simpl; congruence.
  - subst st2. now destruct (accepts (storage st) (removed id items)).
Qed.

Lemma forallb_shown_readable (items : list value) :
  forallb shown items = true -> forallb readable items = true.
Proof.
  rewrite !forallb_forall. intros H x I.
  specialize (H x I). apply shown_renderable in H.
  unfold renderable in H. apply andb_true_iff in H. tauto.
Qed.

Lemma well_kept_delete (st : State) (id : string) :
  well_kept st -> well_kept (snd (deleteHistoryItem id st)).
Proof.
  intros W.
  destruct (well_kept_elim st W) as (items & L & Sh & _).
  pose proof (forallb_shown_readable items Sh) as R.
  destruct (deleteHistoryItem_state id st items L R) as (st2 & -> & S2 & _).
  simpl snd.
  assert (W2 : well_kept (snd (loadHistory st2))).
  { destruct (accepts (storage st) (removed id items)) eqn:A.
    - apply (well_kept_loadHistory st2 (filter (keep_other id) items)).
      + rewrite S2. now apply load_after_delete.
      + now apply forallb_filter.
    - apply (well_kept_loadHistory st2 items); [|exact Sh].
      rewrite S2. unfold delete_storage. rewrite L, A, andb_false_r. exact L. }
  revert W2. now apply well_kept_frame.
Qed.

Lemma well_kept_clear (st : State) (confirmed : bool) :
  well_kept st -> well_kept (snd (clearHistory confirmed st)).
Proof.
  intros W. destruct confirmed; [|exact W].
  unfold clearHistory. change (negb true) with false. cbv beta iota.
  unfold bind at 1. unfold try_catch. unfold bind at 1.
  unfold localStorage_removeItem.
  destruct (blocked (storage st)) eqn:B.
  - revert W. now apply well_kept_frame.
  - clear W. destruct st as [sto [hl mh nh rh ui ch em to co]]. simpl in B.
    assert (L : load_value (with_cell None sto) = Arr []).
    { unfold load_value. simpl. now rewrite B. }
    destruct mh as [rows|]; apply (well_kept_intro _ []); simpl; auto.
Qed.

(** ** What [addToLocalHistory] leaves alone *)

Lemma rest_ret {A} (a : A) : keeps_rest (ret a).
Proof. intros st; reflexivity. Qed.

Lemma rest_throw {A} (e : exn) : keeps_rest (@throw A e).
Proof. intros st; reflexivity. Qed.

Lemma rest_lift {A} (r : option A) (e : exn) : keeps_rest (lift r e).
Proof. destruct r; intros st; reflexivity. Qed.

Lemma rest_as_array (v : value) : keeps_rest (as_array v).
Proof. destruct v; intros st; reflexivity. Qed.

Lemma rest_bind {A B} (m : M A) (k : A -> M B) :
  keeps_rest m -> (forall a, keeps_rest (k a)) -> keeps_rest (bind m k).
Proof.
  intros Hm Hk st. unfold bind. specialize (Hm st).
  destruct (m st) as [[a|e] st']; simpl in *; [|exact Hm].
  now rewrite Hk.
Qed.

Lemma rest_try_catch {A} (m : M A) (h : exn -> M A) :
  keeps_rest m -> (forall e, keeps_rest (h e)) -> keeps_rest (try_catch m h).
Proof.
  intros Hm Hh st. unfold try_catch. specialize (Hm st).
  destruct (m st) as [[a|e] st']; simpl in *; [exact Hm|].
  now rewrite Hh.
Qed.

Lemma rest_forEach (f : value -> M unit) (l : list value) :
  (forall x, keeps_rest (f x)) -> keeps_rest (forEach f l).
Proof.
  intros Hf. induction l as [|x l IH]; simpl.
  - apply rest_ret.
  - apply rest_bind; auto.
Qed.

Lemma rest_set_historyList (x : list value) : keeps_rest (update_page (set_historyList x)).
Proof. intros st; reflexivity. Qed.

Lemma rest_set_noHistory_hidden (x : bool) :
  keeps_rest (update_page (set_noHistory_hidden x)).
Proof. intros st; reflexivity. Qed.

Lemma rest_set_mobileHistory (x : option (list value)) :
  keeps_rest (update_page (set_mobileHistory x)).
Proof. intros st; reflexivity. Qed.

Lemma rest_add_row (row : value) :
  keeps_rest (update_page (fun p => set_historyList (historyList p ++ [row]) p)).
Proof. intros st; reflexivity. Qed.

Lemma rest_add_mobile_row (row : value) :
  keeps_rest (update_page (fun p =>
    set_mobileHistory (option_map (fun rows => rows ++ [row]) (mobileHistory p)) p)).
Proof. intros st; reflexivity. Qed.

Lemma rest_console_error (label : string) : keeps_rest (console_error label).
Proof. intros st; reflexivity. Qed.

Lemma rest_createHistoryItem (item : value) : keeps_rest (createHistoryItem item).
Proof. intros st. now rewrite createHistoryItem_run. Qed.

Lemma rest_getLocalHistory : keeps_rest getLocalHistory.
Proof.
  intros st. rewrite getLocalHistory_run. simpl.
  now destruct (load_fails (storage st)).
Qed.

Lemma rest_saveLocalHistory (history : value) : keeps_rest (saveLocalHistory history).
Proof.
  intros st. rewrite saveLocalHistory_run. simpl.
  now destruct (accepts (storage st) history).
Qed.

Lemma rest_historyItem (data : value) (now : N) (random : string) :
  keeps_rest (historyItem data now random).
Proof. intros st. now rewrite historyItem_run. Qed.

Create HintDb rest.
#[local] Hint Resolve rest_ret rest_throw rest_lift rest_as_array
  rest_set_historyList rest_set_noHistory_hidden rest_set_mobileHistory
  rest_add_row rest_add_mobile_row rest_console_error rest_createHistoryItem
  rest_getLocalHistory rest_saveLocalHistory rest_historyItem : rest.

Ltac rest :=
  repeat first
    [ solve [auto with rest]
    | apply rest_bind; [|intros ?]
    | apply rest_try_catch; [|intros ?]
    | apply rest_forEach; intros ? ].

Lemma rest_syncMobileHistory (history : value) : keeps_rest (syncMobileHistory history).
Proof.
  intros st. unfold syncMobileHistory.
  destruct (mobileHistory (page st)); [|reflexivity].
  revert st. fold (keeps_rest
    (update_page (set_mobileHistory (Some [])) ;;
     (if falsy history || length_is_zero history then ret tt
      else l <- as_array history ;;
           forEach (fun item =>
                      row <- createMobileHistoryItem item ;;
                      update_page (fun p =>
                        set_mobileHistory
                          (option_map (fun rows => rows ++ [row])%list (mobileHistory p)) p))
                   l))).
  rest. destruct (falsy history || length_is_zero history); rest.
Qed.
#[local] Hint Resolve rest_syncMobileHistory : rest.

Lemma rest_displayHistory (history : value) : keeps_rest (displayHistory history).
Proof.
  unfold displayHistory. rest.
  destruct (falsy history || length_is_zero history); rest.
Qed.
#[local] Hint Resolve rest_displayHistory : rest.

Lemma rest_loadHistory : keeps_rest loadHistory.
Proof. unfold loadHistory. rest. Qed.
#[local] Hint Resolve rest_loadHistory : rest.

Lemma rest_addToLocalHistory (data : value) (now : N) (random : string) :
  keeps_rest (addToLocalHistory data now random).
Proof. unfold addToLocalHistory. rest. Qed.

(** ** The end of a generation *)

(** X13. Whatever [fetch] settles with, the rest of [generatePickupLines]
    ends normally and leaves the loading state: the spinner is hidden and
    the button is enabled, with its idle label. *)
Theorem generate_response_settles (answer : fetched) (now : N) (random : string)
        (s : Screen) :
  fst (generate_response answer now random s) = Done Undefined /\
  loading_hidden (controls (snd (generate_response answer now random s))) = true /\
  generateBtn_disabled (controls (snd (generate_response answer now random s))) = false /\
  generateBtn_innerHTML (controls (snd (generate_response answer now random s))) =
    idle_label.
Proof.
  destruct (usable answer) as [data|] eqn:U.
  - destruct (usable_displayable answer data U)
      as (status & statusText & body & lines & _ & _ & _ & _ & _ & P & _).
    rewrite (generate_response_usable answer now random data lines s U P).
    repeat split.
  - destruct (generate_response_unusable answer now random s U) as (message & rows & ->).
    repeat split.
Qed.



(** X15. When the status of the response is not ok, the banner reads
    "Failed to generate pickup lines: HTTP <status>: <status text>", and
    the body is not looked at: the storage, the list of results and the
    history list stay as they were. *)
Theorem http_failure_banner (status : N) (statusText body : string)
        (now : N) (random : string) (s : Screen) :
  ok status = false ->
  generate_response (Responded status statusText body) now random s =
  (Done Undefined,
   {| app := {| storage := storage (app s);
                page := set_errorMessage
                          (Some ("Failed to generate pickup lines: HTTP "
                                 ++ decimal status ++ ": " ++ statusText)%string)
                          (set_console
                             (console (page (app s))
                              ++ ["Error generating pickup lines:"%string])
                             (page (app s))) |};
      controls := set_generateBtn false idle_label
                    (set_loading_hidden true (controls s)) |}).
Proof.
  intros O. destruct s as [st c].
  unfold generate_response. unfold gbind at 1. unfold try_catch_finally.
  rewrite O. reflexivity.
Qed.

Lemma http_failure_banner_witness :
  ok 503 = false /\
  errorMessage (page (app (snd (generate_response unavailable 1704103300000 "0.i"
                                  (typed "coffee"))))) =
  Some "Failed to generate pickup lines: HTTP 503: Service Unavailable"%string.
Proof.
  assert (H : ok 503 = false) by reflexivity.
  split; [exact H|].
  exact (f_equal (fun r => errorMessage (page (app (snd r))))
           (http_failure_banner 503 "Service Unavailable" EmptyString
              1704103300000 "0.i" (typed "coffee") H)).
Defined.

(** X16. When the server answers with a falsy [success], the banner shows
    the text of [error], or "Failed to generate pickup lines" when [error]
    is falsy too (missing, empty, [null], zero); nothing is stored and the
    list of results is not touched.  The numbers in [error], if any, are
    integers of at most 15 digits. *)
Theorem server_refusal_banner (status : N) (statusText body : string)
        (ms : list (string * value)) (text : string)
        (now : N) (random : string) (s : Screen) :
  ok status = true ->
  parse body = Some (Obj ms) ->
  falsy (lookup "success" ms) = true ->
  exact (lookup "error" ms) = true ->
  to_string (lookup "error" ms) = Some text ->
  generate_response (Responded status statusText body) now random s =
  (Done Undefined,
   {| app := {| storage := storage (app s);
                page := set_errorMessage
                          (Some ("Failed to generate pickup lines: "
                                 ++ (if falsy (lookup "error" ms)
                                     then "Failed to generate pickup lines"
                                     else text))%string)
                          (set_console
                             (console (page (app s))
                              ++ ["Error generating pickup lines:"%string])
                             (page (app s))) |};
      controls := set_generateBtn false idle_label
                    (set_loading_hidden true (controls s)) |}).
Proof.
  intros O J F _ T. destruct s as [st c].
  unfold generate_response. unfold gbind at 1. unfold try_catch_finally.
  rewrite O. simpl negb. cbv iota.
  unfold gbind at 1. unfold gret at 1.
  unfold gbind at 1. unfold response_json. rewrite J. unfold gret at 1.
  unfold gbind at 1. unfold in_app at 1. cbn [app controls].
  simpl get_prop. simpl lift. unfold ret at 1. cbv beta iota.
  unfold gbind at 1. rewrite F.
  unfold gbind at 1. unfold in_app at 1. cbn [app controls].
  simpl get_prop. simpl lift. unfold ret at 1. cbv beta iota.
  rewrite T. destruct (falsy (lookup "error" ms)); reflexivity.
Qed.

Lemma server_refusal_banner_witness :
  ok 200 = true /\
  errorMessage (page (app (snd (generate_response refused 1704103300000 "0.i"
                                  (typed "coffee"))))) =
  Some "Failed to generate pickup lines: Rate limit exceeded"%string.
Proof.
  assert (H1 : ok 200 = true) by reflexivity.
  assert (H2 : parse (stringify (Obj [("success"%string, Bool false);
                                      ("error"%string, Str "Rate limit exceeded")])) =
               Some (Obj [("success"%string, Bool false);
                          ("error"%string, Str "Rate limit exceeded")]))
    by (vm_compute; reflexivity).
  assert (H3 : falsy (lookup "success" [("success"%string, Bool false);
                                        ("error"%string, Str "Rate limit exceeded")]) = true)
    by reflexivity.
  assert (H4 : to_string (lookup "error" [("success"%string, Bool false);
                                          ("error"%string, Str "Rate limit exceeded")]) =
               Some "Rate limit exceeded"%string)
    by reflexivity.
  assert (E : exact (lookup "error" [("success"%string, Bool false);
                                     ("error"%string, Str "Rate limit exceeded")]) = true)
    by reflexivity.
  split; [exact H1|].
  exact (f_equal (fun r => errorMessage (page (app (snd r))))
           (server_refusal_banner 200 "OK" _ _ _ 1704103300000 "0.i"
              (typed "coffee") H1 H2 H3 E H4)).
Defined.

(** X17. [addToLocalHistory] is silent: whatever the state and the
    response, it ends normally and shows the user neither a banner nor a
    toast, and leaves the results, the input and the selected record as
    they were; only the history lists and the console change. *)
Theorem add_is_silent (data : value) (now : N) (random : string) (st : State) :
  fst (addToLocalHistory data now random st) = Ok Undefined /\
  errorMessage (page (snd (addToLocalHistory data now random st))) =
    errorMessage (page st) /\
  toasts (page (snd (addToLocalHistory data now random st))) = toasts (page st) /\
  results_hidden (page (snd (addToLocalHistory data now random st))) =
    results_hidden (page st) /\
  userInput_value (page (snd (addToLocalHistory data now random st))) =
    userInput_value (page st) /\
  currentHistoryId (page (snd (addToLocalHistory data now random st))) =
    currentHistoryId (page st).
Proof.
  pose proof (rest_addToLocalHistory data now random st) as R.
  destruct (addToLocalHistory_run data now random st) as (st' & E & _).
  rewrite E in *. simpl in *. unfold rest_of_page in R.
  injection R as R1 R2 R3 R4 R5. repeat split; assumption.
Qed.



Lemma generate_request_sends (s : Screen) :
  blank (userInput_value (page (app s))) = false ->
  generate_request s =
  (Done (Some (request_body (trim (userInput_value (page (app s)))))),
   {| app := {| storage := storage (app s);
                page := set_errorMessage None
                          (set_results_hidden true (page (app s))) |};
      controls := set_generateBtn true generating_label
                    (set_loading_hidden false (controls s)) |}).
Proof.
  intros B. unfold generate_request. rewrite is_empty_trim, B. reflexivity.
Qed.

(** ** A visit *)

Lemma app_in_app {A} (m : M A) (s : Screen) : app (snd (in_app m s)) = snd (m (app s)).
Proof. unfold in_app. now destruct (m (app s)) as [[a|e] st]. Qed.

Lemma well_kept_perform (a : action) (s : Screen) :
  presentable a = true ->
  well_kept (app s) -> well_kept (app (perform a s)).
Proof.
  intros P W. destruct a as [text h| |answer now random|id|confirmed]; simpl perform.
  - revert W. now apply well_kept_frame.
  - unfold generate_request.
    destruct (is_empty (trim (userInput_value (page (app s)))));
      revert W; now apply well_kept_frame.
  - simpl in P. destruct (usable answer) as [data|] eqn:U.
    + destruct (usable_displayable answer data U)
        as (status & statusText & body & lines & _ & _ & _ & _ & _ & G & _).
      rewrite (generate_response_usable answer now random data lines s U G).
      cbn [snd app].
      apply (well_kept_add _ answer data now random); [|exact U|exact P].
      revert W. now apply well_kept_frame.
    + destruct (generate_response_unusable answer now random s U)
        as (message & rows & ->).
      revert W. now apply well_kept_frame.
  - rewrite app_in_app. now apply well_kept_delete.
  - rewrite app_in_app. now apply well_kept_clear.
Qed.

(** X20. The history lists follow the store through a whole visit: when
    the store holds an array of records whose rows can be built and the
    lists show it, they still do after any sequence of typing, requests,
    answers, deletions and clearings, for answers whose [input] and
    [timestamp] convert to text. *)
Theorem history_follows_store (actions : list action) (s : Screen) :
  forallb presentable actions = true ->
  well_kept (app s) ->
  well_kept (app (session actions s)).
Proof.
  revert s. induction actions as [|a actions IH]; intros s P W; [exact W|].
  simpl in P. apply andb_true_iff in P. destruct P as [Pa P].
  simpl session. apply IH; [exact P|]. now apply well_kept_perform.
Qed.

Lemma history_follows_store_witness :
  forallb presentable a_visit = true /\
  well_kept (app (typed EmptyString)) /\
  historyList (page (app (session a_visit (typed EmptyString)))) =
  loaded (app (session a_visit (typed EmptyString))).
Proof.
  assert (H1 : forallb presentable a_visit = true) by (vm_compute; reflexivity).
  assert (H2 : well_kept (app (typed EmptyString))).
  { split; [reflexivity | split; [reflexivity | split; [reflexivity | right; reflexivity]]]. }
  split; [exact H1 | split; [exact H2|]].
  destruct (history_follows_store a_visit (typed EmptyString) H1 H2) as (_ & _ & H & _).
  exact H.
Defined.

(** *** Results stay hidden until a generation succeeds *)

Lemma results_of_rest {A} (m : M A) : keeps_rest m -> keeps_results m.
Proof.
  intros R st. specialize (R st). unfold rest_of_page in R.
  now injection R.
Qed.

Lemma results_bind {A B} (m : M A) (k : A -> M B) :
  keeps_results m -> (forall a, keeps_results (k a)) -> keeps_results (bind m k).
Proof.
  intros Hm Hk st. unfold bind. specialize (Hm st).
  destruct (m st) as [[a|e] st']; simpl in *; [|exact Hm].
  now rewrite Hk.
Qed.

Lemma results_try_catch {A} (m : M A) (h : exn -> M A) :
  keeps_results m -> (forall e, keeps_results (h e)) -> keeps_results (try_catch m h).
Proof.
  intros Hm Hh st. unfold try_catch. specialize (Hm st).
  destruct (m st) as [[a|e] st']; simpl in *; [exact Hm|].
  now rewrite Hh.
Qed.

Lemma results_deleteHistoryItem (id : string) : keeps_results (deleteHistoryItem id).
Proof.
  unfold deleteHistoryItem.
  apply results_bind; [|intros ?; apply results_of_rest, rest_ret].
  apply results_try_catch.
  - apply results_bind; [apply results_of_rest, rest_getLocalHistory|intros history].
    apply results_bind; [apply results_of_rest, rest_as_array|intros l].
    apply results_bind; [intros st; now rewrite filterM_run|intros filtered].
    apply results_bind; [apply results_of_rest, rest_saveLocalHistory|intros ?].
    apply results_bind; [apply results_of_rest, rest_loadHistory|intros ?].
    intros st. reflexivity.
  - intros e. apply results_bind; [|intros ?]; intros st; reflexivity.
Qed.

Lemma clearHistory_hides (confirmed : bool) (st : State) :
  results_hidden (page st) = true ->
  results_hidden (page (snd (clearHistory confirmed st))) = true.
Proof.
  intros H. destruct confirmed; [|exact H].
  unfold clearHistory. change (negb true) with false. cbv beta iota.
  unfold bind at 1. unfold try_catch. unfold bind at 1.
  unfold localStorage_removeItem.
  destruct (blocked (storage st)) eqn:B; [exact H|].
  destruct st as [sto [hl mh nh rh ui ch em to co]].
  now destruct mh.
Qed.

Lemma perform_keeps_hidden (a : action) (s : Screen) :
  shows_nothing a = true ->
  results_hidden (page (app s)) = true ->
  results_hidden (page (app (perform a s))) = true.
Proof.
  intros N H. destruct a as [text h| |answer now random|id|confirmed]; simpl perform.
  - exact H.
  - unfold generate_request.
    destruct (is_empty (trim (userInput_value (page (app s))))); [exact H | reflexivity].
  - simpl in N. destruct (usable answer) as [data|] eqn:U; [discriminate|].
    destruct (generate_response_unusable answer now random s U)
      as (message & rows & ->).
    exact H.
  - rewrite app_in_app, results_deleteHistoryItem. exact H.
  - rewrite app_in_app. now apply clearHistory_hides.
Qed.

Lemma session_keeps_hidden : forall (actions : list action) (s : Screen),
  forallb shows_nothing actions = true ->
  results_hidden (page (app s)) = true ->
  results_hidden (page (app (session actions s))) = true.
Proof.
  induction actions as [|a actions IH]; intros s N H; [exact H|].
  simpl in N. apply andb_true_iff in N. destruct N as [Na N].
  simpl session. apply IH; [exact N|]. now apply perform_keeps_hidden.
Qed.

Lemma session_app : forall (a b : list action) (s : Screen),
  session (a ++ b) s = session b (session a s).
Proof.
  induction a as [|x a IH]; intros b s; [reflexivity|].
  simpl. apply IH.
Qed.



(** ** [escapeHtml] *)

Lemma occurs_append (c : ascii) (a b : string) :
  occurs c (a ++ b) = occurs c a || occurs c b.
Proof.
  induction a as [|x a IH]; [reflexivity|].
  simpl. now rewrite IH, orb_assoc.
Qed.

(** The five shapes of the markup of a code unit. *)
Lemma escapeHtml_unit_cases (c : ascii) :
  (c = "&"%char /\ escapeHtml_unit c = "&amp;"%string) \/
  (c = "<"%char /\ escapeHtml_unit c = "&lt;"%string) \/
  (c = ">"%char /\ escapeHtml_unit c = "&gt;"%string) \/
  (c = "160"%char /\ escapeHtml_unit c = "&nbsp;"%string) \/
  (c <> "&"%char /\ c <> "<"%char /\ c <> ">"%char /\ c <> "160"%char /\
   escapeHtml_unit c = String c EmptyString).
Proof.
  unfold escapeHtml_unit.
  destruct (Ascii.eqb_spec c "&"); [subst; auto|].
  destruct (Ascii.eqb_spec c "<"); [subst; auto|].
  destruct (Ascii.eqb_spec c ">"); [subst; auto 6|].
  destruct (Ascii.eqb_spec c "160"); [subst; auto 8|].
  repeat right. auto.
Qed.

(** X21. The markup [escapeHtml] returns has no angle bracket: no text
    opens or closes a tag in it. *)
Theorem escapeHtml_no_tag (text : string) :
  occurs "<" (escapeHtml text) = false /\ occurs ">" (escapeHtml text) = false.
Proof.
  induction text as [|c r [IH1 IH2]]; [split; reflexivity|].
  simpl escapeHtml. rewrite !occurs_append, IH1, IH2, !orb_false_r.
  destruct (escapeHtml_unit_cases c)
    as [(_ & ->)|[(_ & ->)|[(_ & ->)|[(_ & ->)|(_ & L & G & _ & ->)]]]];
    try (split; reflexivity).
  simpl. rewrite !orb_false_r. split; now apply Ascii.eqb_neq.
Qed.

(** X22. [escapeHtml] loses nothing: two texts with the same markup are
    the same text. *)
Theorem escapeHtml_injective : forall a b : string,
  escapeHtml a = escapeHtml b -> a = b.
Proof.
  induction a as [|x a IH]; intros [|y b] H.
  - reflexivity.
  - simpl in H.
    destruct (escapeHtml_unit_cases y)
      as [(_ & E)|[(_ & E)|[(_ & E)|[(_ & E)|(_ & _ & _ & _ & E)]]]];
      rewrite E in H; discriminate.
  - simpl in H.
    destruct (escapeHtml_unit_cases x)
      as [(_ & E)|[(_ & E)|[(_ & E)|[(_ & E)|(_ & _ & _ & _ & E)]]]];
      rewrite E in H; discriminate.
  - simpl in H.
    destruct (escapeHtml_unit_cases x)
      as [(X & Ex)|[(X & Ex)|[(X & Ex)|[(X & Ex)|(X1 & X2 & X3 & X4 & Ex)]]]];
    destruct (escapeHtml_unit_cases y)
      as [(Y & Ey)|[(Y & Ey)|[(Y & Ey)|[(Y & Ey)|(Y1 & Y2 & Y3 & Y4 & Ey)]]]];
      rewrite Ex, Ey in H; simpl in H; try discriminate;
      try (injection H as H; subst; f_equal; now apply IH);
      try (injection H as H1 H; congruence).
Qed.

Lemma escapeHtml_injective_witness :
  escapeHtml "a < b" = escapeHtml (String "a" " < b") /\
  "a < b"%string = String "a" " < b".
Proof.
  assert (H : escapeHtml "a < b" = escapeHtml (String "a" " < b")) by reflexivity.
  split; [exact H|].
  exact (escapeHtml_injective "a < b" (String "a" " < b") H).
Defined.

(** X23. [escapeHtml] leaves quotes as they are: the markup holds a double
    quote, or an apostrophe, exactly when the text does. *)
Theorem escapeHtml_keeps_quotes (text : string) :
  occurs dquote (escapeHtml text) = occurs dquote text /\
  occurs "'" (escapeHtml text) = occurs "'" text.
Proof.
  induction text as [|c r [IH1 IH2]]; [split; reflexivity|].
  simpl escapeHtml. rewrite !occurs_append, IH1, IH2.
  destruct (escapeHtml_unit_cases c)
    as [(-> & ->)|[(-> & ->)|[(-> & ->)|[(-> & ->)|(_ & _ & _ & _ & ->)]]]];
    try (split; reflexivity).
  simpl. now rewrite !orb_false_r.
Qed.

(** ** Voice input *)

Lemma skipn_nth_error {A} : forall (l : list A) (i : nat),
  skipn i l = match nth_error l i with
              | Some x => x :: skipn (S i) l
              | None => []
              end.
Proof.
  induction l as [|x l IH]; intros [|i]; try reflexivity.
  simpl skipn at 1. simpl nth_error. rewrite IH.
  destruct (nth_error l i); reflexivity.
Qed.

(** The loop of [onresult] adds the transcripts of the results it
    visits. *)
Lemma transcripts_said (l : list spoken) : forall (count i : nat) (f n : string),
  transcripts l count i f n =
  ((f ++ said true (firstn count (skipn i l)))%string,
   (n ++ said false (firstn count (skipn i l)))%string).
Proof.
  induction count as [|count IH]; intros i f n.
  - simpl. now rewrite !append_empty_r.
  - simpl transcripts. rewrite (skipn_nth_error l i).
    destruct (nth_error l i) as [r|].
    + simpl firstn. simpl said.
      destruct (isFinal r); rewrite IH; simpl Bool.eqb; cbv iota;
        now rewrite ?append_assoc.
    + simpl. now rewrite !append_empty_r.
Qed.

Lemma transcripts_all (l : list spoken) (i : nat) :
  transcripts l (List.length l - i) i EmptyString EmptyString =
  (said true (skipn i l), said false (skipn i l)).
Proof.
  rewrite transcripts_said. simpl.
  rewrite firstn_all2; [reflexivity|]. rewrite length_skipn. lia.
Qed.

(** X24. A recognition event adds to the input the final transcripts from
    [resultIndex] on, in their order, and nothing else: the results before
    [resultIndex] and the interim ones are not added, and the text already
    in the input stays in front.  The status line shows the interim
    transcripts, and the storage is not touched. *)
Theorem onresult_appends_finals (event : SpeechRecognitionEvent) (scrollHeight : N)
        (s : Screen) :
  fst (onresult event scrollHeight s) = Done tt /\
  userInput_value (page (app (snd (onresult event scrollHeight s)))) =
    (userInput_value (page (app s))
     ++ said true (skipn (resultIndex event) (results event)))%string /\
  voiceStatusText (controls (snd (onresult event scrollHeight s))) =
    (if is_empty (said false (skipn (resultIndex event) (results event)))
     then "Listening for your voice..."
     else "Listening: " ++ q
          ++ said false (skipn (resultIndex event) (results event)) ++ q)%string /\
  storage (app (snd (onresult event scrollHeight s))) = storage (app s).
Proof.
  unfold onresult. rewrite transcripts_all.
  destruct s as [st c].
  destruct (said true (skipn (resultIndex event) (results event))) as [|x f];
    destruct (said false (skipn (resultIndex event) (results event))) as [|y n];
    simpl; rewrite ?append_empty_r; repeat split.
Qed.

(** ** What the user is told *)

(** X25. [deleteHistoryItem] reports success whenever it could read the
    ids: with a store that is an array without [null] elements, it adds the
    toast "History item deleted!" and shows no banner, also when no record
    has the id or the storage refuses the write and nothing was deleted. *)
Theorem delete_always_reports_success (st : State) (items : list value) (id : string) :
  load st = Ok (Arr items) ->
  forallb readable items = true ->
  fst (deleteHistoryItem id st) = Ok Undefined /\
  toasts (page (snd (deleteHistoryItem id st))) =
    toasts (page st) ++ [("History item deleted!"%string, "success"%string)] /\
  errorMessage (page (snd (deleteHistoryItem id st))) = errorMessage (page st).
Proof.
  intros L R. apply load_Arr in L.
  destruct (deleteHistoryItem_state id st items L R) as (st2 & -> & _ & P2).
  pose proof (rest_loadHistory st2) as P3. rewrite P2 in P3.
  unfold rest_of_page in P3. injection P3 as _ _ _ E T.
  cbn [fst snd]. unfold showTemporaryMessage, update_page. cbn [snd page].
  split; [reflexivity|]. split; [|exact E].
  simpl. now rewrite T.
Qed.

Lemma delete_always_reports_success_witness :
  load three_records = Ok (Arr (loaded three_records)) /\
  forallb readable (loaded three_records) = true /\
  toasts (page (snd (deleteHistoryItem "nonexistent-id" three_records))) =
    toasts (page three_records) ++ [("History item deleted!"%string, "success"%string)].
Proof.
  assert (H1 : load three_records = Ok (Arr (loaded three_records)))
    by (vm_compute; reflexivity).
  assert (H2 : forallb readable (loaded three_records) = true)
    by (vm_compute; reflexivity).
  split; [exact H1 | split; [exact H2|]].
  destruct (delete_always_reports_success three_records (loaded three_records)
              "nonexistent-id" H1 H2) as (_ & T & _).
  exact T.
Defined.



End ClientFacts.
